(** * Optima-IDP recommender: the reliable-queue worker

    A shallow embedding of [recommender/worker.py]: the job processor
    [process_job] and one iteration of the [while True] loop of
    [start_worker], over an explicit model of the Redis lists, the MongoDB
    collections and the Python values that flow between them. *)

From Stdlib Require Import ZArith List String Ascii DecimalString Bool Lia.
From Stdlib Require Import Permutation Sorted.
Import ListNotations.
Open Scope Z_scope.

(* ================================================================== *)
(** * Part I. Definitions *)
(* ================================================================== *)

(** ** Bytes and text

    A Python [bytes] object is a Rocq [string] (a list of 8-bit [ascii]);
    a Python [str] is the list of its Unicode code points. *)

Definition bytes := string.
Bind Scope string_scope with bytes.
Definition str := list Z.

Definition byte_val (a : ascii) : Z := Z.of_N (N_of_ascii a).
Definition byte_of (z : Z) : ascii := ascii_of_N (Z.to_N z).

(** A string literal of the source, as a [str]. *)
Definition lit (s : string) : str := map byte_val (list_ascii_of_string s).

Fixpoint str_eqb (a b : str) : bool :=
  match a, b with
  | [], [] => true
  | x :: a', y :: b' => (x =? y) && str_eqb a' b'
  | _, _ => false
  end.

(** *** [bytes.decode('utf-8')] and [str.encode('utf-8')]

    The strict decoder: shortest form only, no surrogates, nothing above
    U+10FFFF.  [None] stands for [UnicodeDecodeError]. *)

Definition is_cont (b : Z) : bool := (0x80 <=? b) && (b <=? 0xBF).

Definition cp2 (b0 b1 : Z) : Z := (b0 - 0xC0) * 64 + (b1 - 0x80).
Definition cp3 (b0 b1 b2 : Z) : Z :=
  (b0 - 0xE0) * 4096 + (b1 - 0x80) * 64 + (b2 - 0x80).
Definition cp4 (b0 b1 b2 b3 : Z) : Z :=
  (b0 - 0xF0) * 262144 + (b1 - 0x80) * 4096 + (b2 - 0x80) * 64 + (b3 - 0x80).

Definition ok2 (b0 b1 : Z) : bool :=
  (0xC2 <=? b0) && (b0 <=? 0xDF) && is_cont b1.
Definition ok3 (b0 b1 b2 : Z) : bool :=
  (0xE0 <=? b0) && (b0 <=? 0xEF) && is_cont b1 && is_cont b2
  && (0x800 <=? cp3 b0 b1 b2)
  && negb ((0xD800 <=? cp3 b0 b1 b2) && (cp3 b0 b1 b2 <=? 0xDFFF)).
Definition ok4 (b0 b1 b2 b3 : Z) : bool :=
  (0xF0 <=? b0) && (b0 <=? 0xF4) && is_cont b1 && is_cont b2 && is_cont b3
  && (0x10000 <=? cp4 b0 b1 b2 b3) && (cp4 b0 b1 b2 b3 <=? 0x10FFFF).

Fixpoint decode_vals (bs : list Z) : option str :=
  match bs with
  | [] => Some []
  | b0 :: r0 =>
    if (0 <=? b0) && (b0 <? 0x80) then option_map (cons b0) (decode_vals r0)
    else
      match r0 with
      | [] => None
      | b1 :: r1 =>
        if ok2 b0 b1 then option_map (cons (cp2 b0 b1)) (decode_vals r1)
        else
          match r1 with
          | [] => None
          | b2 :: r2 =>
            if ok3 b0 b1 b2
            then option_map (cons (cp3 b0 b1 b2)) (decode_vals r2)
            else
              match r2 with
              | [] => None
              | b3 :: r3 =>
                if ok4 b0 b1 b2 b3
                then option_map (cons (cp4 b0 b1 b2 b3)) (decode_vals r3)
                else None
              end
          end
      end
  end.

Definition encode_cp (c : Z) : list Z :=
  if c <? 0x80 then [c]
  else if c <? 0x800 then [0xC0 + c / 64; 0x80 + c mod 64]
  else if c <? 0x10000 then
    [0xE0 + c / 4096; 0x80 + (c / 64) mod 64; 0x80 + c mod 64]
  else
    [0xF0 + c / 262144; 0x80 + (c / 4096) mod 64;
     0x80 + (c / 64) mod 64; 0x80 + c mod 64].

Definition utf8_decode (b : bytes) : option str :=
  decode_vals (map byte_val (list_ascii_of_string b)).

Definition utf8_encode (s : str) : bytes :=
  string_of_list_ascii (map byte_of (flat_map encode_cp s)).

(** ** Python values

    The values that JSON payloads and BSON documents are made of.  A
    [dict] keeps its keys in insertion order, each key once.  A float is
    kept as its literal: the worker never computes with one. *)

Definition oid := str.   (* an ObjectId, as the hex digits of [str(oid)] *)

#[warnings="-register-all"]
Inductive pyval : Type :=
| PNone
| PBool (b : bool)
| PInt (z : Z)
| PFloat (literal : str)
| PStr (s : str)
| PList (l : list pyval)
| PDict (d : list (str * pyval))
| PObjectId (o : oid)
| PDatetime (t : Z).

Definition dict := list (str * pyval).

Fixpoint dict_get (k : str) (d : dict) : option pyval :=
  match d with
  | [] => None
  | (k', v) :: d' => if str_eqb k k' then Some v else dict_get k d'
  end.

(** [d[k] = v]: an existing key keeps its place, a new one goes last. *)
Fixpoint dict_set (k : str) (v : pyval) (d : dict) : dict :=
  match d with
  | [] => [(k, v)]
  | (k', v') :: d' =>
    if str_eqb k k' then (k', v) :: d' else (k', v') :: dict_set k v d'
  end.

Definition dict_has (k : str) (d : dict) : bool :=
  match dict_get k d with Some _ => true | None => false end.

(** ** [json.loads]

    The scanner of the decoder, with the two limits of the interpreter it can
    run into on its way through the text: every array or object it enters
    takes one of the levels of recursion that are left, and an integer literal
    is converted only when it has no more digits than [int] accepts. *)

Inductive limit : Type :=
| TooDeep            (* RecursionError *)
| TooManyDigits.     (* ValueError, from the conversion of an integer literal *)

Inductive scanned : Type :=
| Scanned (v : pyval) (rest : str)
| BadSyntax                          (* json.JSONDecodeError *)
| OverLimit (l : limit).

Definition ch (s : string) : Z :=
  match s with String a _ => byte_val a | EmptyString => -1 end.

Definition quote : Z := 34.

Definition is_ws (c : Z) : bool :=
  (c =? 32) || (c =? 9) || (c =? 10) || (c =? 13).

Fixpoint skip_ws (s : str) : str :=
  match s with
  | c :: r => if is_ws c then skip_ws r else s
  | [] => []
  end.

Definition is_digit (c : Z) : bool := (48 <=? c) && (c <=? 57).

Definition hex_val (c : Z) : option Z :=
  if is_digit c then Some (c - 48)
  else if (97 <=? c) && (c <=? 102) then Some (c - 87)
  else if (65 <=? c) && (c <=? 70) then Some (c - 55)
  else None.

Definition hex4 (s : str) : option (Z * str) :=
  match s with
  | a :: b :: c :: d :: r =>
    match hex_val a, hex_val b, hex_val c, hex_val d with
    | Some a, Some b, Some c, Some d => Some (a * 4096 + b * 256 + c * 16 + d, r)
    | _, _, _, _ => None
    end
  | _ => None
  end.

Fixpoint strip_prefix (p s : str) : option str :=
  match p, s with
  | [], _ => Some s
  | x :: p', y :: s' => if x =? y then strip_prefix p' s' else None
  | _ :: _, [] => None
  end.

(** The body of a string literal, after its opening quote. *)
Fixpoint scan_string (fuel : nat) (acc : str) (s : str) : option (str * str) :=
  match fuel with
  | O => None
  | S f =>
    match s with
    | [] => None
    | c :: r =>
      if c =? quote then Some (rev acc, r)
      else if c =? ch "\" then
        match r with
        | [] => None
        | e :: r' =>
          if e =? ch "u" then
            match hex4 r' with
            | None => None
            | Some (u, r2) =>
              if (0xD800 <=? u) && (u <=? 0xDBFF) then
                match strip_prefix (lit "\u") r2 with
                | Some r3 =>
                  match hex4 r3 with
                  | Some (u2, r4) =>
                    if (0xDC00 <=? u2) && (u2 <=? 0xDFFF)
                    then scan_string f
                           (0x10000 + (u - 0xD800) * 1024 + (u2 - 0xDC00) :: acc) r4
                    else scan_string f (u :: acc) r2
                  | None => scan_string f (u :: acc) r2
                  end
                | None => scan_string f (u :: acc) r2
                end
              else scan_string f (u :: acc) r2
            end
          else if e =? quote then scan_string f (e :: acc) r'
          else if e =? ch "\" then scan_string f (e :: acc) r'
          else if e =? ch "/" then scan_string f (e :: acc) r'
          else if e =? ch "b" then scan_string f (8 :: acc) r'
          else if e =? ch "f" then scan_string f (12 :: acc) r'
          else if e =? ch "n" then scan_string f (10 :: acc) r'
          else if e =? ch "r" then scan_string f (13 :: acc) r'
          else if e =? ch "t" then scan_string f (9 :: acc) r'
          else None
        end
      else if c <? 32 then None
      else scan_string f (c :: acc) r
    end
  end.

Fixpoint take_digits (s : str) : str * str :=
  match s with
  | c :: r =>
    if is_digit c then let (d, r') := take_digits r in (c :: d, r') else ([], s)
  | [] => ([], [])
  end.

Definition digits_val (d : str) : Z :=
  fold_left (fun n c => n * 10 + (c - 48)) d 0.

(** Whether [int] refuses a literal of [n] digits; a limit of 0 is no
    limit. *)
Definition over_digits (max_digits n : nat) : bool :=
  ((0 <? max_digits) && (max_digits <? n))%nat.

(** A JSON number: an optional minus sign, the integer part (a lone zero
    or a digit string with no leading zero), then an optional fraction and
    an optional exponent, each taken only when complete.  Without fraction
    and exponent the literal goes to [int], otherwise to [float]. *)
Definition scan_number (max_digits : nat) (s : str) : scanned :=
  let (neg, s1) := match s with
                   | c :: r => if c =? ch "-" then (true, r) else (false, s)
                   | [] => (false, s)
                   end in
  let int_part :=
    match s1 with
    | c :: r =>
      if c =? ch "0" then Some ([c], r)
      else if is_digit c then let (d, r') := take_digits r in Some (c :: d, r')
      else None
    | [] => None
    end in
  match int_part with
  | None => BadSyntax
  | Some (ds, s2) =>
    let (frac, s3) :=
      match s2 with
      | c :: r =>
        if c =? ch "." then
          match take_digits r with
          | ([], _) => ([], s2)
          | (d, r') => (c :: d, r')
          end
        else ([], s2)
      | [] => ([], s2)
      end in
    let (expo, s4) :=
      match s3 with
      | c :: r =>
        if (c =? ch "e") || (c =? ch "E") then
          let (sg, r1) := match r with
                          | g :: r0 =>
                            if (g =? ch "+") || (g =? ch "-")
                            then ([g], r0) else ([], r)
                          | [] => ([], r)
                          end in
          match take_digits r1 with
          | ([], _) => ([], s3)
          | (d, r') => (c :: sg ++ d, r')
          end
        else ([], s3)
      | [] => ([], s3)
      end in
    match frac, expo with
    | [], [] =>
      if over_digits max_digits (List.length ds) then OverLimit TooManyDigits
      else Scanned (PInt (if neg then - digits_val ds else digits_val ds)) s4
    | _, _ =>
      Scanned (PFloat ((if neg then [ch "-"] else []) ++ ds ++ frac ++ expo)) s4
    end
  end.

Definition scan_keyword (s : str) : option (pyval * str) :=
  match strip_prefix (lit "null") s with
  | Some r => Some (PNone, r)
  | None =>
  match strip_prefix (lit "true") s with
  | Some r => Some (PBool true, r)
  | None =>
  match strip_prefix (lit "false") s with
  | Some r => Some (PBool false, r)
  | None =>
  match strip_prefix (lit "NaN") s with
  | Some r => Some (PFloat (lit "nan"), r)
  | None =>
  match strip_prefix (lit "Infinity") s with
  | Some r => Some (PFloat (lit "inf"), r)
  | None =>
  match strip_prefix (lit "-Infinity") s with
  | Some r => Some (PFloat (lit "-inf"), r)
  | None => None
  end end end end end end.

Inductive scan_mode : Type :=
| MValue
| MElems (acc : list pyval)
| MMembers (acc : dict).

(** [depth] is how many arrays and objects the scanner can still enter. *)
Fixpoint scan (fuel depth max_digits : nat) (m : scan_mode) (s : str)
  : scanned :=
  match fuel with
  | O => BadSyntax
  | S f =>
    match m with
    | MValue =>
      match s with
      | [] => BadSyntax
      | c :: r =>
        if c =? quote then
          match scan_string (S (List.length r)) [] r with
          | Some (t, r') => Scanned (PStr t) r'
          | None => BadSyntax
          end
        else if c =? ch "{" then
          match depth with
          | O => OverLimit TooDeep
          | S d =>
            match skip_ws r with
            | c' :: r' =>
              if c' =? ch "}" then Scanned (PDict []) r'
              else scan f d max_digits (MMembers []) (c' :: r')
            | [] => BadSyntax
            end
          end
        else if c =? ch "[" then
          match depth with
          | O => OverLimit TooDeep
          | S d =>
            match skip_ws r with
            | c' :: r' =>
              if c' =? ch "]" then Scanned (PList []) r'
              else scan f d max_digits (MElems []) (c' :: r')
            | [] => BadSyntax
            end
          end
        else
          match scan_keyword s with
          | Some (v, r') => Scanned v r'
          | None => scan_number max_digits s
          end
      end
    | MElems acc =>
      match scan f depth max_digits MValue s with
      | Scanned v r1 =>
        match skip_ws r1 with
        | c :: r2 =>
          if c =? ch "," then
            scan f depth max_digits (MElems (v :: acc)) (skip_ws r2)
          else if c =? ch "]" then Scanned (PList (rev (v :: acc))) r2
          else BadSyntax
        | [] => BadSyntax
        end
      | stop => stop
      end
    | MMembers acc =>
      match s with
      | c :: r =>
        if c =? quote then
          match scan_string (S (List.length r)) [] r with
          | None => BadSyntax
          | Some (k, r1) =>
            match skip_ws r1 with
            | c1 :: r2 =>
              if c1 =? ch ":" then
                match scan f depth max_digits MValue (skip_ws r2) with
                | Scanned v r3 =>
                  match skip_ws r3 with
                  | c2 :: r4 =>
                    if c2 =? ch "," then
                      scan f depth max_digits (MMembers (dict_set k v acc))
                           (skip_ws r4)
                    else if c2 =? ch "}"
                    then Scanned (PDict (dict_set k v acc)) r4
                    else BadSyntax
                  | [] => BadSyntax
                  end
                | stop => stop
                end
              else BadSyntax
            | [] => BadSyntax
            end
          end
        else BadSyntax
      | [] => BadSyntax
      end
    end
  end.

(** ** Operations of the Python runtime the worker relies on *)

(** Every exception below is a subclass of Python's [Exception]. *)
Inductive exn : Type :=
| UnicodeDecodeError
| JSONDecodeError
| AttributeError
| TypeError
| KeyError (k : str)
| InvalidId
| ConnectionError      (* raised by the Redis client *)
| PyMongoError         (* raised by the MongoDB client *)
| UnboundLocalError
| UnicodeEncodeError
| RecursionError
| ValueError
| PipelineError (msg : str).

Definition is_JSONDecodeError (e : exn) : bool :=
  match e with JSONDecodeError => true | _ => false end.

(** What a call that touches nothing but its arguments comes back with. *)
Inductive result (A : Type) : Type :=
| Ok (a : A)
| Raise (e : exn).
Arguments Ok {A} a.
Arguments Raise {A} e.

Definition rbind {A B} (r : result A) (k : A -> result B) : result B :=
  match r with
  | Ok a => k a
  | Raise e => Raise e
  end.

Fixpoint rmap {A B} (f : A -> result B) (l : list A) : result (list B) :=
  match l with
  | [] => Ok []
  | a :: l' => rbind (f a) (fun b => rbind (rmap f l') (fun bs => Ok (b :: bs)))
  end.

(** [v.get(k, default)]: only a dict has the method. *)
Definition py_get (v : pyval) (k : str) (default : pyval) : result pyval :=
  match v with
  | PDict d => Ok (match dict_get k d with Some x => x | None => default end)
  | _ => Raise AttributeError
  end.

(** [v[k]] with a string key. *)
Definition py_subscript (v : pyval) (k : str) : result pyval :=
  match v with
  | PDict d => match dict_get k d with Some x => Ok x | None => Raise (KeyError k) end
  | _ => Raise TypeError
  end.

(** [for x in v]. *)
Definition py_iter (v : pyval) : result (list pyval) :=
  match v with
  | PList l => Ok l
  | PDict d => Ok (map (fun kv => PStr (fst kv)) d)
  | PStr s => Ok (map (fun c => PStr [c]) s)
  | _ => Raise TypeError
  end.

(** [v[:10]]. *)
Definition py_slice10 (v : pyval) : result pyval :=
  match v with
  | PList l => Ok (PList (firstn 10 l))
  | PStr s => Ok (PStr (firstn 10 s))
  | _ => Raise TypeError
  end.

Fixpoint mantissa (s : str) : str :=
  match s with
  | c :: r => if (c =? ch "e") || (c =? ch "E") then [] else c :: mantissa r
  | [] => []
  end.

Definition py_truthy (v : pyval) : bool :=
  match v with
  | PNone => false
  | PBool b => b
  | PInt z => negb (z =? 0)
  | PFloat l => negb (forallb (fun c => negb (is_digit c) || (c =? 48)) (mantissa l))
                || negb (existsb is_digit l)
  | PStr s => match s with [] => false | _ => true end
  | PList l => match l with [] => false | _ => true end
  | PDict d => match d with [] => false | _ => true end
  | PObjectId _ => true
  | PDatetime _ => true
  end.

(** A code point that UTF-8 has no encoding for. *)
Definition is_surrogate (c : Z) : bool := (0xD800 <=? c) && (c <=? 0xDFFF).

(** Whether what an f-string makes of [v] can be written to standard
    output, which encodes to UTF-8.  A [str] is formatted as it is, so it
    cannot when it holds a lone surrogate; every other value is formatted
    through [repr], which writes such a code point as an escape. *)
Definition prints (v : pyval) : bool :=
  match v with
  | PStr s => negb (existsb is_surrogate s)
  | _ => true
  end.

(** [print(f"... {v1} ... {v2} ...")], the rest of the line being fixed
    text. *)
Definition py_print (vs : list pyval) : result unit :=
  if forallb prints vs then Ok tt else Raise UnicodeEncodeError.

Definition is_ObjectId (v : pyval) : bool :=
  match v with PObjectId _ => true | _ => false end.

Definition is_hex (c : Z) : bool :=
  match hex_val c with Some _ => true | None => false end.

Definition lower (c : Z) : Z := if (65 <=? c) && (c <=? 90) then c + 32 else c.

Definition decimal (z : Z) : str := lit (DecimalString.NilZero.string_of_int (Z.to_int z)).

(** ** The collaborators outside the worker

    [core.preprocessing], [core.skill_similarity] and [core.resource_ranker]
    are called through four entry points and are not part of the worker;
    any of them may raise.  [py_repr] is Python's [repr] of the values whose
    [str] is not one of the simple cases of [py_str].  The interpreter
    brings its two limits: [json_max_depth], how many arrays and objects deep
    [json.loads] gets, from where the loop calls it, before the recursion
    limit stops it, and [int_max_str_digits], the value of
    [sys.get_int_max_str_digits()]. *)

Class Externals : Type := {
  json_max_depth : nat;
  int_max_str_digits : nat;
  py_repr : pyval -> str;
  create_skill_mapping : list dict -> result pyval;
  build_similarity_matrix : list dict -> result pyval;
  prepare_resource_features : list dict -> result pyval;
  rank_resources :
    list dict -> pyval -> list pyval -> pyval -> pyval -> pyval -> result pyval
}.

(** ** The Redis lists and the MongoDB collections *)

Record redis : Type := {
  main_q : list bytes;        (* recommendation_queue, head = left *)
  proc_q : list bytes;        (* recommendation_queue:processing *)
  redis_faults : list bool    (* whether the next calls fail to reach the broker *)
}.

Inductive collection : Type := Users | Idps | Skills | Resources.

Record mongo : Type := {
  users : list dict;
  idps : list dict;
  skills : list dict;
  resources : list dict;
  mongo_faults : list bool    (* whether the next calls fail to reach the store *)
}.

Record world : Type := {
  broker : redis;
  store : mongo;
  fresh_oids : list oid;      (* the ids [ObjectId()] will generate next *)
  clock : Z;                  (* what the next reading of the clock gives *)
  time_passes : list Z;       (* how far the clock moves on after each of the
                                 next readings *)
  job_json_bytes : option bytes   (* the loop's local variable; [None]: unbound *)
}.

Definition with_broker (r : redis) (w : world) : world :=
  {| broker := r; store := store w; fresh_oids := fresh_oids w;
     clock := clock w; time_passes := time_passes w;
     job_json_bytes := job_json_bytes w |}.
Definition with_store (m : mongo) (w : world) : world :=
  {| broker := broker w; store := m; fresh_oids := fresh_oids w;
     clock := clock w; time_passes := time_passes w;
     job_json_bytes := job_json_bytes w |}.
Definition with_fresh (l : list oid) (w : world) : world :=
  {| broker := broker w; store := store w; fresh_oids := l;
     clock := clock w; time_passes := time_passes w;
     job_json_bytes := job_json_bytes w |}.
Definition with_clock (t : Z) (w : world) : world :=
  {| broker := broker w; store := store w; fresh_oids := fresh_oids w;
     clock := t; time_passes := time_passes w;
     job_json_bytes := job_json_bytes w |}.
Definition with_time (t : Z) (l : list Z) (w : world) : world :=
  {| broker := broker w; store := store w; fresh_oids := fresh_oids w;
     clock := t; time_passes := l; job_json_bytes := job_json_bytes w |}.
Definition with_var (b : option bytes) (w : world) : world :=
  {| broker := broker w; store := store w; fresh_oids := fresh_oids w;
     clock := clock w; time_passes := time_passes w; job_json_bytes := b |}.

(** What an outside observer can see happen, each with the two queues as they
    are right after it. *)
Inductive event : Type :=
| EvBrpoplpush (x : bytes)
| EvLrem (value : bytes) (removed : nat)
| EvFindOne (c : collection) (id : oid) (found : pyval)
| EvFind (c : collection)
| EvUpdateOne (id : oid) (fields : dict) (matched : bool)
| EvSleep (seconds : Z).

Record obs : Type := { ev : event; seen_main : list bytes; seen_proc : list bytes }.

Definition trace := list obs.

(** ** The monad of the worker: state, exceptions, and the trace *)

(** How a call of the worker ends: it returns, it raises, or (the blocking
    dequeue only) it never comes back. *)
Inductive outcome (A : Type) : Type :=
| Returned (a : A)
| Raised (e : exn)
| Blocked.
Arguments Returned {A} a.
Arguments Raised {A} e.
Arguments Blocked {A}.

Definition M (A : Type) : Type := world -> outcome A * world * trace.

Definition ret {A} (a : A) : M A := fun w => (Returned a, w, []).

Definition bind {A B} (m : M A) (k : A -> M B) : M B :=
  fun w =>
    match m w with
    | (Returned a, w1, t1) => let '(r, w2, t2) := k a w1 in (r, w2, t1 ++ t2)
    | (Raised e, w1, t1) => (Raised e, w1, t1)
    | (Blocked, w1, t1) => (Blocked, w1, t1)
    end.

Notation "x <- m ;; k" := (bind m (fun x => k))
  (at level 61, m at next level, right associativity).
Notation "m ;;; k" := (bind m (fun _ => k))
  (at level 61, right associativity).

Definition lift {A} (r : result A) : M A :=
  fun w => (match r with Ok a => Returned a | Raise e => Raised e end, w, []).

Definition of_option {A} (e : exn) (o : option A) : result A :=
  match o with Some a => Ok a | None => Raise e end.

(** [try: m  except Exception as e: h e]. *)
Definition try_except {A} (m : M A) (h : exn -> M A) : M A :=
  fun w =>
    match m w with
    | (Raised e, w1, t1) => let '(r, w2, t2) := h e w1 in (r, w2, t1 ++ t2)
    | other => other
    end.

(** *** Redis *)

(** One call to the broker: it fails when the head of the fault script says
    so. *)
Definition redis_call : M unit :=
  fun w =>
    match redis_faults (broker w) with
    | true :: fs =>
      (Raised ConnectionError,
       with_broker {| main_q := main_q (broker w); proc_q := proc_q (broker w);
                      redis_faults := fs |} w, [])
    | false :: fs =>
      (Returned tt,
       with_broker {| main_q := main_q (broker w); proc_q := proc_q (broker w);
                      redis_faults := fs |} w, [])
    | [] => (Returned tt, w, [])
    end.

(** The right end of a list. *)
Fixpoint rpop (l : list bytes) : option (list bytes * bytes) :=
  match l with
  | [] => None
  | x :: l' =>
    match rpop l' with
    | None => Some ([], x)
    | Some (r, y) => Some (x :: r, y)
    end
  end.

(** [brpoplpush(QUEUE_NAME, PROCESSING_QUEUE, timeout=0)]: one command of the
    broker; on an empty queue it waits for ever. *)
Definition brpoplpush : M bytes :=
  redis_call ;;;
  fun w =>
    match rpop (main_q (broker w)) with
    | None => (Blocked, w, [])
    | Some (rest, x) =>
      let w' := with_broker {| main_q := rest; proc_q := x :: proc_q (broker w);
                               redis_faults := redis_faults (broker w) |} w in
      (Returned x, w', [{| ev := EvBrpoplpush x; seen_main := rest;
                     seen_proc := x :: proc_q (broker w) |}])
    end.

Fixpoint remove_first (x : bytes) (l : list bytes) : option (list bytes) :=
  match l with
  | [] => None
  | y :: l' =>
    if String.eqb x y then Some l'
    else match remove_first x l' with
         | Some r => Some (y :: r)
         | None => None
         end
  end.

(** [lrem(PROCESSING_QUEUE, 1, value)]: the first occurrence from the left. *)
Definition lrem (value : bytes) : M unit :=
  redis_call ;;;
  fun w =>
    match remove_first value (proc_q (broker w)) with
    | Some p' =>
      let w' := with_broker {| main_q := main_q (broker w); proc_q := p';
                               redis_faults := redis_faults (broker w) |} w in
      (Returned tt, w', [{| ev := EvLrem value 1; seen_main := main_q (broker w);
                      seen_proc := p' |}])
    | None =>
      (Returned tt, w, [{| ev := EvLrem value 0; seen_main := main_q (broker w);
                     seen_proc := proc_q (broker w) |}])
    end.

(** *** MongoDB *)

Definition mongo_call : M unit :=
  fun w =>
    let m := store w in
    match mongo_faults m with
    | true :: fs =>
      (Raised PyMongoError,
       with_store {| users := users m; idps := idps m; skills := skills m;
                     resources := resources m; mongo_faults := fs |} w, [])
    | false :: fs =>
      (Returned tt,
       with_store {| users := users m; idps := idps m; skills := skills m;
                     resources := resources m; mongo_faults := fs |} w, [])
    | [] => (Returned tt, w, [])
    end.

Definition coll (c : collection) (m : mongo) : list dict :=
  match c with
  | Users => users m
  | Idps => idps m
  | Skills => skills m
  | Resources => resources m
  end.

Definition id_is (o : oid) (d : dict) : bool :=
  match dict_get (lit "_id") d with
  | Some (PObjectId o') => str_eqb o' o
  | _ => false
  end.

(** [db.<c>.find_one({"_id": o})]: the document, or [None]. *)
Definition find_one (c : collection) (o : oid) : M pyval :=
  mongo_call ;;;
  fun w =>
    let r := match find (id_is o) (coll c (store w)) with
             | Some d => PDict d
             | None => PNone
             end in
    (Returned r, w, [{| ev := EvFindOne c o r; seen_main := main_q (broker w);
                  seen_proc := proc_q (broker w) |}]).

(** [list(db.<c>.find({}))]. *)
Definition find_all (c : collection) : M (list dict) :=
  mongo_call ;;;
  fun w => (Returned (coll c (store w)), w,
            [{| ev := EvFind c; seen_main := main_q (broker w);
                seen_proc := proc_q (broker w) |}]).

Definition apply_set (fields : dict) (d : dict) : dict :=
  fold_left (fun acc kv => dict_set (fst kv) (snd kv) acc) fields d.

Fixpoint update_first (o : oid) (fields : dict) (l : list dict)
  : option (list dict) :=
  match l with
  | [] => None
  | d :: l' =>
    if id_is o d then Some (apply_set fields d :: l')
    else match update_first o fields l' with
         | Some r => Some (d :: r)
         | None => None
         end
  end.

(** [db.idps.update_one({"_id": o}, {"$set": fields})]: one write. *)
Definition idps_update_one (o : oid) (fields : dict) : M unit :=
  mongo_call ;;;
  fun w =>
    let m := store w in
    match update_first o fields (idps m) with
    | Some l =>
      (Returned tt,
       with_store {| users := users m; idps := l; skills := skills m;
                     resources := resources m; mongo_faults := mongo_faults m |} w,
       [{| ev := EvUpdateOne o fields true; seen_main := main_q (broker w);
           seen_proc := proc_q (broker w) |}])
    | None =>
      (Returned tt, w, [{| ev := EvUpdateOne o fields false; seen_main := main_q (broker w);
                     seen_proc := proc_q (broker w) |}])
    end.

Definition zero_oid : oid := repeat 48 24.

(** The ids a producer is meant to send: 24 hex digits. *)
Definition valid_oid (s : str) : bool :=
  (Z.of_nat (List.length s) =? 24) && forallb is_hex s.

(** ASCII whitespace, as [bytes.fromhex] sees it. *)
Definition is_space (c : Z) : bool := (c =? 32) || ((9 <=? c) && (c <=? 13)).

Fixpoint skip_spaces (s : str) : str :=
  match s with
  | c :: r => if is_space c then skip_spaces r else s
  | [] => []
  end.

(** [bytes.fromhex(s).hex()], as of Python 3.7: two hex digits per byte,
    whitespace allowed between bytes and at both ends; [None] stands for
    [ValueError]. *)
Fixpoint fromhex (fuel : nat) (s : str) : option str :=
  match fuel with
  | O => None
  | S f =>
    match skip_spaces s with
    | [] => Some []
    | a :: b :: r =>
      if is_hex a && is_hex b
      then option_map (fun t => lower a :: lower b :: t) (fromhex f r)
      else None
    | [_] => None
    end
  end.

(** The id [ObjectId(s)] holds for a [str]: [s] must have 24 characters and
    go through [bytes.fromhex]. *)
Definition oid_of_str (s : str) : option oid :=
  if Z.of_nat (List.length s) =? 24 then fromhex (S (List.length s)) s else None.

(** [ObjectId(v)]: a fresh id for [None], the id of the bytes a 24-character
    string spells, [InvalidId] for any other string, [TypeError] for any
    other value. *)
Definition ObjectId (v : pyval) : M oid :=
  fun w =>
    match v with
    | PNone =>
      match fresh_oids w with
      | o :: l => (Returned o, with_fresh l w, [])
      | [] => (Returned zero_oid, w, [])
      end
    | PStr s =>
      match oid_of_str s with
      | Some o => (Returned o, w, [])
      | None => (Raised InvalidId, w, [])
      end
    | PObjectId o => (Returned o, w, [])
    | _ => (Raised TypeError, w, [])
    end.

(** [datetime.datetime.utcnow()]: a reading of the clock, after which time
    moves on. *)
Definition utcnow : M pyval :=
  fun w =>
    (Returned (PDatetime (clock w)),
     with_time (clock w + hd 0 (time_passes w)) (tl (time_passes w)) w, []).

(** [time.sleep(n)]. *)
Definition sleep (n : Z) : M unit :=
  fun w => (Returned tt, with_clock (clock w + n) w,
            [{| ev := EvSleep n; seen_main := main_q (broker w);
                seen_proc := proc_q (broker w) |}]).

(** ** [process_job] and the loop of [start_worker]

    Of the [print] calls, the two that format the ids of the job are kept:
    they raise on an id that cannot be written.  The others write fixed text,
    a number, the message of an exception, or ([Job completed for IDP], once
    the update is done) an id that has been printed before; they and the
    [time.time()] readings that only feed them are left out. *)

Notation "'let*' x ':=' m 'in' k" := (rbind m (fun x => k))
  (at level 10, x name, m at level 100, k at level 200).

Section Worker.

Context {E : Externals}.

(** [str(v)]. *)
Definition py_str (v : pyval) : str :=
  match v with
  | PStr s => s
  | PNone => lit "None"
  | PBool true => lit "True"
  | PBool false => lit "False"
  | PInt z => decimal z
  | PObjectId o => o
  | other => py_repr other
  end.

(** [{str(skill['_id']): skill for skill in all_skills}]. *)
Definition build_skill_map (all_skills : list dict) : result dict :=
  fold_left
    (fun acc skill =>
       let* m := acc in
       let* i := py_subscript (PDict skill) (lit "_id") in
       Ok (dict_set (py_str i) (PDict skill) m))
    all_skills (Ok []).

(** The body of [for resource in all_resources]. *)
Definition enrich_resource (skill_map : dict) (resource : dict) : dict :=
  let skill_ref :=
    match dict_get (lit "skill") resource with Some v => v | None => PNone end in
  if py_truthy skill_ref && is_ObjectId skill_ref then
    let skill_id_str := py_str skill_ref in
    match dict_get skill_id_str skill_map with
    | Some skill => dict_set (lit "skill") skill resource
    | None => resource
    end
  else resource.

(** The entry appended to [skills_to_improve] for one goal. *)
Definition skill_gap (goal : pyval) : result pyval :=
  let* sk := py_get goal (lit "skill") PNone in
  Ok (PDict [ (lit "skillId", PStr (py_str sk));
              (lit "gap", PFloat (lit "0.5"));
              (lit "currentLevel", PInt 1);
              (lit "targetLevel", PInt 5) ]).

(** The entry appended to [formatted_recs] for one ranked item. *)
Definition format_rec (item : pyval) : result pyval :=
  let* res := py_subscript item (lit "resource") in
  let* rid := py_subscript res (lit "_id") in
  let* score := py_subscript item (lit "score") in
  let* breakdown := py_subscript item (lit "breakdown") in
  let* reason :=
    py_get breakdown (lit "reason")
           (PStr (lit "Recommended based on your goals")) in
  Ok (PDict [ (lit "resource", rid); (lit "score", score); (lit "reason", reason) ]).

Definition process_job_body (job_data : pyval) : M unit :=
  user_id <- lift (py_get job_data (lit "userId") PNone) ;;
  idp_id <- lift (py_get job_data (lit "idpId") PNone) ;;
  lift (py_print [user_id; idp_id]) ;;;
  (* 1. Fetch Data *)
  uo <- ObjectId user_id ;;
  user <- find_one Users uo ;;
  io <- ObjectId idp_id ;;
  idp <- find_one Idps io ;;
  all_skills <- find_all Skills ;;
  all_resources <- find_all Resources ;;
  skill_map <- lift (build_skill_map all_skills) ;;
  let all_resources := map (enrich_resource skill_map) all_resources in
  if negb (py_truthy user) || negb (py_truthy idp) then ret tt
  else
    (* 2. Prepare Inputs *)
    user_skills <- lift (py_get user (lit "skills") (PList [])) ;;
    goals <- lift (py_get idp (lit "goals") (PList [])) ;;
    goals <- lift (py_iter goals) ;;
    skills_to_improve <- lift (rmap skill_gap goals) ;;
    (* 3. Run Recommendation Pipeline *)
    skill_mapping <- lift (create_skill_mapping all_skills) ;;
    similarity_matrix <- lift (build_similarity_matrix all_skills) ;;
    resource_features <- lift (prepare_resource_features all_resources) ;;
    ranked_resources <-
      lift (rank_resources all_resources user_skills skills_to_improve
              resource_features similarity_matrix skill_mapping) ;;
    (* 4. Format and Update IDP *)
    top_recommendations <- lift (py_slice10 ranked_resources) ;;
    items <- lift (py_iter top_recommendations) ;;
    formatted_recs <- lift (rmap format_rec items) ;;
    io' <- ObjectId idp_id ;;
    now <- utcnow ;;
    idps_update_one io'
      [ (lit "suggestedResources", PList formatted_recs);
        (lit "status", PStr (lit "active"));
        (lit "updatedAt", now) ].

Definition process_job (job_data : pyval) : M unit :=
  try_except (process_job_body job_data) (fun _ => ret tt).

(** [json.loads(s)], under the limits of the interpreter. *)
Definition json_loads (s : str) : result pyval :=
  match scan (2 * List.length s + 2) json_max_depth int_max_str_digits
             MValue (skip_ws s) with
  | Scanned v r =>
    match skip_ws r with [] => Ok v | _ => Raise JSONDecodeError end
  | BadSyntax => Raise JSONDecodeError
  | OverLimit TooDeep => Raise RecursionError
  | OverLimit TooManyDigits => Raise ValueError
  end.

(** The body of [if job_json_bytes:]. *)
Definition staged (x : bytes) : M unit :=
  job_json <- lift (of_option UnicodeDecodeError (utf8_decode x)) ;;
  job <- lift (json_loads job_json) ;;
  data <- lift (py_get job (lit "data") (PDict [])) ;;
  user_id <- lift (py_get data (lit "userId") (PStr (lit "unknown"))) ;;
  data <- lift (py_get job (lit "data") (PDict [])) ;;
  idp_id <- lift (py_get data (lit "idpId") (PStr (lit "unknown"))) ;;
  lift (py_print [user_id; idp_id]) ;;;
  job_data <- lift (py_get job (lit "data") PNone) ;;
  process_job job_data ;;;
  lrem (utf8_encode job_json).

Definition assign_job_json_bytes (x : bytes) : M unit :=
  fun w => (Returned tt, with_var (Some x) w, []).

Definition try_block : M unit :=
  x <- brpoplpush ;;
  assign_job_json_bytes x ;;;
  match x with
  | EmptyString => ret tt
  | _ => staged x
  end.

(** The handler of [json.JSONDecodeError]. *)
Definition purge : M unit :=
  try_except
    (fun w =>
       match job_json_bytes w with
       | None => (Raised UnboundLocalError, w, [])
       | Some b =>
         (s <- lift (of_option UnicodeDecodeError (utf8_decode b)) ;;
          lrem (utf8_encode s)) w
       end)
    (fun _ => ret tt).

(** One turn of [while True]. *)
Definition iteration : M unit :=
  try_except try_block
    (fun e => if is_JSONDecodeError e then purge else sleep 1).

(** The first [n] turns of the loop. *)
Fixpoint start_worker (n : nat) : M unit :=
  match n with
  | O => ret tt
  | S k => iteration ;;; start_worker k
  end.

End Worker.

(** ** The ranking pipeline, as far as the worker depends on it *)

Definition entry_score (v : pyval) : pyval :=
  match v with
  | PDict d => match dict_get (lit "score") d with Some x => x | None => PNone end
  | _ => PNone
  end.

(** One item of the ranked sequence: a dict holding one of the resources
    handed in, a score, and a breakdown dict. *)
Definition ranked_item (all_resources : list dict) (item : pyval) : Prop :=
  exists d res score breakdown,
    item = PDict d /\
    dict_get (lit "resource") d = Some (PDict res) /\ In res all_resources /\
    dict_get (lit "score") d = Some score /\
    dict_get (lit "breakdown") d = Some (PDict breakdown).

(** Modelled from the spec: the Ranking Pipeline Adapter ([core.preprocessing],
    [core.skill_similarity], [core.resource_ranker]), whose code is outside the
    worker.  Its three preparation steps return a value, and [rank] returns an
    ordered sequence of [{resource, score, breakdown}] over the resources it
    was given, highest score first; [score_ge] is the order on scores. *)
Record adapter_contract (E : Externals) (score_ge : pyval -> pyval -> Prop)
  : Prop := {
  mapping_returns : forall sk, exists v, create_skill_mapping sk = Ok v;
  matrix_returns : forall sk, exists v, build_similarity_matrix sk = Ok v;
  features_return : forall rs, exists v, prepare_resource_features rs = Ok v;
  rank_returns :
    forall rs us gaps feats mat idx,
    exists items,
      rank_resources rs us gaps feats mat idx = Ok (PList items) /\
      Forall (ranked_item rs) items /\
      Sorted score_ge (map entry_score items)
}.

(** *** A small adapter to run the worker on

    It scores a resource 1 when its skill is one of the goals' skills and 0
    otherwise, and lists the resources that score 1 first. *)

Definition join (sep : str) (l : list str) : str :=
  match l with
  | [] => []
  | x :: l' => x ++ flat_map (fun y => sep ++ y) l'
  end.

Fixpoint sample_repr (v : pyval) : str :=
  match v with
  | PNone => lit "None"
  | PBool true => lit "True"
  | PBool false => lit "False"
  | PInt z => decimal z
  | PFloat l => l
  | PStr s => lit "'" ++ s ++ lit "'"
  | PList l => lit "[" ++ join (lit ", ") (map sample_repr l) ++ lit "]"
  | PDict d =>
    lit "{" ++
    join (lit ", ")
      ((fix go (d : list (str * pyval)) : list str :=
          match d with
          | [] => []
          | (k, x) :: d' => (lit "'" ++ k ++ lit "': " ++ sample_repr x) :: go d'
          end) d) ++
    lit "}"
  | PObjectId o => lit "ObjectId('" ++ o ++ lit "')"
  | PDatetime t => lit "datetime.datetime(" ++ decimal t ++ lit ")"
  end.

Definition sample_str (v : pyval) : str :=
  match v with
  | PStr s => s
  | PObjectId o => o
  | other => sample_repr other
  end.

Definition skill_of (r : dict) : str :=
  match dict_get (lit "skill") r with
  | Some (PDict sk) =>
    match dict_get (lit "_id") sk with Some i => sample_str i | None => [] end
  | Some v => sample_str v
  | None => []
  end.

Definition wanted (gaps : list pyval) (r : dict) : bool :=
  existsb (fun g => match g with
                    | PDict gd =>
                      match dict_get (lit "skillId") gd with
                      | Some (PStr k) => str_eqb k (skill_of r)
                      | _ => false
                      end
                    | _ => false
                    end) gaps.

Definition sample_rank (rs : list dict) (us : pyval) (gaps : list pyval)
  (feats mat idx : pyval) : result pyval :=
  Ok (PList
        (map (fun r => PDict [ (lit "resource", PDict r); (lit "score", PInt 1);
                               (lit "breakdown",
                                PDict [(lit "reason", PStr (lit "Matches a goal"))]) ])
             (filter (wanted gaps) rs) ++
         map (fun r => PDict [ (lit "resource", PDict r); (lit "score", PInt 0);
                               (lit "breakdown", PDict []) ])
             (filter (fun r => negb (wanted gaps r)) rs))).

(** The limits are those of CPython 3.11 as it starts. *)
Definition sample_externals : Externals := {|
  json_max_depth := 994;
  int_max_str_digits := 4300;
  py_repr := sample_repr;
  create_skill_mapping := fun sk => Ok (PInt (Z.of_nat (List.length sk)));
  build_similarity_matrix := fun sk => Ok (PList []);
  prepare_resource_features := fun rs => Ok (PList []);
  rank_resources := sample_rank
|}.

(** The order on the scores the small adapter hands out. *)
Definition int_ge (a b : pyval) : Prop :=
  match a, b with
  | PInt x, PInt y => y <= x
  | _, _ => False
  end.

(** *** A small store and a few payloads *)

(** A payload written with ['] where the bytes have the double quote. *)
Definition dq (b : bytes) : bytes :=
  string_of_list_ascii
    (map (fun a => if Ascii.eqb a "'" then ascii_of_nat 34 else a)
         (list_ascii_of_string b)).

Definition u1 : oid := lit "507f1f77bcf86cd799439011".
Definition i1 : oid := lit "507f1f77bcf86cd799439012".
Definition s1 : oid := lit "507f1f77bcf86cd7994390a1".
Definition s2 : oid := lit "507f1f77bcf86cd7994390a2".
Definition r1 : oid := lit "507f1f77bcf86cd7994390b1".
Definition r2 : oid := lit "507f1f77bcf86cd7994390b2".

Definition sample_user : dict :=
  [ (lit "_id", PObjectId u1);
    (lit "skills", PList [PDict [ (lit "skillId", PObjectId s1);
                                  (lit "level", PInt 2) ]]) ].

Definition sample_idp : dict :=
  [ (lit "_id", PObjectId i1);
    (lit "goals", PList [PDict [ (lit "skill", PObjectId s1);
                                 (lit "gap", PFloat (lit "0.9"));
                                 (lit "currentLevel", PInt 3);
                                 (lit "targetLevel", PInt 4) ]]);
    (lit "status", PStr (lit "draft")) ].

Definition sample_store : mongo := {|
  users := [ sample_user ];
  idps := [ sample_idp ];
  skills := [ [ (lit "_id", PObjectId s1); (lit "name", PStr (lit "Python")) ];
              [ (lit "_id", PObjectId s2); (lit "name", PStr (lit "Go")) ] ];
  resources := [ [ (lit "_id", PObjectId r2); (lit "title", PStr (lit "Go tour"));
                   (lit "skill", PObjectId s2) ];
                 [ (lit "_id", PObjectId r1); (lit "title", PStr (lit "Python 101"));
                   (lit "skill", PObjectId s1) ] ];
  mongo_faults := []
|}.

Definition good_job_data : dict :=
  [ (lit "userId", PStr u1); (lit "idpId", PStr i1) ].

Definition good_job : bytes :=
  dq "{'data': {'userId': '507f1f77bcf86cd799439011', 'idpId': '507f1f77bcf86cd799439012'}}".

(** A job whose IDP is not in the store. *)
Definition missing_idp_job : bytes :=
  dq "{'data': {'userId': '507f1f77bcf86cd799439011', 'idpId': '507f1f77bcf86cd799439099'}}".

Definition sample_world (main proc : list bytes) : world := {|
  broker := {| main_q := main; proc_q := proc; redis_faults := [] |};
  store := sample_store;
  fresh_oids := [];
  clock := 1700000000;
  time_passes := [7];
  job_json_bytes := None
|}.


(** ** Vocabulary of the properties *)

Definition is_lrem (e : event) : bool :=
  match e with EvLrem _ _ => true | _ => false end.

Definition is_update (e : event) : bool :=
  match e with EvUpdateOne _ _ _ => true | _ => false end.

Definition is_broker_event (e : event) : bool :=
  match e with EvBrpoplpush _ | EvLrem _ _ => true | _ => false end.

(** A lookup by id that came back with no record. *)
Definition empty_lookup (e : event) : bool :=
  match e with EvFindOne _ _ PNone => true | _ => false end.

(** The two queues as an observation shows them. *)
Definition sees (main proc : list bytes) (o : obs) : Prop :=
  seen_main o = main /\ seen_proc o = proc.

Definition same_docs (m m' : mongo) : Prop :=
  users m' = users m /\ idps m' = idps m /\
  skills m' = skills m /\ resources m' = resources m.

(** A computation that talks to the store only: it comes back, and leaves the
    broker and the loop's variable as they were. *)
Definition store_side {A} (m : M A) : Prop :=
  forall w o w' t,
    m w = (o, w', t) ->
    o <> Blocked /\ broker w' = broker w /\
    job_json_bytes w' = job_json_bytes w /\
    Forall (fun ob => sees (main_q (broker w)) (proc_q (broker w)) ob /\
                      is_broker_event (ev ob) = false) t.

Definition is_dict (v : pyval) : bool :=
  match v with PDict _ => true | _ => false end.

(** The two ids of a job as the loop logs them. *)
Definition logged_ids (job : dict) : list pyval :=
  let data := match dict_get (lit "data") job with
              | Some (PDict d) => d
              | _ => []
              end in
  [ match dict_get (lit "userId") data with
    | Some v => v
    | None => PStr (lit "unknown")
    end;
    match dict_get (lit "idpId") data with
    | Some v => v
    | None => PStr (lit "unknown")
    end ].

(** What [job.get('data')] hands to [process_job]. *)
Definition job_data_of (job : dict) : pyval :=
  match dict_get (lit "data") job with Some v => v | None => PNone end.

(** What the dequeue of [x] shows, and what its acknowledgment shows. *)
Definition pop_obs (x : bytes) (rest p : list bytes) : obs :=
  {| ev := EvBrpoplpush x; seen_main := rest; seen_proc := x :: p |}.

Definition ack_obs (x : bytes) (rest p : list bytes) : obs :=
  {| ev := EvLrem x 1; seen_main := rest; seen_proc := p |}.

(** An observation made while [x] is staged: both queues as the dequeue left
    them, and no command sent to the broker. *)
Definition staged_view (x : bytes) (rest p : list bytes) (o : obs) : Prop :=
  sees rest (x :: p) o /\ is_broker_event (ev o) = false.

(** How the staged part of a turn can end, from a world [w] whose
    processing buffer is [x :: p]: observations that leave [x] staged, then
    either the acknowledgment of [x], or an exception and no
    acknowledgment. *)
Definition staged_post (x : bytes) (p : list bytes) (w : world)
  (r : outcome unit * world * trace) : Prop :=
  exists o w' mid fin,
    r = (o, w', mid ++ fin) /\
    Forall (staged_view x (main_q (broker w)) p) mid /\
    main_q (broker w') = main_q (broker w) /\
    job_json_bytes w' = job_json_bytes w /\
    ((o = Returned tt /\ fin = [ack_obs x (main_q (broker w)) p] /\
      proc_q (broker w') = p) \/
     (exists e, o = Raised e /\ fin = [] /\ proc_q (broker w') = x :: p /\
        (is_JSONDecodeError e = true ->
           w' = w /\ mid = [] /\ exists s, utf8_decode x = Some s))).

(** How a turn ends when the dequeue has moved [x] from [rest ++ [x]] onto
    [p]: it comes back to the head of the loop; everything seen between the
    dequeue and the end of the turn, but for a closing acknowledgment, shows
    [x] staged; and [x] is gone from the processing buffer only if the turn
    closed with its acknowledgment. *)
Definition turn_post (x : bytes) (rest p : list bytes)
  (r : outcome unit * world * trace) : Prop :=
  exists w' mid fin,
    r = (Returned tt, w', pop_obs x rest p :: mid ++ fin) /\
    Forall (staged_view x rest p) mid /\
    main_q (broker w') = rest /\
    ((fin = [] /\ proc_q (broker w') = x :: p) \/
     (fin = [ack_obs x rest p] /\ proc_q (broker w') = p)).

Definition sleep_obs (n : Z) (w : world) : obs :=
  {| ev := EvSleep n; seen_main := main_q (broker w); seen_proc := proc_q (broker w) |}.

(** A payload that is not text: the single byte 0xFF. *)
Definition not_utf8 : bytes := String (ascii_of_nat 255) EmptyString.

(** A payload that is a JSON object whose ["data"] is [null]. *)
Definition data_null : bytes := dq "{'data': null}".

(** The Skill Gap entry with the source's constants, for a goal. *)
Definition default_gap_entry {E : Externals} (goal : dict) : pyval :=
  PDict [ (lit "skillId",
           PStr (py_str (match dict_get (lit "skill") goal with
                         | Some v => v
                         | None => PNone
                         end)));
          (lit "gap", PFloat (lit "0.5"));
          (lit "currentLevel", PInt 1);
          (lit "targetLevel", PInt 5) ].

(** A goal that carries its own gap and levels. *)
Definition explicit_goal : dict :=
  [ (lit "skill", PObjectId s1);
    (lit "gap", PFloat (lit "0.9"));
    (lit "currentLevel", PInt 3);
    (lit "targetLevel", PInt 4) ].

(** The skill whose [str(_id)] is [k], if the sequence has one. *)
Definition skill_named {E : Externals} (k : str) (all_skills : list dict)
  (skill : dict) : Prop :=
  In skill all_skills /\
  exists i, dict_get (lit "_id") skill = Some i /\ py_str i = k.

(** A computation that does not write to the store. *)
Definition reads {A} (m : M A) : Prop :=
  forall w o w' t,
    m w = (o, w', t) ->
    same_docs (store w) (store w') /\
    Forall (fun ob => is_update (ev ob) = false) t.

(** A computation none of whose lookups comes back empty. *)
Definition finds {A} (m : M A) : Prop :=
  forall w o w' t,
    m w = (o, w', t) -> Forall (fun ob => empty_lookup (ev ob) = false) t.

(** A computation that writes nothing once a lookup has come back empty. *)
Definition guarded {A} (m : M A) : Prop :=
  forall w o w' t,
    m w = (o, w', t) ->
    Exists (fun ob => empty_lookup (ev ob) = true) t ->
    same_docs (store w) (store w') /\
    Forall (fun ob => is_update (ev ob) = false) t.

(** The goals of an IDP, when they are absent or a list of dicts. *)
Fixpoint all_dicts (l : list pyval) : option (list dict) :=
  match l with
  | [] => Some []
  | PDict d :: l' =>
    match all_dicts l' with Some ds => Some (d :: ds) | None => None end
  | _ :: _ => None
  end.

Definition goals_of (idp : dict) : option (list dict) :=
  match dict_get (lit "goals") idp with
  | None => Some []
  | Some (PList l) => all_dicts l
  | Some _ => None
  end.

Definition has_id (d : dict) : bool := dict_has (lit "_id") d.

(** What the ranking pipeline returns for a user and an IDP of the store:
    the ranked items, from the enriched resources, the user's skills and the
    Skill Gap entries of the IDP's goals. *)
Definition pipeline_output {E : Externals} (w : world) (user idp : dict)
  (items : list pyval) : Prop :=
  exists skill_map gs idx mat feats,
    build_skill_map (skills (store w)) = Ok skill_map /\
    goals_of idp = Some gs /\
    create_skill_mapping (skills (store w)) = Ok idx /\
    build_similarity_matrix (skills (store w)) = Ok mat /\
    prepare_resource_features
      (map (enrich_resource skill_map) (resources (store w))) = Ok feats /\
    rank_resources
      (map (enrich_resource skill_map) (resources (store w)))
      (match dict_get (lit "skills") user with Some v => v | None => PList [] end)
      (map default_gap_entry gs) feats mat idx = Ok (PList items).

(** The persisted entry for one ranked item: the id of its resource, which is
    the id of a fetched resource, its score, and its reason or the generic
    sentence. *)
Definition formatted_from (fetched : list dict) (item entry : pyval) : Prop :=
  exists d res breakdown rid score,
    item = PDict d /\
    dict_get (lit "resource") d = Some (PDict res) /\
    dict_get (lit "_id") res = Some rid /\
    (exists r0, In r0 fetched /\ dict_get (lit "_id") r0 = Some rid) /\
    dict_get (lit "score") d = Some score /\
    dict_get (lit "breakdown") d = Some (PDict breakdown) /\
    entry = PDict [ (lit "resource", rid);
                    (lit "score", score);
                    (lit "reason",
                     match dict_get (lit "reason") breakdown with
                     | Some r => r
                     | None => PStr (lit "Recommended based on your goals")
                     end) ].

(** The fields of the one update. *)
Definition result_fields (recs : list pyval) (now : Z) : dict :=
  [ (lit "suggestedResources", PList recs);
    (lit "status", PStr (lit "active"));
    (lit "updatedAt", PDatetime now) ].

(** ** Vocabulary of the further properties *)

(** The payloads a trace shows dequeued, and those it shows acknowledged, in
    the order it happened. *)
Definition pops (t : trace) : list bytes :=
  flat_map (fun ob => match ev ob with EvBrpoplpush x => [x] | _ => [] end) t.

Definition acks (t : trace) : list bytes :=
  flat_map (fun ob => match ev ob with EvLrem v (S _) => [v] | _ => [] end) t.

(** A decoded payload that gets as far as [process_job]: an object whose
    ["data"] is absent or is itself an object. *)
Definition envelope_shaped (v : pyval) : bool :=
  match v with
  | PDict job =>
    is_dict (match dict_get (lit "data") job with
             | Some d => d
             | None => PDict []
             end)
  | _ => false
  end.

(** A value [ObjectId] refuses. *)
Definition not_an_id (v : pyval) : bool :=
  match v with
  | PNone => false
  | PObjectId _ => false
  | PStr s => match oid_of_str s with Some _ => false | None => true end
  | _ => true
  end.

(** A computation that leaves a broker with no fault ahead in that state. *)
Definition keeps_broker_up {A} (m : M A) : Prop :=
  forall w o w' t,
    m w = (o, w', t) ->
    redis_faults (broker w) = [] -> redis_faults (broker w') = [].

(** A computation that writes to the store at most once, to the IDPs only,
    and then as the last thing it does there. *)
Definition writes_last {A} (m : M A) : Prop :=
  forall w o w' t,
    m w = (o, w', t) ->
    users (store w') = users (store w) /\
    skills (store w') = skills (store w) /\
    resources (store w') = resources (store w) /\
    ((idps (store w') = idps (store w) /\
      Forall (fun ob => is_update (ev ob) = false) t) \/
     ((forall e, o <> Raised e) /\
      exists t0 u,
        t = t0 ++ [u] /\ is_update (ev u) = true /\
        Forall (fun ob => is_update (ev ob) = false) t0)).

(** The three keys [process_job] sets on an IDP. *)
Definition is_result_key (k : str) : bool :=
  str_eqb k (lit "suggestedResources") || str_eqb k (lit "status")
  || str_eqb k (lit "updatedAt").

(** A job whose user id is not an ObjectId. *)
Definition bad_id_job : dict :=
  [ (lit "userId", PStr (lit "xyz")); (lit "idpId", PStr i1) ].

(** A job whose IDP is not in the store, as [process_job] receives it. *)
Definition missing_idp_data : dict :=
  [ (lit "userId", PStr u1);
    (lit "idpId", PStr (lit "507f1f77bcf86cd799439099")) ].

(** Two payloads that take [json.loads] to a limit of the interpreter: 1100
    opening brackets, and an integer of 4301 digits. *)
Definition deep_payload : bytes := string_of_list_ascii (repeat "["%char 1100).

Definition long_integer_payload : bytes :=
  string_of_list_ascii (repeat "1"%char 4301).

(** A user id of 22 hex digits and two spaces, which [ObjectId] takes. *)
Definition spaced_id : str := lit "507f1f77bcf86cd7994390  ".

(** The small world with a store that answers four calls and fails the
    fifth: the reads go through, the write does not. *)
Definition write_down_world : world :=
  with_store {| users := users sample_store; idps := idps sample_store;
                skills := skills sample_store;
                resources := resources sample_store;
                mongo_faults := [false; false; false; false; true] |}
             (sample_world [] []).

(** An IDP whose goals are titles, not objects, and the small world with it
    in place of the IDP of the small store. *)
Definition titled_idp : dict :=
  [ (lit "_id", PObjectId i1);
    (lit "goals", PList [PStr (lit "Learn Go")]);
    (lit "status", PStr (lit "draft")) ].

Definition titled_world : world :=
  with_store {| users := users sample_store; idps := [ titled_idp ];
                skills := skills sample_store;
                resources := resources sample_store;
                mongo_faults := [] |}
             (sample_world [] []).

(** The small adapter with a ranker that fails. *)
Definition failing_externals : Externals := {|
  json_max_depth := 994;
  int_max_str_digits := 4300;
  py_repr := sample_repr;
  create_skill_mapping := fun sk => Ok (PInt (Z.of_nat (List.length sk)));
  build_similarity_matrix := fun sk => Ok (PList []);
  prepare_resource_features := fun rs => Ok (PList []);
  rank_resources :=
    fun rs us gaps feats mat idx => Raise (PipelineError (lit "no model loaded"))
|}.

(** The small world with a broker that answers the next call and fails the
    one after: the dequeue goes through, the acknowledgment does not. *)
Definition ack_down_world (main proc : list bytes) : world :=
  with_broker {| main_q := main; proc_q := proc; redis_faults := [false; true] |}
              (sample_world main proc).

(** A job whose user is not in the store and whose IDP id is the lone
    surrogate U+D800, written as JSON writes it. *)
Definition surrogate_job : bytes :=
  dq "{'data': {'userId': '507f1f77bcf86cd799439099', 'idpId': '\ud800'}}".

(** The small world with a broker that fails the next call. *)
Definition down_world (main proc : list bytes) : world :=
  with_broker {| main_q := main; proc_q := proc; redis_faults := [true] |}
              (sample_world main proc).
(* ================================================================== *)
(** * Part II. Properties *)
(* ================================================================== *)

(** ** Text: decoding then encoding gives the bytes back *)

Ltac bools :=
  repeat match goal with
         | H : _ && _ = true |- _ => apply andb_prop in H; destruct H
         | H : negb _ = true |- _ => apply negb_true_iff in H
         | H : _ && _ = false |- _ => apply andb_false_iff in H
         | H : (_ <=? _) = true |- _ => apply Z.leb_le in H
         | H : (_ <=? _) = false |- _ => apply Z.leb_gt in H
         | H : (_ <? _) = true |- _ => apply Z.ltb_lt in H
         | H : (_ <? _) = false |- _ => apply Z.ltb_ge in H
         | H : (_ =? _) = true |- _ => apply Z.eqb_eq in H
         | H : (_ =? _) = false |- _ => apply Z.eqb_neq in H
         end.

Ltac pick_branch :=
  repeat match goal with
         | |- context [?a <? ?b] => destruct (Z.ltb_spec a b); try lia
         end.

Lemma encode_cp1 b0 :
  (0 <=? b0) && (b0 <? 0x80) = true -> encode_cp b0 = [b0].
Proof. intros H; bools. unfold encode_cp. pick_branch. reflexivity. Qed.

Lemma encode_cp2 b0 b1 :
  ok2 b0 b1 = true -> encode_cp (cp2 b0 b1) = [b0; b1].
Proof.
  unfold ok2, is_cont; intros H; bools.
  unfold encode_cp, cp2. pick_branch.
  f_equal; [|f_equal]; Z.div_mod_to_equations; lia.
Qed.

Lemma encode_cp3 b0 b1 b2 :
  ok3 b0 b1 b2 = true -> encode_cp (cp3 b0 b1 b2) = [b0; b1; b2].
Proof.
  unfold ok3, is_cont; intros H; bools.
  unfold cp3 in *. unfold encode_cp. pick_branch.
  f_equal; [|f_equal; [|f_equal]]; Z.div_mod_to_equations; lia.
Qed.

Lemma encode_cp4 b0 b1 b2 b3 :
  ok4 b0 b1 b2 b3 = true -> encode_cp (cp4 b0 b1 b2 b3) = [b0; b1; b2; b3].
Proof.
  unfold ok4, is_cont; intros H; bools.
  unfold cp4 in *. unfold encode_cp. pick_branch.
  f_equal; [|f_equal; [|f_equal; [|f_equal]]]; Z.div_mod_to_equations; lia.
Qed.

Lemma decode_vals_encode_le (n : nat) :
  forall bs, (List.length bs <= n)%nat ->
  forall s, decode_vals bs = Some s -> flat_map encode_cp s = bs.
Proof.
  induction n as [|n IH]; intros bs Hn s Hd.
  - destruct bs; [|simpl in Hn; lia]. simpl in Hd. injection Hd as <-. reflexivity.
  - destruct bs as [|b0 r0]; [simpl in Hd; injection Hd as <-; reflexivity|].
    simpl in Hn. cbn [decode_vals] in Hd.
    destruct ((0 <=? b0) && (b0 <? 128)) eqn:H1.
    { destruct (decode_vals r0) as [t|] eqn:Hr; [|discriminate].
      injection Hd as <-. cbn [flat_map]. rewrite (encode_cp1 _ H1).
      simpl. f_equal. apply IH; [lia|assumption]. }
    destruct r0 as [|b1 r1]; [discriminate|]. simpl in Hn.
    destruct (ok2 b0 b1) eqn:H2.
    { destruct (decode_vals r1) as [t|] eqn:Hr; [|discriminate].
      injection Hd as <-. cbn [flat_map]. rewrite (encode_cp2 _ _ H2).
      simpl. do 2 f_equal. apply IH; [lia|assumption]. }
    destruct r1 as [|b2 r2]; [discriminate|]. simpl in Hn.
    destruct (ok3 b0 b1 b2) eqn:H3.
    { destruct (decode_vals r2) as [t|] eqn:Hr; [|discriminate].
      injection Hd as <-. cbn [flat_map]. rewrite (encode_cp3 _ _ _ H3).
      simpl. do 3 f_equal. apply IH; [lia|assumption]. }
    destruct r2 as [|b3 r3]; [discriminate|]. simpl in Hn.
    destruct (ok4 b0 b1 b2 b3) eqn:H4; [|discriminate].
    destruct (decode_vals r3) as [t|] eqn:Hr; [|discriminate].
    injection Hd as <-. cbn [flat_map]. rewrite (encode_cp4 _ _ _ _ H4).
    simpl. do 4 f_equal. apply IH; [lia|assumption].
Qed.

Lemma byte_of_val (a : ascii) : byte_of (byte_val a) = a.
Proof.
  unfold byte_of, byte_val. rewrite N2Z.id. apply ascii_N_embedding.
Qed.

Lemma bytes_of_vals (l : list ascii) : map byte_of (map byte_val l) = l.
Proof.
  induction l as [|a l IH]; simpl; [reflexivity|].
  rewrite byte_of_val, IH. reflexivity.
Qed.

(** What [decode('utf-8')] accepts, [encode('utf-8')] writes back byte for
    byte: the text handed to [lrem] names the very bytes that were stored. *)
Lemma utf8_roundtrip (b : bytes) (s : str) :
  utf8_decode b = Some s -> utf8_encode s = b.
Proof.
  unfold utf8_decode, utf8_encode. intros H.
  rewrite (decode_vals_encode_le _ _ (le_n _) _ H).
  rewrite bytes_of_vals. apply string_of_list_ascii_of_string.
Qed.

(** ** Running the monad *)

Lemma bind_returned {A B} (m : M A) (k : A -> M B) w a w1 t1 :
  m w = (Returned a, w1, t1) ->
  bind m k w = (let '(r, w2, t2) := k a w1 in (r, w2, t1 ++ t2)).
Proof. intros H. unfold bind. rewrite H. reflexivity. Qed.

Lemma bind_raised {A B} (m : M A) (k : A -> M B) w e w1 t1 :
  m w = (Raised e, w1, t1) -> bind m k w = (Raised e, w1, t1).
Proof. intros H. unfold bind. rewrite H. reflexivity. Qed.

Lemma bind_lift_ok {A B} (r : result A) (k : A -> M B) w a :
  r = Ok a -> bind (lift r) k w = k a w.
Proof.
  intros ->. unfold bind, lift. destruct (k a w) as [[o w2] t2]. reflexivity.
Qed.

Lemma bind_lift_raise {A B} (r : result A) (k : A -> M B) w e :
  r = Raise e -> bind (lift r) k w = (Raised e, w, []).
Proof. intros ->. reflexivity. Qed.

(** ** Computations that only talk to the store *)

Lemma store_side_ret {A} (a : A) : store_side (ret a).
Proof.
  intros w o w' t H. injection H as <- <- <-.
  repeat split; [discriminate | constructor].
Qed.

Lemma store_side_lift {A} (r : result A) : store_side (lift r).
Proof.
  intros w o w' t H. unfold lift in H. injection H as <- <- <-.
  repeat split; [destruct r; discriminate | constructor].
Qed.

Lemma store_side_bind {A B} (m : M A) (k : A -> M B) :
  store_side m -> (forall a, store_side (k a)) -> store_side (bind m k).
Proof.
  intros Hm Hk w o w' t H. unfold bind in H.
  destruct (m w) as [[o1 w1] t1] eqn:E1.
  destruct (Hm _ _ _ _ E1) as (Hb & Hbr & Hv & Ht).
  destruct o1 as [a|e|]; [|injection H as <- <- <-; repeat split; auto; discriminate|congruence].
  destruct (k a w1) as [[o2 w2] t2] eqn:E2.
  injection H as <- <- <-.
  destruct (Hk _ _ _ _ _ E2) as (Hb2 & Hbr2 & Hv2 & Ht2).
  rewrite Hbr in Hbr2, Ht2. rewrite Hv in Hv2.
  repeat split; auto. apply Forall_app; split; assumption.
Qed.

Lemma store_side_try {A} (m : M A) (h : exn -> M A) :
  store_side m -> (forall e, store_side (h e)) -> store_side (try_except m h).
Proof.
  intros Hm Hh w o w' t H. unfold try_except in H.
  destruct (m w) as [[o1 w1] t1] eqn:E1.
  destruct (Hm _ _ _ _ E1) as (Hb & Hbr & Hv & Ht).
  destruct o1 as [a|e|]; [injection H as <- <- <-; repeat split; auto; discriminate| |congruence].
  destruct (h e w1) as [[o2 w2] t2] eqn:E2.
  injection H as <- <- <-.
  destruct (Hh _ _ _ _ _ E2) as (Hb2 & Hbr2 & Hv2 & Ht2).
  rewrite Hbr in Hbr2, Ht2. rewrite Hv in Hv2.
  repeat split; auto. apply Forall_app; split; assumption.
Qed.

Lemma store_side_mongo_call : store_side mongo_call.
Proof.
  intros w o w' t H. unfold mongo_call in H.
  destruct (mongo_faults (store w)) as [|[|] fs];
    injection H as <- <- <-; repeat split; try discriminate; constructor.
Qed.

Lemma store_side_find_one c o : store_side (find_one c o).
Proof.
  apply store_side_bind; [apply store_side_mongo_call|].
  intros _ w r w' t H. cbv beta zeta in H. injection H as <- <- <-.
  repeat split; [discriminate|]. repeat constructor.
Qed.

Lemma store_side_find_all c : store_side (find_all c).
Proof.
  apply store_side_bind; [apply store_side_mongo_call|].
  intros _ w r w' t H. cbv beta zeta in H. injection H as <- <- <-.
  repeat split; [discriminate|]. repeat constructor.
Qed.

Lemma store_side_update o f : store_side (idps_update_one o f).
Proof.
  apply store_side_bind; [apply store_side_mongo_call|].
  intros _ w r w' t H. cbv beta zeta in H.
  destruct (update_first o f (idps (store w))); injection H as <- <- <-;
    (repeat split; [discriminate|]; repeat constructor).
Qed.

Lemma store_side_ObjectId v : store_side (ObjectId v).
Proof.
  intros w o w' t H. unfold ObjectId in H.
  destruct v; try (injection H as <- <- <-; repeat split; [discriminate|constructor]).
  - destruct (fresh_oids w); injection H as <- <- <-;
      (repeat split; [discriminate|constructor]).
  - destruct (oid_of_str _); injection H as <- <- <-;
      (repeat split; [discriminate|constructor]).
Qed.

Lemma store_side_utcnow : store_side utcnow.
Proof.
  intros w o w' t H. injection H as <- <- <-.
  repeat split; [discriminate|constructor].
Qed.

Create HintDb store_side.

#[local] Hint Resolve store_side_ret store_side_lift store_side_mongo_call
  store_side_find_one store_side_find_all store_side_update
  store_side_ObjectId store_side_utcnow : store_side.

Ltac store_side_steps :=
  repeat first
    [ solve [auto with store_side]
    | apply store_side_bind; [solve [auto with store_side]|intros ?] ].

Section WorkerFacts.

Context {E : Externals}.

Lemma store_side_body job : store_side (process_job_body job).
Proof.
  unfold process_job_body. store_side_steps. cbv zeta.
  match goal with |- store_side (if ?c then _ else _) => destruct c end;
    store_side_steps.
Qed.

Lemma store_side_process_job job : store_side (process_job job).
Proof.
  apply store_side_try; [apply store_side_body|intros; apply store_side_ret].
Qed.

End WorkerFacts.

(** ** The two queues *)

Lemma rpop_snoc (l : list bytes) (x : bytes) : rpop (l ++ [x]) = Some (l, x).
Proof.
  induction l as [|y l IH]; simpl; [reflexivity|]. rewrite IH. reflexivity.
Qed.

Lemma rpop_none (l : list bytes) : rpop l = None -> l = [].
Proof.
  destruct l as [|y l]; [reflexivity|]. simpl.
  destruct (rpop l) as [[r z]|]; discriminate.
Qed.

Lemma rpop_some (l r : list bytes) (x : bytes) :
  rpop l = Some (r, x) -> l = r ++ [x].
Proof.
  revert r. induction l as [|y l IH]; intros r H; simpl in H; [discriminate|].
  destruct (rpop l) as [[r' z]|] eqn:El.
  - injection H as <- <-. rewrite (IH r' eq_refl). reflexivity.
  - injection H as <- <-. rewrite (rpop_none _ El). reflexivity.
Qed.

Lemma remove_first_head (x : bytes) (l : list bytes) :
  remove_first x (x :: l) = Some l.
Proof. simpl. rewrite String.eqb_refl. reflexivity. Qed.

Lemma moved_permutation (rest p : list bytes) (x : bytes) :
  Permutation (rest ++ x :: p) ((rest ++ [x]) ++ p).
Proof. rewrite <- app_assoc. reflexivity. Qed.

(** A call that reaches the broker leaves everything but the fault script. *)
Lemma redis_call_ok w :
  hd false (redis_faults (broker w)) = false ->
  exists w1,
    redis_call w = (Returned tt, w1, []) /\
    main_q (broker w1) = main_q (broker w) /\
    proc_q (broker w1) = proc_q (broker w) /\
    redis_faults (broker w1) = tl (redis_faults (broker w)) /\
    store w1 = store w /\ fresh_oids w1 = fresh_oids w /\
    clock w1 = clock w /\ job_json_bytes w1 = job_json_bytes w.
Proof.
  intros H. unfold redis_call.
  destruct (redis_faults (broker w)) as [|[|] fs] eqn:Ef; [|discriminate|];
    eexists; (split; [reflexivity|]); simpl; rewrite ?Ef; repeat split; reflexivity.
Qed.

Lemma redis_call_fault w fs :
  redis_faults (broker w) = true :: fs ->
  exists w1,
    redis_call w = (Raised ConnectionError, w1, []) /\
    main_q (broker w1) = main_q (broker w) /\
    proc_q (broker w1) = proc_q (broker w) /\
    store w1 = store w /\ clock w1 = clock w /\
    job_json_bytes w1 = job_json_bytes w.
Proof.
  intros H. unfold redis_call. rewrite H.
  eexists; (split; [reflexivity|]); simpl; repeat split; reflexivity.
Qed.

(** The dequeue, on a queue that has an entry and a broker that answers: one
    step, from [(rest ++ [x], p)] to [(rest, x :: p)]. *)
Lemma brpoplpush_moves w rest x :
  main_q (broker w) = rest ++ [x] ->
  hd false (redis_faults (broker w)) = false ->
  exists w1,
    brpoplpush w =
      (Returned x, w1,
       [{| ev := EvBrpoplpush x; seen_main := rest;
           seen_proc := x :: proc_q (broker w) |}]) /\
    main_q (broker w1) = rest /\
    proc_q (broker w1) = x :: proc_q (broker w) /\
    redis_faults (broker w1) = tl (redis_faults (broker w)) /\
    store w1 = store w /\ fresh_oids w1 = fresh_oids w /\
    clock w1 = clock w /\ job_json_bytes w1 = job_json_bytes w.
Proof.
  intros Hq Hf.
  destruct (redis_call_ok w Hf) as (w0 & Hc & Hm & Hp & Hfs & Hs & Hfr & Hcl & Hv).
  unfold brpoplpush. rewrite (bind_returned _ _ _ _ _ _ Hc).
  rewrite Hm, Hq, rpop_snoc, Hp. eexists. split; [reflexivity|].
  simpl. repeat split; assumption.
Qed.

Lemma brpoplpush_empty w :
  main_q (broker w) = [] ->
  hd false (redis_faults (broker w)) = false ->
  exists w1, brpoplpush w = (Blocked, w1, []).
Proof.
  intros Hq Hf.
  destruct (redis_call_ok w Hf) as (w0 & Hc & Hm & _).
  unfold brpoplpush. rewrite (bind_returned _ _ _ _ _ _ Hc).
  rewrite Hm, Hq. simpl. eexists. reflexivity.
Qed.

(** Two dequeues in a row, by whichever consumers, hand out two different
    entries of the queue: no entry is handed out twice. *)
Lemma consecutive_dequeues w rest y x :
  main_q (broker w) = rest ++ [y; x] ->
  hd false (redis_faults (broker w)) = false ->
  hd false (tl (redis_faults (broker w))) = false ->
  exists w1 w2 t1 t2,
    brpoplpush w = (Returned x, w1, t1) /\
    brpoplpush w1 = (Returned y, w2, t2) /\
    main_q (broker w2) = rest /\
    proc_q (broker w2) = y :: x :: proc_q (broker w).
Proof.
  intros Hq Hf1 Hf2.
  change (rest ++ [y; x]) with (rest ++ [y] ++ [x]) in Hq.
  rewrite app_assoc in Hq.
  destruct (brpoplpush_moves w _ x Hq Hf1) as (w1 & H1 & Hm1 & Hp1 & Hfs1 & _).
  assert (Hf2' : hd false (redis_faults (broker w1)) = false)
    by (rewrite Hfs1; exact Hf2).
  destruct (brpoplpush_moves w1 rest y Hm1 Hf2') as (w2 & H2 & Hm2 & Hp2 & _).
  exists w1, w2. do 2 eexists. split; [exact H1|]. split; [exact H2|].
  split; [exact Hm2|]. rewrite Hp2, Hp1. reflexivity.
Qed.

(** The acknowledgment of the entry at the head of the processing buffer. *)
Lemma lrem_head w x p :
  proc_q (broker w) = x :: p ->
  hd false (redis_faults (broker w)) = false ->
  exists w1,
    lrem x w =
      (Returned tt, w1,
       [{| ev := EvLrem x 1; seen_main := main_q (broker w); seen_proc := p |}]) /\
    main_q (broker w1) = main_q (broker w) /\
    proc_q (broker w1) = p /\
    redis_faults (broker w1) = tl (redis_faults (broker w)) /\
    store w1 = store w /\ fresh_oids w1 = fresh_oids w /\
    clock w1 = clock w /\ job_json_bytes w1 = job_json_bytes w.
Proof.
  intros Hq Hf.
  destruct (redis_call_ok w Hf) as (w0 & Hc & Hm & Hp & Hfs & Hs & Hfr & Hcl & Hv).
  unfold lrem. rewrite (bind_returned _ _ _ _ _ _ Hc).
  rewrite Hp, Hq, remove_first_head, Hm. eexists. split; [reflexivity|].
  simpl. repeat split; assumption.
Qed.

(** Whatever the broker does, [lrem] comes back or raises; it removes at most
    one entry and never touches the main queue or the store. *)
Lemma lrem_any v w :
  exists o w1 t,
    lrem v w = (o, w1, t) /\ o <> Blocked /\
    main_q (broker w1) = main_q (broker w) /\
    store w1 = store w /\ job_json_bytes w1 = job_json_bytes w /\
    (forall e, o = Raised e ->
       t = [] /\ proc_q (broker w1) = proc_q (broker w) /\ clock w1 = clock w).
Proof.
  unfold lrem, bind, redis_call.
  destruct (redis_faults (broker w)) as [|[|] fs]; simpl.
  - destruct (remove_first v (proc_q (broker w)));
      do 3 eexists; (split; [reflexivity|]); simpl;
      repeat split; try discriminate.
  - do 3 eexists; (split; [reflexivity|]); simpl;
      repeat split; try discriminate.
  - destruct (remove_first v (proc_q (broker w)));
      do 3 eexists; (split; [reflexivity|]); simpl;
      repeat split; try discriminate.
Qed.

(** ** One turn of the loop *)

Section LoopFacts.

Context {E : Externals}.

Lemma process_job_returns job w :
  exists w' t,
    process_job job w = (Returned tt, w', t) /\
    broker w' = broker w /\ job_json_bytes w' = job_json_bytes w /\
    Forall (fun ob => sees (main_q (broker w)) (proc_q (broker w)) ob /\
                      is_broker_event (ev ob) = false) t.
Proof.
  destruct (process_job job w) as [[o w'] t] eqn:Hp.
  destruct (store_side_process_job job _ _ _ _ Hp) as (Hb & Hbr & Hv & Ht).
  exists w', t. repeat split; try assumption.
  unfold process_job, try_except in Hp.
  destruct (process_job_body job w) as [[o1 w1] t1] eqn:Hbody.
  destruct o1 as [[]|e|].
  - injection Hp as <- <- <-. reflexivity.
  - injection Hp as <- <- <-. reflexivity.
  - injection Hp as <- <- <-. congruence.
Qed.

(** The turn, once the dequeue has handed over [x]. *)
Lemma iteration_after_dequeue w x w1 t1 :
  brpoplpush w = (Returned x, w1, t1) ->
  iteration w =
    match x with
    | EmptyString => (Returned tt, with_var (Some x) w1, t1)
    | _ =>
      match staged x (with_var (Some x) w1) with
      | (Raised e, w2, t2) =>
        let '(r, w3, t3) := (if is_JSONDecodeError e then purge else sleep 1) w2 in
        (r, w3, (t1 ++ t2) ++ t3)
      | (o, w2, t2) => (o, w2, t1 ++ t2)
      end
    end.
Proof.
  intros H. unfold iteration, try_except, try_block.
  rewrite (bind_returned _ _ _ _ _ _ H).
  unfold bind at 1. unfold assign_job_json_bytes at 1.
  destruct x as [|a x'].
  - simpl. rewrite app_nil_r. reflexivity.
  - cbv beta iota zeta.
    destruct (staged _ _) as [[o w2] t2].
    destruct o as [[]|e|]; simpl; reflexivity.
Qed.

Lemma iteration_dequeue_raises w e w1 t1 :
  brpoplpush w = (Raised e, w1, t1) ->
  iteration w =
    (let '(r, w3, t3) := (if is_JSONDecodeError e then purge else sleep 1) w1 in
     (r, w3, t1 ++ t3)).
Proof.
  intros H. unfold iteration, try_except, try_block.
  rewrite (bind_raised _ _ _ _ _ _ H). reflexivity.
Qed.

Lemma iteration_dequeue_blocks w w1 t1 :
  brpoplpush w = (Blocked, w1, t1) -> iteration w = (Blocked, w1, t1).
Proof.
  intros H. unfold iteration, try_except, try_block, bind. rewrite H. reflexivity.
Qed.

Lemma staged_undecodable x w :
  utf8_decode x = None -> staged x w = (Raised UnicodeDecodeError, w, []).
Proof. intros H. unfold staged. rewrite H. reflexivity. Qed.

(** Whatever [json.loads] raises comes out of the staged part as it is. *)
Lemma staged_loads_raises x s e w :
  utf8_decode x = Some s -> json_loads s = Raise e ->
  staged x w = (Raised e, w, []).
Proof.
  intros H1 H2. unfold staged.
  rewrite (bind_lift_ok _ _ _ s) by (rewrite H1; reflexivity).
  apply bind_lift_raise, H2.
Qed.

Lemma staged_bad_json x s w :
  utf8_decode x = Some s -> json_loads s = Raise JSONDecodeError ->
  staged x w = (Raised JSONDecodeError, w, []).
Proof. apply staged_loads_raises. Qed.

Lemma staged_not_object x s v w :
  utf8_decode x = Some s -> json_loads s = Ok v -> is_dict v = false ->
  staged x w = (Raised AttributeError, w, []).
Proof.
  intros H1 H2 H3. unfold staged.
  rewrite (bind_lift_ok _ _ _ s) by (rewrite H1; reflexivity).
  rewrite (bind_lift_ok _ _ _ v) by exact H2.
  destruct v; try discriminate; reflexivity.
Qed.

Lemma staged_data_not_dict x s job v w :
  utf8_decode x = Some s -> json_loads s = Ok (PDict job) ->
  dict_get (lit "data") job = Some v -> is_dict v = false ->
  staged x w = (Raised AttributeError, w, []).
Proof.
  intros H1 H2 H3 H4. unfold staged.
  rewrite (bind_lift_ok _ _ _ s) by (rewrite H1; reflexivity).
  rewrite (bind_lift_ok _ _ _ (PDict job)) by exact H2.
  rewrite (bind_lift_ok _ _ _ v) by (simpl; rewrite H3; reflexivity).
  destruct v; try discriminate; reflexivity.
Qed.

(** The staged part of a job whose ["data"] is missing or is itself an
    object, up to the line that logs its two ids. *)
Lemma staged_logs x s job w :
  utf8_decode x = Some s -> json_loads s = Ok (PDict job) ->
  is_dict (match dict_get (lit "data") job with Some v => v | None => PDict [] end)
    = true ->
  staged x w =
    (lift (py_print (logged_ids job)) ;;;
     process_job (job_data_of job) ;;; lrem x) w.
Proof.
  intros H1 H2 H3. unfold staged.
  rewrite (bind_lift_ok _ _ _ s) by (rewrite H1; reflexivity).
  rewrite (bind_lift_ok _ _ _ (PDict job)) by exact H2.
  rewrite (utf8_roundtrip _ _ H1).
  unfold py_get at 1. unfold job_data_of, logged_ids.
  destruct (dict_get (lit "data") job) as [v|] eqn:Hd.
  - destruct v; try discriminate H3.
    rewrite (bind_lift_ok _ _ _ (PDict d)) by reflexivity.
    rewrite (bind_lift_ok _ _ _ _) by reflexivity.
    rewrite (bind_lift_ok _ _ _ (PDict d)) by (simpl; rewrite Hd; reflexivity).
    rewrite (bind_lift_ok _ _ _ _) by reflexivity.
    unfold bind at 1. unfold bind at 3.
    destruct (lift (py_print _) w) as [[[[]|e|] w0] t0] eqn:Hp; [|reflexivity..].
    rewrite (bind_lift_ok _ _ _ (PDict d)) by (simpl; rewrite Hd; reflexivity).
    reflexivity.
  - rewrite (bind_lift_ok _ _ _ (PDict [])) by reflexivity.
    rewrite (bind_lift_ok _ _ _ _) by reflexivity.
    rewrite (bind_lift_ok _ _ _ (PDict [])) by (simpl; rewrite Hd; reflexivity).
    rewrite (bind_lift_ok _ _ _ _) by reflexivity.
    rewrite (bind_lift_ok _ _ _ tt) by reflexivity.
    rewrite (bind_lift_ok _ _ _ tt) by reflexivity.
    rewrite (bind_lift_ok _ _ _ PNone) by (simpl; rewrite Hd; reflexivity).
    reflexivity.
Qed.

(** When the two ids can be written, the job gets to [process_job], then to
    the acknowledgment, which names the stored bytes. *)
Lemma staged_job x s job w :
  utf8_decode x = Some s -> json_loads s = Ok (PDict job) ->
  is_dict (match dict_get (lit "data") job with Some v => v | None => PDict [] end)
    = true ->
  forallb prints (logged_ids job) = true ->
  staged x w = (process_job (job_data_of job) ;;; lrem x) w.
Proof.
  intros H1 H2 H3 H4. rewrite (staged_logs _ _ _ _ H1 H2 H3).
  rewrite (bind_lift_ok _ _ _ tt); [reflexivity|].
  unfold py_print. rewrite H4. reflexivity.
Qed.

(** When one of them cannot, the staged part stops at that line. *)
Lemma staged_unprintable x s job w :
  utf8_decode x = Some s -> json_loads s = Ok (PDict job) ->
  is_dict (match dict_get (lit "data") job with Some v => v | None => PDict [] end)
    = true ->
  forallb prints (logged_ids job) = false ->
  staged x w = (Raised UnicodeEncodeError, w, []).
Proof.
  intros H1 H2 H3 H4. rewrite (staged_logs _ _ _ _ H1 H2 H3).
  apply bind_lift_raise. unfold py_print. rewrite H4. reflexivity.
Qed.

(** The acknowledgment of a staged entry either takes it off the head of the
    processing buffer or fails to reach the broker and changes nothing. *)
Lemma lrem_staged x p w :
  proc_q (broker w) = x :: p ->
  exists o w1 t,
    lrem x w = (o, w1, t) /\
    main_q (broker w1) = main_q (broker w) /\
    store w1 = store w /\ clock w1 = clock w /\
    job_json_bytes w1 = job_json_bytes w /\
    ((o = Returned tt /\ t = [ack_obs x (main_q (broker w)) p] /\
      proc_q (broker w1) = p) \/
     (o = Raised ConnectionError /\ t = [] /\ proc_q (broker w1) = x :: p)).
Proof.
  intros Hq.
  destruct (redis_faults (broker w)) as [|[|] fs] eqn:Ef.
  - destruct (lrem_head w x p Hq) as (w1 & H & Hm & Hp & _ & Hs & _ & Hc & Hv);
      [rewrite Ef; reflexivity|].
    exists (Returned tt), w1, [ack_obs x (main_q (broker w)) p].
    repeat split; try assumption. left. repeat split; assumption.
  - destruct (redis_call_fault w fs Ef) as (w1 & H & Hm & Hp & Hs & Hc & Hv).
    exists (Raised ConnectionError), w1, [].
    unfold lrem. rewrite (bind_raised _ _ _ _ _ _ H).
    repeat split; try assumption. right. repeat split; congruence.
  - destruct (lrem_head w x p Hq) as (w1 & H & Hm & Hp & _ & Hs & _ & Hc & Hv);
      [rewrite Ef; reflexivity|].
    exists (Returned tt), w1, [ack_obs x (main_q (broker w)) p].
    repeat split; try assumption. left. repeat split; assumption.
Qed.

(** The staged part of a turn: observations that leave [x] where the dequeue
    put it, then either the acknowledgment of [x] or an exception and no
    acknowledgment. *)
Lemma staged_post_raise x p w e :
  proc_q (broker w) = x :: p ->
  (is_JSONDecodeError e = true -> exists s, utf8_decode x = Some s) ->
  staged_post x p w (Raised e, w, []).
Proof.
  intros Hq He. exists (Raised e), w, [], [].
  split; [reflexivity|]. split; [constructor|].
  split; [reflexivity|]. split; [reflexivity|].
  right. exists e. split; [reflexivity|]. split; [reflexivity|].
  split; [exact Hq|]. intros Hj.
  split; [reflexivity|]. split; [reflexivity|]. apply He, Hj.
Qed.

Lemma staged_shape x p w :
  proc_q (broker w) = x :: p -> staged_post x p w (staged x w).
Proof.
  intros Hq.
  destruct (utf8_decode x) as [s|] eqn:Hd.
  2:{ rewrite (staged_undecodable _ _ Hd).
      apply staged_post_raise; [exact Hq|discriminate]. }
  destruct (json_loads s) as [v|e] eqn:Hl.
  2:{ rewrite (staged_loads_raises _ _ _ _ Hd Hl).
      apply staged_post_raise; [exact Hq|eauto]. }
  destruct (is_dict v) eqn:Hv.
  2:{ rewrite (staged_not_object _ _ _ _ Hd Hl Hv).
      apply staged_post_raise; [exact Hq|discriminate]. }
  destruct v as [| | | | | |job| |]; try discriminate Hv.
  destruct (is_dict (match dict_get (lit "data") job with
                     | Some v => v | None => PDict [] end)) eqn:Hdata.
  2:{ destruct (dict_get (lit "data") job) as [v|] eqn:Hg; [|discriminate].
      rewrite (staged_data_not_dict _ _ _ _ _ Hd Hl Hg Hdata).
      apply staged_post_raise; [exact Hq|discriminate]. }
  destruct (forallb prints (logged_ids job)) eqn:Hlog.
  2:{ rewrite (staged_unprintable _ _ _ _ Hd Hl Hdata Hlog).
      apply staged_post_raise; [exact Hq|discriminate]. }
  rewrite (staged_job _ _ _ _ Hd Hl Hdata Hlog).
  destruct (process_job_returns (job_data_of job) w)
    as (w1 & t1 & Hp & Hbr & Hvar & Ht).
  rewrite (bind_returned _ _ _ _ _ _ Hp).
  assert (Hq1 : proc_q (broker w1) = x :: p) by (rewrite Hbr; exact Hq).
  destruct (lrem_staged x p w1 Hq1)
    as (o & w2 & t2 & Hl2 & Hm2 & Hs2 & Hc2 & Hv2 & Hcase).
  rewrite Hl2. exists o, w2, t1, t2. rewrite Hbr in Hm2.
  split; [reflexivity|]. split.
  { eapply Forall_impl; [|exact Ht]. intros ob [Hsee Hne]. split; [|exact Hne].
    rewrite Hq in Hsee. exact Hsee. }
  split; [exact Hm2|]. split; [congruence|].
  destruct Hcase as [(-> & -> & Hp2)|(-> & -> & Hp2)].
  - left. rewrite Hbr. split; [reflexivity|]. split; [reflexivity|exact Hp2].
  - right. exists ConnectionError. split; [reflexivity|]. split; [reflexivity|].
    split; [exact Hp2|]. discriminate.
Qed.

Lemma sleep_run n w :
  sleep n w =
    (Returned tt, with_clock (clock w + n) w,
     [{| ev := EvSleep n; seen_main := main_q (broker w);
         seen_proc := proc_q (broker w) |}]).
Proof. reflexivity. Qed.

(** The purge of a staged entry whose bytes are text. *)
Lemma purge_staged x p s w :
  job_json_bytes w = Some x -> utf8_decode x = Some s ->
  proc_q (broker w) = x :: p ->
  exists w' fin,
    purge w = (Returned tt, w', fin) /\
    main_q (broker w') = main_q (broker w) /\ store w' = store w /\
    ((fin = [ack_obs x (main_q (broker w)) p] /\ proc_q (broker w') = p) \/
     (fin = [] /\ proc_q (broker w') = x :: p)).
Proof.
  intros Hv Hd Hq. unfold purge, try_except. rewrite Hv.
  rewrite (bind_lift_ok _ _ _ s) by (rewrite Hd; reflexivity).
  rewrite (utf8_roundtrip _ _ Hd).
  destruct (lrem_staged x p w Hq)
    as (o & w1 & t & Hl & Hm & Hs & Hc & Hv1 & [(-> & -> & Hp)|(-> & -> & Hp)]);
    rewrite Hl.
  - exists w1, [ack_obs x (main_q (broker w)) p].
    repeat split; try assumption. left. split; [reflexivity|exact Hp].
  - exists w1, []. repeat split; try assumption. right. split; [reflexivity|exact Hp].
Qed.

(** A turn that finds an entry and a broker that answers the dequeue. *)
Lemma turn_shape w rest x :
  main_q (broker w) = rest ++ [x] ->
  hd false (redis_faults (broker w)) = false ->
  turn_post x rest (proc_q (broker w)) (iteration w).
Proof.
  intros Hq Hf. set (p := proc_q (broker w)).
  destruct (brpoplpush_moves w rest x Hq Hf)
    as (w1 & Hpop & Hm1 & Hp1 & _ & Hs1 & _ & Hc1 & Hv1).
  rewrite (iteration_after_dequeue _ _ _ _ Hpop).
  destruct x as [|a x'].
  { exists (with_var (Some EmptyString) w1), [], [].
    split; [reflexivity|]. split; [constructor|]. split; [exact Hm1|].
    left. split; [reflexivity|exact Hp1]. }
  cbv iota. set (x := String a x') in *.
  match goal with
  | |- context [staged ?y ?v] =>
    assert (Hq1 : proc_q (broker v) = y :: p) by exact Hp1;
    assert (Hv0 : job_json_bytes v = Some y) by reflexivity;
    destruct (staged_shape y p v Hq1)
      as (o & w2 & mid & fin & Hst & Hmid & Hm2 & Hv2 & Hcase);
    rewrite Hst; clear Hst
  end.
  cbn [with_var broker] in Hmid, Hm2, Hcase.
  rewrite Hm1 in Hmid, Hm2, Hcase.
  destruct Hcase as [(-> & -> & Hp2)|(e & -> & -> & Hp2 & Hjson)].
  - exists w2, mid, [ack_obs x rest p].
    split; [reflexivity|]. split; [exact Hmid|]. split; [exact Hm2|].
    right. split; [reflexivity|exact Hp2].
  - destruct (is_JSONDecodeError e) eqn:He.
    + destruct (Hjson eq_refl) as (-> & -> & s & Hd).
      destruct (purge_staged x p s _ Hv0 Hd Hq1)
        as (w3 & fin & Hpu & Hm3 & _ & Hfin).
      rewrite Hpu. cbn [with_var broker] in Hm3, Hfin. rewrite Hm1 in Hm3, Hfin.
      exists w3, [], fin.
      split; [reflexivity|]. split; [constructor|]. split; [exact Hm3|].
      destruct Hfin as [[-> Hp3]|[-> Hp3]].
      * right. split; [reflexivity|exact Hp3].
      * left. split; [reflexivity|exact Hp3].
    + rewrite sleep_run.
      exists (with_clock (clock w2 + 1) w2),
        (mid ++ [{| ev := EvSleep 1; seen_main := main_q (broker w2);
                    seen_proc := proc_q (broker w2) |}]), [].
      split; [rewrite !app_nil_r; reflexivity|].
      split.
      { apply Forall_app. split; [exact Hmid|]. constructor; [|constructor].
        split; [|reflexivity]. split; simpl; assumption. }
      split; [exact Hm2|]. left. split; [reflexivity|exact Hp2].
Qed.

(** The three ways the dequeue can go. *)
Lemma brpoplpush_cases w :
  (exists w1, brpoplpush w = (Raised ConnectionError, w1, []) /\
              main_q (broker w1) = main_q (broker w) /\
              proc_q (broker w1) = proc_q (broker w)) \/
  (hd false (redis_faults (broker w)) = false /\ main_q (broker w) = []) \/
  (hd false (redis_faults (broker w)) = false /\
   exists rest x, main_q (broker w) = rest ++ [x]).
Proof.
  destruct (redis_faults (broker w)) as [|[|] fs] eqn:Ef.
  - right. destruct (rpop (main_q (broker w))) as [[r x]|] eqn:Er.
    + right. split; [reflexivity|]. exists r, x. apply rpop_some, Er.
    + left. split; [reflexivity|]. apply rpop_none, Er.
  - left. destruct (redis_call_fault w fs Ef) as (w1 & H & Hm & Hp & _).
    exists w1. unfold brpoplpush. rewrite (bind_raised _ _ _ _ _ _ H). auto.
  - right. destruct (rpop (main_q (broker w))) as [[r x]|] eqn:Er.
    + right. split; [reflexivity|]. exists r, x. apply rpop_some, Er.
    + left. split; [reflexivity|]. apply rpop_none, Er.
Qed.

(** A turn comes back to the head of the loop, unless it waits in the
    dequeue on an empty queue. *)
Lemma iteration_cases w :
  (exists w' t, iteration w = (Returned tt, w', t)) \/
  (main_q (broker w) = [] /\ exists w', iteration w = (Blocked, w', [])).
Proof.
  destruct (brpoplpush_cases w)
    as [(w1 & H & _)|[[Hf Hq]|(Hf & rest & x & Hq)]].
  - left. rewrite (iteration_dequeue_raises _ _ _ _ H). simpl.
    do 2 eexists. reflexivity.
  - right. split; [exact Hq|].
    destruct (brpoplpush_empty w Hq Hf) as (w1 & H).
    exists w1. apply iteration_dequeue_blocks, H.
  - left. destruct (turn_shape w rest x Hq Hf) as (w' & mid & fin & H & _).
    do 2 eexists. exact H.
Qed.

Lemma empty_payload_is_not_json (s : str) :
  utf8_decode EmptyString = Some s -> json_loads s = Raise JSONDecodeError.
Proof. intros H. injection H as <-. reflexivity. Qed.

Lemma process_job_None w : process_job PNone w = (Returned tt, w, []).
Proof. reflexivity. Qed.


(** X2. Bytes that are not text are never purged: the turn sends no
    acknowledgment, sleeps one second and leaves them at the head of the
    processing buffer. *)
Lemma undecodable_parked w rest x :
  main_q (broker w) = rest ++ [x] ->
  utf8_decode x = None ->
  hd false (redis_faults (broker w)) = false ->
  exists w',
    iteration w =
      (Returned tt, w',
       [pop_obs x rest (proc_q (broker w));
        {| ev := EvSleep 1; seen_main := rest;
           seen_proc := x :: proc_q (broker w) |}]) /\
    main_q (broker w') = rest /\ proc_q (broker w') = x :: proc_q (broker w).
Proof.
  intros Hq Hd Hf1.
  destruct (brpoplpush_moves w rest x Hq Hf1)
    as (w1 & Hpop & Hm1 & Hp1 & Hfs1 & Hs1 & _).
  rewrite (iteration_after_dequeue _ _ _ _ Hpop).
  destruct x as [|a x']; [discriminate Hd|]. cbv iota.
  rewrite (staged_undecodable _ _ Hd). cbn [is_JSONDecodeError].
  rewrite sleep_run. cbn [with_var with_clock broker]. rewrite Hm1, Hp1.
  eexists. split; [reflexivity|]. cbn [with_var with_clock broker].
  split; assumption.
Qed.

End LoopFacts.

(** ** Dicts *)

Lemma str_eqb_refl (a : str) : str_eqb a a = true.
Proof.
  induction a as [|x a IH]; simpl; [reflexivity|].
  rewrite Z.eqb_refl, IH. reflexivity.
Qed.

Lemma str_eqb_eq (a b : str) : str_eqb a b = true <-> a = b.
Proof.
  split; [|intros ->; apply str_eqb_refl].
  revert b. induction a as [|x a IH]; intros [|y b] H; simpl in H;
    try discriminate; [reflexivity|].
  apply andb_prop in H. destruct H as [H1 H2].
  apply Z.eqb_eq in H1. rewrite (IH _ H2), H1. reflexivity.
Qed.

Lemma str_eqb_neq (a b : str) : a <> b -> str_eqb a b = false.
Proof.
  intros H. destruct (str_eqb a b) eqn:Hab; [|reflexivity].
  apply str_eqb_eq in Hab. contradiction.
Qed.

Lemma dict_get_set_same k v d : dict_get k (dict_set k v d) = Some v.
Proof.
  induction d as [|[k' v'] d IH]; simpl.
  - rewrite str_eqb_refl. reflexivity.
  - destruct (str_eqb k k') eqn:Hk; simpl; rewrite Hk; [reflexivity|exact IH].
Qed.

Lemma dict_get_set_other k k' v d :
  k <> k' -> dict_get k (dict_set k' v d) = dict_get k d.
Proof.
  intros Hne. induction d as [|[k2 v2] d IH]; simpl.
  - rewrite (str_eqb_neq _ _ Hne). reflexivity.
  - destruct (str_eqb k' k2) eqn:Hk; simpl.
    + apply str_eqb_eq in Hk. subst k2.
      rewrite (str_eqb_neq _ _ Hne). reflexivity.
    + destruct (str_eqb k k2); [reflexivity|exact IH].
Qed.

Lemma dict_set_keys k v d :
  dict_get k d <> None -> map fst (dict_set k v d) = map fst d.
Proof.
  induction d as [|[k' v'] d IH]; simpl; intros H; [congruence|].
  destruct (str_eqb k k') eqn:Hk; simpl; [reflexivity|].
  rewrite IH; [reflexivity|exact H].
Qed.

(** ** Lookups that come back empty *)

Lemma same_docs_refl m : same_docs m m.
Proof. repeat split. Qed.

Lemma same_docs_trans m1 m2 m3 :
  same_docs m1 m2 -> same_docs m2 m3 -> same_docs m1 m3.
Proof.
  intros (A1 & A2 & A3 & A4) (B1 & B2 & B3 & B4). repeat split; congruence.
Qed.

Lemma reads_ret {A} (a : A) : reads (ret a).
Proof.
  intros w o w' t H. injection H as <- <- <-.
  split; [apply same_docs_refl|constructor].
Qed.

Lemma reads_lift {A} (r : result A) : reads (lift r).
Proof.
  intros w o w' t H. unfold lift in H. injection H as <- <- <-.
  split; [apply same_docs_refl|constructor].
Qed.

Lemma reads_bind {A B} (m : M A) (k : A -> M B) :
  reads m -> (forall a, reads (k a)) -> reads (bind m k).
Proof.
  intros Hm Hk w o w' t H. unfold bind in H.
  destruct (m w) as [[o1 w1] t1] eqn:E1.
  destruct (Hm _ _ _ _ E1) as (Hs & Ht).
  destruct o1 as [a|e|]; try (injection H as <- <- <-; split; assumption).
  destruct (k a w1) as [[o2 w2] t2] eqn:E2.
  injection H as <- <- <-.
  destruct (Hk _ _ _ _ _ E2) as (Hs2 & Ht2).
  split; [eapply same_docs_trans; eassumption|].
  apply Forall_app; split; assumption.
Qed.

Lemma reads_mongo_call : reads mongo_call.
Proof.
  intros w o w' t H. unfold mongo_call in H.
  destruct (mongo_faults (store w)) as [|[|] fs];
    injection H as <- <- <-; (split; [repeat split|constructor]).
Qed.

Lemma reads_find_one c o : reads (find_one c o).
Proof.
  apply reads_bind; [apply reads_mongo_call|].
  intros _ w r w' t H. cbv beta zeta in H. injection H as <- <- <-.
  split; [apply same_docs_refl|repeat constructor].
Qed.

Lemma reads_find_all c : reads (find_all c).
Proof.
  apply reads_bind; [apply reads_mongo_call|].
  intros _ w r w' t H. cbv beta zeta in H. injection H as <- <- <-.
  split; [apply same_docs_refl|repeat constructor].
Qed.

Lemma reads_ObjectId v : reads (ObjectId v).
Proof.
  intros w o w' t H. unfold ObjectId in H.
  destruct v;
    try (injection H as <- <- <-; split; [apply same_docs_refl|constructor]).
  - destruct (fresh_oids w); injection H as <- <- <-;
      (split; [apply same_docs_refl|constructor]).
  - destruct (oid_of_str _); injection H as <- <- <-;
      (split; [apply same_docs_refl|constructor]).
Qed.

Lemma finds_ret {A} (a : A) : finds (ret a).
Proof. intros w o w' t H. injection H as <- <- <-. constructor. Qed.

Lemma finds_lift {A} (r : result A) : finds (lift r).
Proof. intros w o w' t H. unfold lift in H. injection H as <- <- <-. constructor. Qed.

Lemma finds_bind {A B} (m : M A) (k : A -> M B) :
  finds m -> (forall a, finds (k a)) -> finds (bind m k).
Proof.
  intros Hm Hk w o w' t H. unfold bind in H.
  destruct (m w) as [[o1 w1] t1] eqn:E1.
  pose proof (Hm _ _ _ _ E1) as Ht.
  destruct o1 as [a|e|]; try (injection H as <- <- <-; assumption).
  destruct (k a w1) as [[o2 w2] t2] eqn:E2.
  injection H as <- <- <-.
  apply Forall_app; split; [assumption|exact (Hk _ _ _ _ _ E2)].
Qed.

Lemma finds_mongo_call : finds mongo_call.
Proof.
  intros w o w' t H. unfold mongo_call in H.
  destruct (mongo_faults (store w)) as [|[|] fs];
    injection H as <- <- <-; constructor.
Qed.

Lemma finds_find_all c : finds (find_all c).
Proof.
  apply finds_bind; [apply finds_mongo_call|].
  intros _ w r w' t H. cbv beta zeta in H. injection H as <- <- <-.
  repeat constructor.
Qed.

Lemma finds_update o f : finds (idps_update_one o f).
Proof.
  apply finds_bind; [apply finds_mongo_call|].
  intros _ w r w' t H. cbv beta zeta in H.
  destruct (update_first o f (idps (store w))); injection H as <- <- <-;
    repeat constructor.
Qed.

Lemma finds_ObjectId v : finds (ObjectId v).
Proof.
  intros w o w' t H. unfold ObjectId in H.
  destruct v; try (injection H as <- <- <-; constructor).
  - destruct (fresh_oids w); injection H as <- <- <-; constructor.
  - destruct (oid_of_str _); injection H as <- <- <-; constructor.
Qed.

Lemma finds_utcnow : finds utcnow.
Proof. intros w o w' t H. injection H as <- <- <-. constructor. Qed.

Lemma guarded_of_reads {A} (m : M A) : reads m -> guarded m.
Proof. intros H w o w' t Hr _. exact (H _ _ _ _ Hr). Qed.

Lemma guarded_of_finds {A} (m : M A) : finds m -> guarded m.
Proof.
  intros H w o w' t Hr Hex. exfalso.
  pose proof (H _ _ _ _ Hr) as Hall.
  apply Exists_exists in Hex. destruct Hex as (ob & Hin & Hob).
  rewrite Forall_forall in Hall. rewrite (Hall _ Hin) in Hob. discriminate.
Qed.

Lemma guarded_bind {A B} (m : M A) (k : A -> M B) :
  reads m -> finds m -> (forall a, guarded (k a)) -> guarded (bind m k).
Proof.
  intros Hr Hf Hk w o w' t H Hex. unfold bind in H.
  destruct (m w) as [[o1 w1] t1] eqn:E1.
  destruct (Hr _ _ _ _ E1) as (Hs & Ht).
  destruct o1 as [a|e|]; try (injection H as <- <- <-; split; assumption).
  destruct (k a w1) as [[o2 w2] t2] eqn:E2.
  injection H as <- <- <-.
  apply Exists_app in Hex. destruct Hex as [Hex|Hex].
  { exfalso. exact (proj1 (Forall_Exists_neg _ _)
                      (Forall_impl _ (fun ob Hob Hc => eq_true_false_abs _ Hc Hob)
                                   (Hf _ _ _ _ E1)) Hex). }
  destruct (Hk _ _ _ _ _ E2 Hex) as (Hs2 & Ht2).
  split; [eapply same_docs_trans; eassumption|].
  apply Forall_app; split; assumption.
Qed.

(** After a lookup: nothing is written if it came back empty. *)
Lemma guarded_find_one {B} c o (k : pyval -> M B) :
  reads (k PNone) -> (forall a, a <> PNone -> guarded (k a)) ->
  guarded (bind (find_one c o) k).
Proof.
  intros Hn Hk w r w' t H Hex. unfold bind in H.
  destruct (find_one c o w) as [[o1 w1] t1] eqn:E1.
  destruct (reads_find_one c o _ _ _ _ E1) as (Hs & Ht).
  destruct o1 as [a|e|]; try (injection H as <- <- <-; split; assumption).
  destruct (k a w1) as [[o2 w2] t2] eqn:E2.
  injection H as <- <- <-.
  assert (Hcase : a = PNone \/
                  (a <> PNone /\ Forall (fun ob => empty_lookup (ev ob) = false) t1)).
  { unfold find_one, bind in E1.
    destruct (mongo_call w) as [[o0 w0] t0] eqn:E0.
    destruct o0 as [[]|e|]; try discriminate E1.
    pose proof (finds_mongo_call _ _ _ _ E0) as Hf0.
    injection E1 as <- <- <-.
    destruct (find (id_is o) (coll c (store w0))); [right|left; reflexivity].
    split; [discriminate|]. apply Forall_app. split; [exact Hf0|].
    repeat constructor. }
  destruct Hcase as [->|[Ha Hf1]].
  - destruct (Hn _ _ _ _ E2) as (Hs2 & Ht2).
    split; [eapply same_docs_trans; eassumption|].
    apply Forall_app; split; assumption.
  - apply Exists_app in Hex. destruct Hex as [Hex|Hex].
    { exfalso. apply Exists_exists in Hex. destruct Hex as (ob & Hin & Hob).
      rewrite Forall_forall in Hf1. rewrite (Hf1 _ Hin) in Hob. discriminate. }
    destruct (Hk a Ha _ _ _ _ E2 Hex) as (Hs2 & Ht2).
    split; [eapply same_docs_trans; eassumption|].
    apply Forall_app; split; assumption.
Qed.

Lemma guarded_try {A} (m : M A) (a : A) :
  guarded m -> guarded (try_except m (fun _ => ret a)).
Proof.
  intros Hm w o w' t H Hex. unfold try_except in H.
  destruct (m w) as [[o1 w1] t1] eqn:E1.
  destruct o1 as [a1|e|]; cbn in H; injection H as <- <- <-;
    rewrite ?app_nil_r in Hex |- *; exact (Hm _ _ _ _ E1 Hex).
Qed.

Create HintDb reads.
Create HintDb finds.

#[local] Hint Resolve reads_ret reads_lift reads_find_one reads_find_all
  reads_ObjectId : reads.
#[local] Hint Resolve finds_ret finds_lift finds_find_all finds_update
  finds_ObjectId finds_utcnow : finds.

Ltac reads_steps :=
  repeat first
    [ solve [auto with reads]
    | apply reads_bind; [solve [auto with reads]|intros ?] ].

Ltac finds_steps :=
  repeat first
    [ solve [auto with finds]
    | apply finds_bind; [solve [auto with finds]|intros ?] ].

Ltac guarded_step :=
  apply guarded_bind; [solve [auto with reads]|solve [auto with finds]|intros ?].

Section Guard.

Context {E : Externals}.

(** [process_job] issues its update only after both lookups have returned a
    record. *)
Lemma guarded_body job : guarded (process_job_body job).
Proof.
  unfold process_job_body. do 4 guarded_step.
  apply guarded_find_one.
  { reads_steps. cbv zeta. cbn [py_truthy negb orb]. apply reads_ret. }
  intros user Huser. guarded_step.
  apply guarded_find_one.
  { reads_steps. cbv zeta. cbn [py_truthy negb]. rewrite orb_true_r. apply reads_ret. }
  intros idp Hidp. do 3 guarded_step. cbv zeta.
  match goal with |- guarded (if ?c then _ else _) => destruct c end.
  - apply guarded_of_reads, reads_ret.
  - apply guarded_of_finds. finds_steps.
Qed.

Lemma guarded_process_job job : guarded (process_job job).
Proof. apply guarded_try, guarded_body. Qed.

End Guard.

(** ** The skill map *)

Section SkillMap.

Context {E : Externals}.

Lemma skill_map_step acc skill m :
  (let* m0 := acc in
   let* i := py_subscript (PDict skill) (lit "_id") in
   Ok (dict_set (py_str i) (PDict skill) m0)) = Ok m ->
  exists m0 i,
    acc = Ok m0 /\ dict_get (lit "_id") skill = Some i /\
    m = dict_set (py_str i) (PDict skill) m0.
Proof.
  destruct acc as [m0|e]; [|discriminate]. cbn [rbind py_subscript].
  destruct (dict_get (lit "_id") skill) as [i|]; [|discriminate].
  cbn [rbind]. intros H. injection H as <-. exists m0, i. auto.
Qed.

Lemma skill_map_fold all_skills acc m :
  fold_left
    (fun acc skill =>
       let* m := acc in
       let* i := py_subscript (PDict skill) (lit "_id") in
       Ok (dict_set (py_str i) (PDict skill) m))
    all_skills acc = Ok m ->
  exists m0,
    acc = Ok m0 /\
    (forall k v, dict_get k m = Some v ->
       dict_get k m0 = Some v \/
       exists sk, v = PDict sk /\ skill_named k all_skills sk) /\
    (forall k, dict_get k m0 <> None -> dict_get k m <> None) /\
    (forall k sk, skill_named k all_skills sk -> dict_get k m <> None).
Proof.
  revert acc. induction all_skills as [|s0 rest IH]; intros acc H.
  - cbn in H. exists m. split; [exact H|]. split; [auto|]. split; [auto|].
    intros k sk [[] _].
  - cbn [fold_left] in H. destruct (IH _ H) as (m1 & Hstep & Hsound & Hmono & Hcompl).
    destruct (skill_map_step _ _ _ Hstep) as (m0 & i & -> & Hid & ->).
    exists m0. split; [reflexivity|]. split; [|split].
    + intros k v Hk. destruct (Hsound _ _ Hk) as [Hk1|(sk & -> & Hin & Hn)].
      * destruct (str_eqb k (py_str i)) eqn:Hki.
        -- apply str_eqb_eq in Hki. subst k.
           rewrite dict_get_set_same in Hk1. injection Hk1 as <-.
           right. exists s0. split; [reflexivity|].
           split; [left; reflexivity|]. exists i. auto.
        -- left. rewrite dict_get_set_other in Hk1; [exact Hk1|].
           intros ->. rewrite str_eqb_refl in Hki. discriminate.
      * right. exists sk. split; [reflexivity|].
        split; [right; exact Hin|exact Hn].
    + intros k Hk. apply Hmono.
      destruct (str_eqb k (py_str i)) eqn:Hki.
      * apply str_eqb_eq in Hki. subst k. rewrite dict_get_set_same. discriminate.
      * rewrite dict_get_set_other; [exact Hk|].
        intros ->. rewrite str_eqb_refl in Hki. discriminate.
    + intros k sk [[<-|Hin] (i' & Hid' & Hn)].
      * apply Hmono. rewrite Hid in Hid'. injection Hid' as <-. subst k.
        rewrite dict_get_set_same. discriminate.
      * apply (Hcompl k sk). split; [exact Hin|]. exists i'. auto.
Qed.

(** An entry of the skill map is a fetched skill under its own name. *)
Lemma skill_map_sound all_skills m :
  build_skill_map all_skills = Ok m ->
  forall k v, dict_get k m = Some v ->
  exists sk, v = PDict sk /\ skill_named k all_skills sk.
Proof.
  intros H k v Hk. destruct (skill_map_fold _ _ _ H) as (m0 & Hm0 & Hsound & _).
  injection Hm0 as <-. destruct (Hsound _ _ Hk) as [Hk0|Hsk]; [discriminate|exact Hsk].
Qed.

(** Every fetched skill's name is in the skill map. *)
Lemma skill_map_complete all_skills m :
  build_skill_map all_skills = Ok m ->
  forall k sk, skill_named k all_skills sk -> dict_get k m <> None.
Proof.
  intros H k sk Hn. destruct (skill_map_fold _ _ _ H) as (m0 & _ & _ & _ & Hc).
  exact (Hc k sk Hn).
Qed.

End SkillMap.

(** ** The successful run of [process_job] *)

Lemma mongo_call_ok w :
  mongo_faults (store w) = [] -> mongo_call w = (Returned tt, w, []).
Proof. intros H. unfold mongo_call. rewrite H. reflexivity. Qed.

Lemma find_one_ok c o w :
  mongo_faults (store w) = [] ->
  find_one c o w =
    (Returned (match find (id_is o) (coll c (store w)) with
               | Some d => PDict d
               | None => PNone
               end), w,
     [{| ev := EvFindOne c o (match find (id_is o) (coll c (store w)) with
                              | Some d => PDict d
                              | None => PNone
                              end);
         seen_main := main_q (broker w); seen_proc := proc_q (broker w) |}]).
Proof.
  intros H. unfold find_one.
  rewrite (bind_returned _ _ _ _ _ _ (mongo_call_ok w H)). reflexivity.
Qed.

Lemma find_all_ok c w :
  mongo_faults (store w) = [] ->
  find_all c w =
    (Returned (coll c (store w)), w,
     [{| ev := EvFind c; seen_main := main_q (broker w);
         seen_proc := proc_q (broker w) |}]).
Proof.
  intros H. unfold find_all.
  rewrite (bind_returned _ _ _ _ _ _ (mongo_call_ok w H)). reflexivity.
Qed.

Lemma update_ok o f w l :
  mongo_faults (store w) = [] ->
  update_first o f (idps (store w)) = Some l ->
  idps_update_one o f w =
    (Returned tt,
     with_store {| users := users (store w); idps := l;
                   skills := skills (store w);
                   resources := resources (store w);
                   mongo_faults := mongo_faults (store w) |} w,
     [{| ev := EvUpdateOne o f true; seen_main := main_q (broker w);
         seen_proc := proc_q (broker w) |}]).
Proof.
  intros H Hu. unfold idps_update_one.
  rewrite (bind_returned _ _ _ _ _ _ (mongo_call_ok w H)).
  cbv zeta. rewrite Hu. reflexivity.
Qed.

Lemma utcnow_run w :
  utcnow w =
    (Returned (PDatetime (clock w)),
     with_time (clock w + hd 0 (time_passes w)) (tl (time_passes w)) w, []).
Proof. reflexivity. Qed.

(** *** Ids *)

Lemma hex_is_no_space c : is_hex c = true -> is_space c = false.
Proof.
  unfold is_hex, hex_val, is_digit, is_space. intros H.
  destruct ((48 <=? c) && (c <=? 57)) eqn:H1.
  { bools. apply orb_false_iff. split; [apply Z.eqb_neq; lia|].
    apply andb_false_iff. right. apply Z.leb_gt. lia. }
  destruct ((97 <=? c) && (c <=? 102)) eqn:H2.
  { bools. apply orb_false_iff. split; [apply Z.eqb_neq; lia|].
    apply andb_false_iff. right. apply Z.leb_gt. lia. }
  destruct ((65 <=? c) && (c <=? 70)) eqn:H3; [|discriminate].
  bools. apply orb_false_iff. split; [apply Z.eqb_neq; lia|].
  apply andb_false_iff. right. apply Z.leb_gt. lia.
Qed.

Lemma hex_is_no_surrogate c : is_hex c = true -> is_surrogate c = false.
Proof.
  unfold is_hex, hex_val, is_digit, is_surrogate. intros H.
  destruct ((48 <=? c) && (c <=? 57)) eqn:H1.
  { bools. apply andb_false_iff. left. apply Z.leb_gt. lia. }
  destruct ((97 <=? c) && (c <=? 102)) eqn:H2.
  { bools. apply andb_false_iff. left. apply Z.leb_gt. lia. }
  destruct ((65 <=? c) && (c <=? 70)) eqn:H3; [|discriminate].
  bools. apply andb_false_iff. left. apply Z.leb_gt. lia.
Qed.

(** Hex digits with nothing between them are read two by two, to the end. *)
Lemma fromhex_digits (n : nat) :
  forall s fuel,
    List.length s = (2 * n)%nat -> forallb is_hex s = true ->
    (n < fuel)%nat -> fromhex fuel s = Some (map lower s).
Proof.
  induction n as [|n IH]; intros s fuel Hlen Hhex Hfuel.
  - destruct s; [|discriminate]. destruct fuel; [lia|]. reflexivity.
  - destruct s as [|a [|b r]]; try (simpl in Hlen; lia).
    destruct fuel as [|fuel]; [lia|].
    cbn [forallb] in Hhex. apply andb_prop in Hhex. destruct Hhex as [Ha Hhex].
    apply andb_prop in Hhex. destruct Hhex as [Hb Hr].
    cbn [fromhex skip_spaces]. rewrite (hex_is_no_space _ Ha), Ha, Hb.
    cbn [andb]. rewrite (IH r fuel); [reflexivity| |exact Hr|lia].
    simpl in Hlen. lia.
Qed.

(** On 24 hex digits [ObjectId] gives the id they spell. *)
Lemma oid_of_valid s : valid_oid s = true -> oid_of_str s = Some (map lower s).
Proof.
  unfold valid_oid, oid_of_str. intros H.
  apply andb_prop in H. destruct H as [Hlen Hhex]. rewrite Hlen.
  apply Z.eqb_eq in Hlen.
  apply (fromhex_digits 12); [lia|exact Hhex|lia].
Qed.

Lemma ObjectId_str s w :
  valid_oid s = true -> ObjectId (PStr s) w = (Returned (map lower s), w, []).
Proof. intros H. unfold ObjectId. rewrite (oid_of_valid _ H). reflexivity. Qed.

Lemma valid_oid_prints s : valid_oid s = true -> prints (PStr s) = true.
Proof.
  unfold valid_oid. intros H. apply andb_prop in H. destruct H as [_ Hhex].
  cbn [prints]. apply negb_true_iff.
  induction s as [|c s IH]; [reflexivity|].
  cbn [forallb] in Hhex. apply andb_prop in Hhex. destruct Hhex as [Hc Hs].
  cbn [existsb]. rewrite (hex_is_no_surrogate _ Hc), (IH Hs). reflexivity.
Qed.

Lemma print_ids us is_ :
  valid_oid us = true -> valid_oid is_ = true ->
  py_print [PStr us; PStr is_] = Ok tt.
Proof.
  intros Hu Hi. unfold py_print. cbn [forallb].
  rewrite (valid_oid_prints _ Hu), (valid_oid_prints _ Hi). reflexivity.
Qed.

Lemma id_is_nonempty o d : id_is o d = true -> py_truthy (PDict d) = true.
Proof. destruct d; [discriminate|reflexivity]. Qed.

Lemma all_dicts_map l gs : all_dicts l = Some gs -> l = map PDict gs.
Proof.
  revert gs. induction l as [|v l IH]; intros gs H; simpl in H.
  - injection H as <-. reflexivity.
  - destruct v; try discriminate.
    destruct (all_dicts l) as [ds|]; [|discriminate].
    injection H as <-. simpl. rewrite (IH _ eq_refl). reflexivity.
Qed.

Lemma goals_iter idp gs :
  goals_of idp = Some gs ->
  (let* goals := py_get (PDict idp) (lit "goals") (PList []) in py_iter goals)
  = Ok (map PDict gs).
Proof.
  unfold goals_of. cbn [py_get rbind].
  destruct (dict_get (lit "goals") idp) as [v|].
  - destruct v; try discriminate. intros H. cbn [py_iter].
    rewrite (all_dicts_map _ _ H). reflexivity.
  - intros H. injection H as <-. reflexivity.
Qed.

Lemma HdRel_firstn {A} (R : A -> A -> Prop) a n l :
  HdRel R a l -> HdRel R a (firstn n l).
Proof.
  intros H. destruct n; [constructor|].
  destruct H; simpl; constructor. assumption.
Qed.

Lemma Sorted_firstn {A} (R : A -> A -> Prop) n l :
  Sorted R l -> Sorted R (firstn n l).
Proof.
  intros H. revert n. induction H as [|a l Hs IH Hd]; intros n.
  - rewrite firstn_nil. constructor.
  - destruct n; [constructor|]. simpl. constructor; [apply IH|].
    apply HdRel_firstn, Hd.
Qed.

Lemma firstn_incl {A} n (l : list A) x : In x (firstn n l) -> In x l.
Proof.
  intros H. rewrite <- (firstn_skipn n l). apply in_or_app. left. exact H.
Qed.

Lemma find_some_in {A} (f : A -> bool) l a :
  find f l = Some a -> In a l /\ f a = true.
Proof. apply find_some. Qed.

Lemma update_first_found o f l d :
  find (id_is o) l = Some d ->
  id_is o (apply_set f d) = true ->
  exists l',
    update_first o f l = Some l' /\
    find (id_is o) l' = Some (apply_set f d).
Proof.
  intros Hfind Hid. induction l as [|d0 l IH]; simpl in Hfind; [discriminate|].
  simpl. destruct (id_is o d0) eqn:H0.
  - injection Hfind as <-. eexists. split; [reflexivity|].
    simpl. rewrite Hid. reflexivity.
  - destruct (IH Hfind) as (l' & -> & Hf). eexists. split; [reflexivity|].
    simpl. rewrite H0. exact Hf.
Qed.

Lemma lit_neq (a b : string) : str_eqb (lit a) (lit b) = false -> lit a <> lit b.
Proof. intros H Heq. rewrite Heq, str_eqb_refl in H. discriminate. Qed.

Lemma result_fields_set recs now d :
  let d' := apply_set (result_fields recs now) d in
  dict_get (lit "suggestedResources") d' = Some (PList recs) /\
  dict_get (lit "status") d' = Some (PStr (lit "active")) /\
  dict_get (lit "updatedAt") d' = Some (PDatetime now) /\
  dict_get (lit "_id") d' = dict_get (lit "_id") d.
Proof.
  unfold apply_set, result_fields. cbn [fold_left fst snd].
  repeat split.
  - rewrite !dict_get_set_other by (apply lit_neq; reflexivity).
    apply dict_get_set_same.
  - rewrite dict_get_set_other by (apply lit_neq; reflexivity).
    apply dict_get_set_same.
  - apply dict_get_set_same.
  - rewrite !dict_get_set_other by (apply lit_neq; reflexivity). reflexivity.
Qed.

Section Success.

Context {E : Externals}.

Lemma rmap_skill_gap (gs : list dict) :
  rmap skill_gap (map PDict gs) = Ok (map default_gap_entry gs).
Proof.
  induction gs as [|g gs IH]; [reflexivity|].
  cbn [map rmap]. rewrite IH. reflexivity.
Qed.

Lemma enrich_resource_other skill_map r k :
  k <> lit "skill" ->
  dict_get k (enrich_resource skill_map r) = dict_get k r.
Proof.
  intros Hk. unfold enrich_resource.
  destruct (_ && _); [|reflexivity].
  destruct (dict_get _ skill_map); [|reflexivity].
  apply dict_get_set_other, Hk.
Qed.

(** Each ranked item formats into an entry that points at a fetched
    resource. *)
Lemma rmap_format_rec fetched skill_map items :
  forallb has_id fetched = true ->
  Forall (ranked_item (map (enrich_resource skill_map) fetched)) items ->
  exists recs,
    rmap format_rec items = Ok recs /\
    Forall2 (formatted_from fetched) items recs.
Proof.
  intros Hids Hitems. induction Hitems as [|item items Hitem _ IH].
  - exists []. split; [reflexivity|constructor].
  - destruct IH as (recs & Hrecs & Hall).
    destruct Hitem as (d & res & score & breakdown & -> & Hres & Hin & Hsc & Hbd).
    apply in_map_iff in Hin. destruct Hin as (r0 & <- & Hin0).
    assert (Hid0 : exists rid, dict_get (lit "_id") r0 = Some rid).
    { rewrite forallb_forall in Hids. specialize (Hids _ Hin0).
      unfold has_id, dict_has in Hids.
      destruct (dict_get (lit "_id") r0) as [rid|]; [eauto|discriminate]. }
    destruct Hid0 as (rid & Hid0).
    assert (Hid : dict_get (lit "_id") (enrich_resource skill_map r0) = Some rid).
    { rewrite enrich_resource_other; [exact Hid0|apply lit_neq; reflexivity]. }
    eexists. split.
    + cbn [rmap]. unfold format_rec at 1. cbn [py_subscript rbind].
      rewrite Hres. cbn [rbind py_subscript]. rewrite Hid. cbn [rbind].
      rewrite Hsc. cbn [rbind]. rewrite Hbd.
      cbn [rbind py_get]. rewrite Hrecs. cbn [rbind]. reflexivity.
    + constructor; [|exact Hall].
      exists d, (enrich_resource skill_map r0), breakdown, rid, score.
      repeat split; try assumption; eauto.
Qed.

Lemma formatted_scores fetched items recs :
  Forall2 (formatted_from fetched) items recs ->
  map entry_score recs = map entry_score items.
Proof.
  induction 1 as [|item rec items recs H _ IH]; [reflexivity|].
  cbn [map]. rewrite IH. f_equal.
  destruct H as (d & res & bd & rid & score & -> & _ & _ & _ & Hsc & _ & ->).
  unfold entry_score. rewrite Hsc. reflexivity.
Qed.

Lemma skill_map_exists all_skills :
  forallb has_id all_skills = true ->
  exists m, build_skill_map all_skills = Ok m.
Proof.
  unfold build_skill_map. generalize (@nil (str * pyval)) as m0.
  induction all_skills as [|sk l IH]; intros m0 H; cbn [fold_left].
  - exists m0. reflexivity.
  - cbn [forallb] in H. apply andb_prop in H. destruct H as [Hsk Hl].
    unfold has_id, dict_has in Hsk. cbn [rbind py_subscript].
    destruct (dict_get (lit "_id") sk) as [i|]; [|discriminate].
    cbn [rbind]. apply IH, Hl.
Qed.

(** The run of [process_job] on a job that names a user and an IDP, the
    store answering and the pipeline keeping its contract. *)
Lemma success_run (score_ge : pyval -> pyval -> Prop) jd us is_ user idp w :
  adapter_contract E score_ge ->
  dict_get (lit "userId") jd = Some (PStr us) -> valid_oid us = true ->
  dict_get (lit "idpId") jd = Some (PStr is_) -> valid_oid is_ = true ->
  find (id_is (map lower us)) (users (store w)) = Some user ->
  find (id_is (map lower is_)) (idps (store w)) = Some idp ->
  mongo_faults (store w) = [] ->
  forallb has_id (skills (store w)) = true ->
  forallb has_id (resources (store w)) = true ->
  goals_of idp <> None ->
  exists items recs idps',
    pipeline_output w user idp items /\
    Sorted score_ge (map entry_score items) /\
    rmap format_rec (firstn 10 items) = Ok recs /\
    Forall2 (formatted_from (resources (store w))) (firstn 10 items) recs /\
    update_first (map lower is_) (result_fields recs (clock w)) (idps (store w))
      = Some idps' /\
    find (id_is (map lower is_)) idps'
      = Some (apply_set (result_fields recs (clock w)) idp) /\
    process_job (PDict jd) w =
      (Returned tt,
       with_store {| users := users (store w); idps := idps';
                     skills := skills (store w);
                     resources := resources (store w);
                     mongo_faults := mongo_faults (store w) |}
         (with_time (clock w + hd 0 (time_passes w)) (tl (time_passes w)) w),
       [ {| ev := EvFindOne Users (map lower us) (PDict user);
            seen_main := main_q (broker w); seen_proc := proc_q (broker w) |};
         {| ev := EvFindOne Idps (map lower is_) (PDict idp);
            seen_main := main_q (broker w); seen_proc := proc_q (broker w) |};
         {| ev := EvFind Skills;
            seen_main := main_q (broker w); seen_proc := proc_q (broker w) |};
         {| ev := EvFind Resources;
            seen_main := main_q (broker w); seen_proc := proc_q (broker w) |};
         {| ev := EvUpdateOne (map lower is_) (result_fields recs (clock w)) true;
            seen_main := main_q (broker w); seen_proc := proc_q (broker w) |} ]).
Proof.
  intros HC Hu Hvu Hi Hvi Hfu Hfi Hmf Hsk Hrs Hgoals.
  destruct (goals_of idp) as [gs|] eqn:Hgs; [clear Hgoals|congruence].
  destruct (skill_map_exists _ Hsk) as (skill_map & Hmap).
  set (enriched := map (enrich_resource skill_map) (resources (store w))).
  set (user_skills := match dict_get (lit "skills") user with
                      | Some v => v | None => PList [] end).
  destruct (mapping_returns _ _ HC (skills (store w))) as (idx & Hidx).
  destruct (matrix_returns _ _ HC (skills (store w))) as (mat & Hmat).
  destruct (features_return _ _ HC enriched) as (feats & Hfeats).
  destruct (rank_returns _ _ HC enriched user_skills (map default_gap_entry gs)
              feats mat idx) as (items & Hrank & Hitems & Hsorted).
  assert (Htop : Forall (ranked_item enriched) (firstn 10 items)).
  { apply Forall_forall. intros it Hin. rewrite Forall_forall in Hitems.
    apply Hitems. exact (firstn_incl _ _ _ Hin). }
  destruct (rmap_format_rec _ _ _ Hrs Htop) as (recs & Hrecs & Hfmt).
  destruct (find_some_in _ _ _ Hfu) as [_ Hidu].
  destruct (find_some_in _ _ _ Hfi) as [_ Hidi].
  destruct (result_fields_set recs (clock w) idp) as (_ & _ & _ & Hg4).
  assert (Hidi' : id_is (map lower is_)
                    (apply_set (result_fields recs (clock w)) idp) = true).
  { unfold id_is in *. rewrite Hg4. exact Hidi. }
  destruct (update_first_found _ (result_fields recs (clock w)) _ _ Hfi Hidi')
    as (idps' & Hupd & Hfind').
  exists items, recs, idps'.
  split; [exists skill_map, gs, idx, mat, feats; repeat split; assumption|].
  split; [exact Hsorted|]. split; [exact Hrecs|]. split; [exact Hfmt|].
  split; [exact Hupd|]. split; [exact Hfind'|].
  unfold process_job, try_except, process_job_body.
  rewrite (bind_lift_ok _ _ _ (PStr us)) by (cbn [py_get]; rewrite Hu; reflexivity).
  rewrite (bind_lift_ok _ _ _ (PStr is_)) by (cbn [py_get]; rewrite Hi; reflexivity).
  rewrite (bind_lift_ok _ _ _ tt) by (apply print_ids; assumption).
  rewrite (bind_returned _ _ _ _ _ _ (ObjectId_str _ _ Hvu)).
  rewrite (bind_returned _ _ _ _ _ _ (find_one_ok Users _ _ Hmf)).
  cbn [coll]. rewrite Hfu.
  rewrite (bind_returned _ _ _ _ _ _ (ObjectId_str _ _ Hvi)).
  rewrite (bind_returned _ _ _ _ _ _ (find_one_ok Idps _ _ Hmf)).
  cbn [coll]. rewrite Hfi.
  rewrite (bind_returned _ _ _ _ _ _ (find_all_ok Skills _ Hmf)).
  rewrite (bind_returned _ _ _ _ _ _ (find_all_ok Resources _ Hmf)).
  cbn [coll].
  rewrite (bind_lift_ok _ _ _ skill_map) by exact Hmap.
  cbv zeta.
  rewrite (id_is_nonempty _ _ Hidu), (id_is_nonempty _ _ Hidi).
  cbn [negb orb].
  rewrite (bind_lift_ok _ _ _ user_skills) by reflexivity.
  pose proof (goals_iter _ _ Hgs) as Hiter. cbn [py_get rbind] in Hiter.
  rewrite (bind_lift_ok _ _ _ (match dict_get (lit "goals") idp with
                               | Some x => x
                               | None => PList []
                               end)) by reflexivity.
  rewrite (bind_lift_ok _ _ _ (map PDict gs)) by exact Hiter.
  rewrite (bind_lift_ok _ _ _ (map default_gap_entry gs))
    by apply rmap_skill_gap.
  rewrite (bind_lift_ok _ _ _ idx) by exact Hidx.
  rewrite (bind_lift_ok _ _ _ mat) by exact Hmat.
  rewrite (bind_lift_ok _ _ _ feats) by exact Hfeats.
  rewrite (bind_lift_ok _ _ _ (PList items)) by exact Hrank.
  rewrite (bind_lift_ok _ _ _ (PList (firstn 10 items))) by reflexivity.
  rewrite (bind_lift_ok _ _ _ (firstn 10 items)) by reflexivity.
  rewrite (bind_lift_ok _ _ _ recs) by exact Hrecs.
  rewrite (bind_returned _ _ _ _ _ _ (ObjectId_str _ _ Hvi)).
  rewrite (bind_returned _ _ _ _ _ _ (utcnow_run _)).
  set (w0 := with_time (clock w + hd 0 (time_passes w)) (tl (time_passes w)) w).
  pose proof (update_ok (map lower is_) (result_fields recs (clock w)) w0 idps'
                Hmf Hupd) as Hrun.
  unfold result_fields in Hrun. rewrite Hrun.
  cbv beta iota zeta. reflexivity.
Qed.

End Success.

(* ================================================================== *)
(** * Part III. The claims *)
(* ================================================================== *)

Section Claims.

Context {E : Externals}.

(** C1. On a non-empty main queue [rest ++ [x]] the dequeue is one step of
    the broker: it takes [x] off the consumer's end and puts it at the head of
    the processing buffer, and nothing is observed in between.  The entries of
    the two queues taken together are the same before and after, so no entry
    is lost or doubled (and when the entries are pairwise distinct none is in
    both queues).  Through the rest of the turn, every observation made before
    the acknowledgment shows [x] in the processing buffer, both queues
    otherwise untouched; if the turn ends without the acknowledgment, [x] is
    still there. *)
Theorem dequeue_stages_atomically w rest x :
  main_q (broker w) = rest ++ [x] ->
  hd false (redis_faults (broker w)) = false ->
  let p := proc_q (broker w) in
  (exists w1,
     brpoplpush w = (Returned x, w1, [pop_obs x rest p]) /\
     main_q (broker w1) = rest /\ proc_q (broker w1) = x :: p /\
     store w1 = store w) /\
  exists w' mid fin,
    iteration w = (Returned tt, w', pop_obs x rest p :: mid ++ fin) /\
    Forall (fun ob =>
              In x (seen_proc ob) /\
              seen_main ob = rest /\ seen_proc ob = x :: p /\
              is_lrem (ev ob) = false /\
              Permutation (seen_main ob ++ seen_proc ob)
                          (main_q (broker w) ++ p) /\
              (NoDup (main_q (broker w) ++ p) ->
               NoDup (seen_main ob ++ seen_proc ob)))
           (pop_obs x rest p :: mid) /\
    main_q (broker w') = rest /\
    ((fin = [] /\ proc_q (broker w') = x :: p) \/
     (fin = [ack_obs x rest p] /\ proc_q (broker w') = p)).
Proof.
  intros Hq Hf p. split.
  - destruct (brpoplpush_moves w rest x Hq Hf)
      as (w1 & H & Hm & Hp & _ & Hs & _).
    exists w1. repeat split; assumption.
  - destruct (turn_shape w rest x Hq Hf) as (w' & mid & fin & H & Hmid & Hm & Hfin).
    exists w', mid, fin. split; [exact H|]. split; [|split; assumption].
    assert (Hview : forall ob, seen_main ob = rest -> seen_proc ob = x :: p ->
              is_lrem (ev ob) = false ->
              In x (seen_proc ob) /\
              seen_main ob = rest /\ seen_proc ob = x :: p /\
              is_lrem (ev ob) = false /\
              Permutation (seen_main ob ++ seen_proc ob)
                          (main_q (broker w) ++ p) /\
              (NoDup (main_q (broker w) ++ p) ->
               NoDup (seen_main ob ++ seen_proc ob))).
    { intros ob H1 H2 H3. rewrite H1, H2, Hq.
      repeat split; try assumption; try reflexivity.
      - left. reflexivity.
      - apply moved_permutation.
      - intros Hnd. eapply Permutation_NoDup; [|exact Hnd].
        symmetry. apply moved_permutation. }
    constructor.
    + apply Hview; reflexivity.
    + eapply Forall_impl; [|exact Hmid].
      intros ob [[H1 H2] H3]. apply Hview; try assumption.
      destruct (ev ob); try reflexivity; discriminate.
Qed.

(** C2. Whatever it is given, and whatever the store and the pipeline do,
    [process_job] comes back normally; it leaves the two queues alone. *)
Theorem process_job_never_raises job w :
  exists w' t,
    process_job job w = (Returned tt, w', t) /\ broker w' = broker w.
Proof.
  destruct (process_job_returns job w) as (w' & t & H & Hb & _).
  exists w', t. split; assumption.
Qed.

(** C3, where the code falls short.  The payload made of the byte 0xFF is
    not text, so it cannot decode into an envelope.  The turn that dequeues
    it raises [UnicodeDecodeError], which is not a [JSONDecodeError]: no
    acknowledgment is sent, the worker sleeps, and the payload stays in the
    processing buffer. *)
Theorem undecodable_payload_not_purged :
  utf8_decode not_utf8 = None /\
  exists w',
    iteration (E := sample_externals) (sample_world [not_utf8] []) =
      (Returned tt, w',
       [pop_obs not_utf8 [] [];
        {| ev := EvSleep 1; seen_main := []; seen_proc := [not_utf8] |}]) /\
    proc_q (broker w') = [not_utf8].
Proof.
  split; [reflexivity|]. eexists. split; reflexivity.
Qed.

(** C4, as first stated, fails.  The job names the user and the IDP of the
    small store, both lookups return their record, and yet nothing is
    written and the IDP has no [suggestedResources] afterwards: when the
    store stops answering before the write, when the IDP's goals are not
    objects, and when the ranker raises.  Each time [process_job] swallows
    the exception and comes back. *)
Lemma resolved_job_may_write_nothing :
  find (id_is u1) (users sample_store) = Some sample_user /\
  find (id_is i1) (idps sample_store) = Some sample_idp /\
  dict_get (lit "suggestedResources") sample_idp = None /\
  dict_get (lit "suggestedResources") titled_idp = None /\
  (exists w' t,
     process_job (E := sample_externals) (PDict good_job_data) write_down_world
       = (Returned tt, w', t) /\
     map ev t = [ EvFindOne Users u1 (PDict sample_user);
                  EvFindOne Idps i1 (PDict sample_idp);
                  EvFind Skills; EvFind Resources ] /\
     idps (store w') = [sample_idp]) /\
  (exists w' t,
     process_job (E := sample_externals) (PDict good_job_data) titled_world
       = (Returned tt, w', t) /\
     map ev t = [ EvFindOne Users u1 (PDict sample_user);
                  EvFindOne Idps i1 (PDict titled_idp);
                  EvFind Skills; EvFind Resources ] /\
     idps (store w') = [titled_idp]) /\
  (exists w' t,
     process_job (E := failing_externals) (PDict good_job_data)
                 (sample_world [] [])
       = (Returned tt, w', t) /\
     map ev t = [ EvFindOne Users u1 (PDict sample_user);
                  EvFindOne Idps i1 (PDict sample_idp);
                  EvFind Skills; EvFind Resources ] /\
     idps (store w') = [sample_idp]).
Proof.
  do 4 (split; [reflexivity|]).
  split; [|split]; do 2 eexists; repeat split; reflexivity.
Qed.

(** C4, as amended.  For a job whose two ids name a user and an IDP of the
    store, with the store answering, every skill and resource carrying its
    id, the IDP's goals absent or a list of objects, and the pipeline
    keeping its contract: [process_job] sends exactly one update, to that
    IDP, setting the result list, the status ["active"] and the time
    together.  The list is made from the first ten ranked items, so it has
    at most ten entries, in the pipeline's order of descending score; each
    entry is [{resource, score, reason}], its resource the id of a fetched
    resource and its reason the pipeline's or, failing that, the sentence
    ["Recommended based on your goals"]. *)
Theorem result_list_is_wellformed (score_ge : pyval -> pyval -> Prop)
  jd us is_ user idp w :
  adapter_contract E score_ge ->
  dict_get (lit "userId") jd = Some (PStr us) -> valid_oid us = true ->
  dict_get (lit "idpId") jd = Some (PStr is_) -> valid_oid is_ = true ->
  find (id_is (map lower us)) (users (store w)) = Some user ->
  find (id_is (map lower is_)) (idps (store w)) = Some idp ->
  mongo_faults (store w) = [] ->
  forallb has_id (skills (store w)) = true ->
  forallb has_id (resources (store w)) = true ->
  goals_of idp <> None ->
  exists items recs w' t,
    process_job (PDict jd) w = (Returned tt, w', t) /\
    pipeline_output w user idp items /\
    Forall2 (formatted_from (resources (store w))) (firstn 10 items) recs /\
    (List.length recs <= 10)%nat /\
    Sorted score_ge (map entry_score recs) /\
    map ev t =
      [ EvFindOne Users (map lower us) (PDict user);
        EvFindOne Idps (map lower is_) (PDict idp);
        EvFind Skills; EvFind Resources;
        EvUpdateOne (map lower is_) (result_fields recs (clock w)) true ] /\
    users (store w') = users (store w) /\
    skills (store w') = skills (store w) /\
    resources (store w') = resources (store w) /\
    update_first (map lower is_) (result_fields recs (clock w)) (idps (store w))
      = Some (idps (store w')) /\
    find (id_is (map lower is_)) (idps (store w'))
      = Some (apply_set (result_fields recs (clock w)) idp) /\
    dict_get (lit "suggestedResources")
             (apply_set (result_fields recs (clock w)) idp) = Some (PList recs) /\
    dict_get (lit "status")
             (apply_set (result_fields recs (clock w)) idp)
      = Some (PStr (lit "active")) /\
    dict_get (lit "updatedAt")
             (apply_set (result_fields recs (clock w)) idp)
      = Some (PDatetime (clock w)).
Proof.
  intros HC Hu Hvu Hi Hvi Hfu Hfi Hmf Hsk Hrs Hgoals.
  destruct (success_run score_ge jd us is_ user idp w
              HC Hu Hvu Hi Hvi Hfu Hfi Hmf Hsk Hrs Hgoals)
    as (items & recs & idps' & Hout & Hsorted & Hrecs & Hfmt & Hupd & Hfind'
        & Hrun).
  destruct (result_fields_set recs (clock w) idp) as (Hg1 & Hg2 & Hg3 & _).
  exists items, recs. do 2 eexists. split; [exact Hrun|].
  split; [exact Hout|]. split; [exact Hfmt|].
  assert (Hlen : List.length recs = List.length (firstn 10 items)).
  { symmetry. eapply Forall2_length. exact Hfmt. }
  split; [rewrite Hlen; apply firstn_le_length|].
  split.
  { rewrite (formatted_scores _ _ _ Hfmt), <- firstn_map.
    apply Sorted_firstn, Hsorted. }
  split; [reflexivity|].
  cbn [with_store store users skills resources idps].
  repeat split; assumption.
Qed.



(** C6, as first stated, fails.  A goal that says gap 0.9, current level 3
    and target level 4 still gets the entry with 0.5, 1 and 5. *)
Lemma explicit_gap_is_ignored :
  dict_get (lit "gap") explicit_goal = Some (PFloat (lit "0.9")) /\
  dict_get (lit "currentLevel") explicit_goal = Some (PInt 3) /\
  dict_get (lit "targetLevel") explicit_goal = Some (PInt 4) /\
  exists entry,
    skill_gap (E := sample_externals) (PDict explicit_goal) = Ok (PDict entry) /\
    dict_get (lit "gap") entry = Some (PFloat (lit "0.5")) /\
    dict_get (lit "currentLevel") entry = Some (PInt 1) /\
    dict_get (lit "targetLevel") entry = Some (PInt 5) /\
    dict_get (lit "gap") entry <> dict_get (lit "gap") explicit_goal /\
    dict_get (lit "currentLevel") entry <> dict_get (lit "currentLevel") explicit_goal /\
    dict_get (lit "targetLevel") entry <> dict_get (lit "targetLevel") explicit_goal.
Proof.
  repeat split; try reflexivity.
  eexists. repeat split; try reflexivity; vm_compute; discriminate.
Qed.

(** C6, as amended.  Every goal of the list gives one Skill Gap entry, in
    order, made of [str] of the goal's skill and of the constants 0.5, 1 and
    5, whatever gap or levels the goal itself carries. *)
Theorem skill_gaps_are_the_defaults (gs : list dict) :
  (let* goals := py_iter (PList (map PDict gs)) in rmap skill_gap goals)
  = Ok (map default_gap_entry gs) /\
  List.length (map default_gap_entry gs) = List.length gs /\
  Forall (fun entry =>
            exists d, entry = PDict d /\
              map fst d = [lit "skillId"; lit "gap"; lit "currentLevel";
                           lit "targetLevel"] /\
              dict_get (lit "gap") d = Some (PFloat (lit "0.5")) /\
              dict_get (lit "currentLevel") d = Some (PInt 1) /\
              dict_get (lit "targetLevel") d = Some (PInt 5))
         (map default_gap_entry gs).
Proof.
  split; [|split].
  - cbn [py_iter rbind].
    induction gs as [|g gs IH]; [reflexivity|].
    cbn [map rmap]. rewrite IH. reflexivity.
  - apply length_map.
  - apply Forall_forall. intros entry Hin. apply in_map_iff in Hin.
    destruct Hin as (g & <- & _). eexists. split; [reflexivity|].
    repeat split; reflexivity.
Qed.

(** C7. When the body of the [try] raises anything but a JSON decoding
    error, the turn sends no acknowledgment, sleeps one second, and goes back
    to the dequeue; an entry that had been staged stays at the head of the
    processing buffer. *)
Theorem unexpected_exception_parks_job w e w2 t :
  try_block w = (Raised e, w2, t) ->
  is_JSONDecodeError e = false ->
  iteration w = (Returned tt, with_clock (clock w2 + 1) w2, t ++ [sleep_obs 1 w2]) /\
  Forall (fun ob => is_lrem (ev ob) = false) t /\
  (forall rest x,
     main_q (broker w) = rest ++ [x] ->
     hd false (redis_faults (broker w)) = false ->
     main_q (broker w2) = rest /\ proc_q (broker w2) = x :: proc_q (broker w) /\
     seen_proc (sleep_obs 1 w2) = x :: proc_q (broker w)).
Proof.
  intros Ht He.
  assert (Hit : iteration w =
                (Returned tt, with_clock (clock w2 + 1) w2, t ++ [sleep_obs 1 w2])).
  { unfold iteration, try_except. rewrite Ht, He. reflexivity. }
  split; [exact Hit|].
  assert (Hstaged : forall rest x,
            main_q (broker w) = rest ++ [x] ->
            hd false (redis_faults (broker w)) = false ->
            exists mid, t ++ [sleep_obs 1 w2] =
                        pop_obs x rest (proc_q (broker w)) :: mid /\
                        Forall (staged_view x rest (proc_q (broker w))) mid /\
                        main_q (broker w2) = rest /\
                        proc_q (broker w2) = x :: proc_q (broker w)).
  { intros rest x Hq Hf.
    destruct (turn_shape w rest x Hq Hf) as (w' & mid & fin & H & Hmid & Hm & Hfin).
    rewrite Hit in H. injection H as Hw Htr. subst w'.
    destruct Hfin as [[-> Hp]|[-> Hp]].
    - exists mid. rewrite app_nil_r in Htr. repeat split; assumption.
    - exfalso. change (pop_obs x rest (proc_q (broker w)) :: mid ++ [ack_obs x rest (proc_q (broker w))])
        with ((pop_obs x rest (proc_q (broker w)) :: mid) ++ [ack_obs x rest (proc_q (broker w))]) in Htr.
      apply app_inj_tail in Htr. destruct Htr as [_ Htr]. discriminate Htr. }
  split.
  - destruct (brpoplpush_cases w)
      as [(w1 & H & _)|[[Hf Hq]|(Hf & rest & x & Hq)]].
    + unfold try_block in Ht. rewrite (bind_raised _ _ _ _ _ _ H) in Ht.
      injection Ht as _ _ <-. constructor.
    + destruct (brpoplpush_empty w Hq Hf) as (w1 & H).
      unfold try_block, bind in Ht. rewrite H in Ht. discriminate.
    + destruct (Hstaged rest x Hq Hf) as (mid & Htr & Hmid & _).
      assert (Hall : Forall (fun ob => is_lrem (ev ob) = false)
                            (t ++ [sleep_obs 1 w2])).
      { rewrite Htr. constructor; [reflexivity|].
        eapply Forall_impl; [|exact Hmid]. intros ob [_ H].
        destruct (ev ob); try reflexivity; discriminate. }
      apply Forall_app in Hall. apply Hall.
  - intros rest x Hq Hf.
    destruct (Hstaged rest x Hq Hf) as (mid & _ & _ & Hm & Hp).
    repeat split; assumption.
Qed.

(** C8. No turn of the loop lets an exception out: it either comes back to
    the head of the loop or waits in the dequeue on an empty queue.  So no
    number of turns ends the loop. *)
Theorem loop_never_exits :
  (forall w e w' t, iteration w <> (Raised e, w', t)) /\
  (forall n w e w' t, start_worker n w <> (Raised e, w', t)) /\
  (forall w w' t, iteration w = (Blocked, w', t) -> main_q (broker w) = []).
Proof.
  assert (H1 : forall w e w' t, iteration w <> (Raised e, w', t)).
  { intros w e w' t H.
    destruct (iteration_cases w) as [(w1 & t1 & H1)|(_ & w1 & H1)];
      rewrite H1 in H; discriminate. }
  split; [exact H1|]. split.
  - induction n as [|n IH]; intros w e w' t H; [discriminate|].
    cbn [start_worker] in H. unfold bind in H.
    destruct (iteration w) as [[o w1] t1] eqn:Hi.
    destruct o as [[]|e1|].
    + destruct (start_worker n w1) as [[o2 w2] t2] eqn:Hs.
      injection H as -> -> _. exact (IH _ _ _ _ Hs).
    + exact (H1 _ _ _ _ Hi).
    + discriminate.
  - intros w w' t H.
    destruct (iteration_cases w) as [(w1 & t1 & H2)|(Hq & _)]; [|exact Hq].
    rewrite H2 in H. discriminate.
Qed.

(** C9. Enrichment touches nothing but the [skill] field: a resource keeps
    its keys, in order, and the value of every other key.  The resource is
    left as it is when its [skill] is absent or is anything but a bare
    ObjectId, and when it is an ObjectId that no fetched skill is named by;
    when some fetched skill is named by it, the field becomes a fetched skill
    of that name. *)
Theorem enrichment_only_fills_skill all_skills skill_map (r : dict) :
  build_skill_map all_skills = Ok skill_map ->
  let r' := enrich_resource skill_map r in
  map fst r' = map fst r /\
  (forall k, k <> lit "skill" -> dict_get k r' = dict_get k r) /\
  ((forall o, dict_get (lit "skill") r <> Some (PObjectId o)) -> r' = r) /\
  (forall o, dict_get (lit "skill") r = Some (PObjectId o) ->
     (forall sk, ~ skill_named o all_skills sk) -> r' = r) /\
  (forall o sk, dict_get (lit "skill") r = Some (PObjectId o) ->
     skill_named o all_skills sk ->
     exists sk', skill_named o all_skills sk' /\
                 dict_get (lit "skill") r' = Some (PDict sk')).
Proof.
  intros Hmap r'. subst r'. unfold enrich_resource.
  destruct (dict_get (lit "skill") r) as [v|] eqn:Hs.
  2:{ cbn. repeat split; auto; intros; discriminate. }
  destruct (is_ObjectId v) eqn:Hv.
  2:{ rewrite andb_false_r. repeat split; auto.
      intros o sk Ho. injection Ho as ->. discriminate. }
  destruct v; try discriminate Hv. cbn [py_truthy andb py_str].
  destruct (dict_get o skill_map) as [skv|] eqn:Hk.
  - destruct (skill_map_sound _ _ Hmap _ _ Hk) as (sk' & -> & Hnamed).
    split; [apply dict_set_keys; congruence|].
    split; [intros k Hne; apply dict_get_set_other; exact Hne|].
    split; [intros Hno; exfalso; exact (Hno o eq_refl)|].
    split.
    + intros o' Ho Hnone. injection Ho as <-. exfalso. exact (Hnone _ Hnamed).
    + intros o' sk Ho _. injection Ho as <-. exists sk'.
      split; [exact Hnamed|apply dict_get_set_same].
  - repeat split; auto.
    intros o' sk Ho Hnamed. injection Ho as <-. exfalso.
    exact (skill_map_complete _ _ Hmap _ _ Hnamed Hk).
Qed.



End Claims.

(* ================================================================== *)
(** * Part IV. The claims at work on the small store *)
(* ================================================================== *)

Lemma sorted_ones_zeros {A B} (l1 : list A) (l2 : list B) :
  Sorted int_ge (map (fun _ => PInt 1) l1 ++ map (fun _ => PInt 0) l2).
Proof.
  induction l1 as [|a l1 IH]; cbn [map app].
  - induction l2 as [|b l2 IH2]; cbn [map]; constructor; [exact IH2|].
    destruct l2; constructor. cbn. lia.
  - constructor; [exact IH|].
    destruct l1 as [|a' l1]; cbn [map app].
    + destruct l2; constructor. cbn. lia.
    + constructor. cbn. lia.
Qed.

(** The small adapter keeps the contract of the pipeline. *)
Lemma sample_contract : adapter_contract sample_externals int_ge.
Proof.
  constructor; try (intros; eexists; reflexivity).
  intros rs us gaps feats mat idx. eexists. split; [reflexivity|]. split.
  - apply Forall_app. split; apply Forall_forall; intros item Hin;
      apply in_map_iff in Hin; destruct Hin as (r & <- & Hr);
      apply filter_In in Hr; destruct Hr as [Hr _];
      do 4 eexists; (split; [reflexivity|]);
      (split; [reflexivity|]); (split; [exact Hr|]); split; reflexivity.
  - rewrite map_app, !map_map.
    rewrite (map_ext _ (fun _ => PInt 1)) by reflexivity.
    rewrite (map_ext (fun r => entry_score _) (fun _ => PInt 0)) by reflexivity.
    apply sorted_ones_zeros.
Qed.

Lemma dequeue_stages_atomically_witness :
  let w := sample_world [good_job] [data_null] in
  main_q (broker w) = [] ++ [good_job] /\
  hd false (redis_faults (broker w)) = false /\
  exists w' mid fin,
    iteration (E := sample_externals) w
      = (Returned tt, w', pop_obs good_job [] [data_null] :: mid ++ fin) /\
    Forall (fun ob => In good_job (seen_proc ob)) mid.
Proof.
  intros w. split; [reflexivity|]. split; [reflexivity|].
  destruct (dequeue_stages_atomically (E := sample_externals) w [] good_job
              eq_refl eq_refl) as (_ & w' & mid & fin & H & Hall & _).
  exists w', mid, fin. split; [exact H|].
  apply Forall_inv_tail in Hall.
  eapply Forall_impl; [|exact Hall]. intros ob Hob. apply Hob.
Defined.

Lemma unexpected_exception_parks_job_witness :
  let w := sample_world [data_null] [] in
  exists w2 t,
    try_block (E := sample_externals) w = (Raised AttributeError, w2, t) /\
    is_JSONDecodeError AttributeError = false /\
    iteration (E := sample_externals) w
      = (Returned tt, with_clock (clock w2 + 1) w2, t ++ [sleep_obs 1 w2]) /\
    proc_q (broker w2) = [data_null].
Proof.
  intros w. do 2 eexists. split; [reflexivity|]. split; [reflexivity|].
  match goal with
  | |- iteration _ = (_, with_clock _ ?w2, ?t ++ _) /\ _ =>
    destruct (unexpected_exception_parks_job (E := sample_externals) w
                AttributeError w2 t eq_refl eq_refl) as (H & _ & Hq)
  end.
  split; [exact H|].
  exact (proj1 (proj2 (Hq [] data_null eq_refl eq_refl))).
Defined.



(** The run behind the witness: the lookup of the IDP comes back empty and
    no update is sent; the payload is acknowledged all the same. *)
Example missing_idp_run :
  exists w' u,
    iteration (E := sample_externals) (sample_world [missing_idp_job] []) =
      (Returned tt, w',
       [ pop_obs missing_idp_job [] [];
         {| ev := EvFindOne Users u1 (PDict u); seen_main := [];
            seen_proc := [missing_idp_job] |};
         {| ev := EvFindOne Idps (lit "507f1f77bcf86cd799439099") PNone;
            seen_main := []; seen_proc := [missing_idp_job] |};
         {| ev := EvFind Skills; seen_main := []; seen_proc := [missing_idp_job] |};
         {| ev := EvFind Resources; seen_main := [];
            seen_proc := [missing_idp_job] |};
         ack_obs missing_idp_job [] [] ]) /\
    store w' = sample_store.
Proof. do 2 eexists. split; reflexivity. Qed.

Lemma enrichment_only_fills_skill_witness :
  exists skill_map r,
    build_skill_map (E := sample_externals) (skills sample_store) = Ok skill_map /\
    hd_error (resources sample_store) = Some r /\
    map fst (enrich_resource (E := sample_externals) skill_map r) = map fst r /\
    dict_get (lit "title") (enrich_resource (E := sample_externals) skill_map r)
      = dict_get (lit "title") r.
Proof.
  do 2 eexists. split; [reflexivity|]. split; [reflexivity|].
  match goal with
  | |- map fst (enrich_resource ?m ?r) = _ /\ _ =>
    destruct (enrichment_only_fills_skill (E := sample_externals)
                (skills sample_store) m r eq_refl) as (Hk & Ho & _)
  end.
  split; [exact Hk|]. apply Ho. apply lit_neq. reflexivity.
Defined.

Lemma result_list_is_wellformed_witness :
  let w := sample_world [] [] in
  adapter_contract sample_externals int_ge /\
  dict_get (lit "userId") good_job_data = Some (PStr u1) /\
  valid_oid u1 = true /\
  dict_get (lit "idpId") good_job_data = Some (PStr i1) /\
  valid_oid i1 = true /\
  find (id_is (map lower u1)) (users (store w)) = Some sample_user /\
  find (id_is (map lower i1)) (idps (store w)) = Some sample_idp /\
  mongo_faults (store w) = [] /\
  forallb has_id (skills (store w)) = true /\
  forallb has_id (resources (store w)) = true /\
  goals_of sample_idp <> None /\
  exists recs w' t,
    process_job (E := sample_externals) (PDict good_job_data) w
      = (Returned tt, w', t) /\
    (List.length recs <= 10)%nat /\
    Sorted int_ge (map entry_score recs) /\
    find (id_is (map lower i1)) (idps (store w'))
      = Some (apply_set (result_fields recs (clock w)) sample_idp).
Proof.
  intros w. split; [exact sample_contract|].
  do 9 (split; [reflexivity|]).
  assert (Hg : goals_of sample_idp <> None) by (vm_compute; discriminate).
  split; [exact Hg|].
  destruct (result_list_is_wellformed (E := sample_externals) int_ge
              good_job_data u1 i1 sample_user sample_idp w
              sample_contract eq_refl eq_refl eq_refl eq_refl eq_refl eq_refl
              eq_refl eq_refl eq_refl Hg)
    as (items & recs & w' & t & H & _ & _ & Hlen & Hsorted & _ & _ & _ & _ & _ & Hfind & _).
  exists recs, w', t. repeat split; assumption.
Defined.

(** The run behind the witness: the resource of the goal's skill comes
    first, and the IDP ends up active. *)
Example good_job_run :
  exists w' idp',
    process_job (E := sample_externals) (PDict good_job_data) (sample_world [] [])
      = (Returned tt, w',
         [ {| ev := EvFindOne Users u1 (PDict sample_user); seen_main := [];
              seen_proc := [] |};
           {| ev := EvFindOne Idps i1 (PDict sample_idp); seen_main := [];
              seen_proc := [] |};
           {| ev := EvFind Skills; seen_main := []; seen_proc := [] |};
           {| ev := EvFind Resources; seen_main := []; seen_proc := [] |};
           {| ev := EvUpdateOne i1
                      (result_fields
                         [ PDict [ (lit "resource", PObjectId r1);
                                   (lit "score", PInt 1);
                                   (lit "reason", PStr (lit "Matches a goal")) ];
                           PDict [ (lit "resource", PObjectId r2);
                                   (lit "score", PInt 0);
                                   (lit "reason",
                                    PStr (lit "Recommended based on your goals")) ] ]
                         1700000000) true;
              seen_main := []; seen_proc := [] |} ]) /\
    idps (store w') = [idp'] /\
    dict_get (lit "status") idp' = Some (PStr (lit "active")).
Proof. do 2 eexists. repeat split; reflexivity. Qed.

(** [process_job] on what is not a job: [None], a job with no ids, a job
    whose user id is not an ObjectId.  It comes back each time, and the IDPs
    are as they were. *)
Example process_job_on_bad_input :
  let w := sample_world [] [] in
  process_job (E := sample_externals) PNone w = (Returned tt, w, []) /\
  (exists w' t,
     process_job (E := sample_externals) (PDict []) w = (Returned tt, w', t) /\
     map ev t = [ EvFindOne Users zero_oid PNone; EvFindOne Idps zero_oid PNone;
                  EvFind Skills; EvFind Resources ] /\
     idps (store w') = idps (store w)) /\
  process_job (E := sample_externals)
    (PDict [(lit "userId", PStr (lit "xyz")); (lit "idpId", PStr i1)]) w
  = (Returned tt, w, []).
Proof.
  split; [reflexivity|]. split; [|reflexivity].
  do 2 eexists. repeat split; reflexivity.
Qed.

(** Three payloads in a row: one that is not JSON is purged, an empty object
    is acknowledged, a JSON list is left parked; the fourth turn waits on
    the empty queue. *)
Example three_turns :
  exists w' t,
    start_worker (E := sample_externals) 4
      (sample_world ["not json"; "{}"; "[]"]%string []) = (Blocked, w', t) /\
    map ev t =
      [ EvBrpoplpush "[]"; EvSleep 1;
        EvBrpoplpush "{}"; EvLrem "{}" 1;
        EvBrpoplpush "not json"; EvLrem "not json" 1 ] /\
    main_q (broker w') = [] /\ proc_q (broker w') = ["[]"%string].
Proof.
  do 2 eexists. split; [vm_compute; reflexivity|]. repeat split; reflexivity.
Qed.

(* ================================================================== *)
(** * Part V. More of the worker *)
(* ================================================================== *)

(** ** What a turn takes and what it gives back *)

Lemma pops_app t1 t2 : pops (t1 ++ t2) = pops t1 ++ pops t2.
Proof. apply flat_map_app. Qed.

Lemma acks_app t1 t2 : acks (t1 ++ t2) = acks t1 ++ acks t2.
Proof. apply flat_map_app. Qed.

Lemma staged_views_are_quiet x rest p mid :
  Forall (staged_view x rest p) mid -> pops mid = [] /\ acks mid = [].
Proof.
  induction 1 as [|ob mid [_ Hq] _ [IH1 IH2]]; [split; reflexivity|].
  unfold pops, acks in *. cbn [flat_map]. rewrite IH1, IH2.
  destruct (ev ob); try discriminate Hq; split; reflexivity.
Qed.

Lemma brpoplpush_waits w :
  main_q (broker w) = [] ->
  hd false (redis_faults (broker w)) = false ->
  exists w1,
    brpoplpush w = (Blocked, w1, []) /\
    main_q (broker w1) = [] /\ proc_q (broker w1) = proc_q (broker w) /\
    store w1 = store w /\ clock w1 = clock w.
Proof.
  intros Hq Hf.
  destruct (redis_call_ok w Hf) as (w0 & Hc & Hm & Hp & _ & Hs & _ & Hcl & _).
  unfold brpoplpush. rewrite (bind_returned _ _ _ _ _ _ Hc).
  rewrite Hm, Hq. simpl. exists w0. rewrite <- Hq, <- Hm.
  repeat split; assumption.
Qed.

(** ** A broker that stays up *)

Lemma keeps_up_ret {A} (a : A) : keeps_broker_up (ret a).
Proof. intros w o w' t H Hf. injection H as <- <- <-. exact Hf. Qed.

Lemma keeps_up_bind {A B} (m : M A) (k : A -> M B) :
  keeps_broker_up m -> (forall a, keeps_broker_up (k a)) ->
  keeps_broker_up (bind m k).
Proof.
  intros Hm Hk w o w' t H Hf. unfold bind in H.
  destruct (m w) as [[o1 w1] t1] eqn:E1.
  pose proof (Hm _ _ _ _ E1 Hf) as Hf1.
  destruct o1 as [a|e|]; try (injection H as <- <- <-; exact Hf1).
  destruct (k a w1) as [[o2 w2] t2] eqn:E2.
  injection H as <- <- <-. exact (Hk _ _ _ _ _ E2 Hf1).
Qed.

Lemma keeps_up_try {A} (m : M A) (h : exn -> M A) :
  keeps_broker_up m -> (forall e, keeps_broker_up (h e)) ->
  keeps_broker_up (try_except m h).
Proof.
  intros Hm Hh w o w' t H Hf. unfold try_except in H.
  destruct (m w) as [[o1 w1] t1] eqn:E1.
  pose proof (Hm _ _ _ _ E1 Hf) as Hf1.
  destruct o1 as [a|e|]; try (injection H as <- <- <-; exact Hf1).
  destruct (h e w1) as [[o2 w2] t2] eqn:E2.
  injection H as <- <- <-. exact (Hh _ _ _ _ _ E2 Hf1).
Qed.

Lemma keeps_up_store_side {A} (m : M A) : store_side m -> keeps_broker_up m.
Proof.
  intros Hm w o w' t H Hf. destruct (Hm _ _ _ _ H) as (_ & Hb & _).
  rewrite Hb. exact Hf.
Qed.

Lemma keeps_up_redis_call : keeps_broker_up redis_call.
Proof.
  intros w o w' t H Hf. unfold redis_call in H. rewrite Hf in H.
  injection H as <- <- <-. exact Hf.
Qed.

Lemma keeps_up_brpoplpush : keeps_broker_up brpoplpush.
Proof.
  apply keeps_up_bind; [apply keeps_up_redis_call|].
  intros _ w o w' t H Hf. cbv beta in H.
  destruct (rpop (main_q (broker w))) as [[r x]|];
    injection H as <- <- <-; exact Hf.
Qed.

Lemma keeps_up_lrem v : keeps_broker_up (lrem v).
Proof.
  apply keeps_up_bind; [apply keeps_up_redis_call|].
  intros _ w o w' t H Hf. cbv beta in H.
  destruct (remove_first v (proc_q (broker w)));
    injection H as <- <- <-; exact Hf.
Qed.

Lemma keeps_up_sleep n : keeps_broker_up (sleep n).
Proof. intros w o w' t H Hf. injection H as <- <- <-. exact Hf. Qed.

Section Turns.

Context {E : Externals}.

(** A turn either takes nothing and leaves both queues alone, or takes the
    entry at the consumer's end and then either acknowledges it or leaves it
    at the head of the processing buffer. *)
Lemma turn_accounts w o w' t :
  iteration w = (o, w', t) ->
  (pops t = [] /\ acks t = [] /\
   main_q (broker w') = main_q (broker w) /\
   proc_q (broker w') = proc_q (broker w)) \/
  (exists rest x,
     main_q (broker w) = rest ++ [x] /\ pops t = [x] /\
     main_q (broker w') = rest /\
     ((acks t = [x] /\ proc_q (broker w') = proc_q (broker w)) \/
      (acks t = [] /\ proc_q (broker w') = x :: proc_q (broker w)))).
Proof.
  intros Hrun.
  destruct (brpoplpush_cases w)
    as [(w1 & H & Hm & Hp)|[[Hf Hq]|(Hf & rest & x & Hq)]].
  - left. rewrite (iteration_dequeue_raises _ _ _ _ H) in Hrun.
    cbn [is_JSONDecodeError] in Hrun. rewrite sleep_run in Hrun.
    injection Hrun as <- <- <-. cbn [with_clock broker].
    repeat split; assumption.
  - left. destruct (brpoplpush_waits w Hq Hf) as (w1 & H & Hm & Hp & _).
    rewrite (iteration_dequeue_blocks _ _ _ H) in Hrun.
    injection Hrun as <- <- <-. repeat split; congruence.
  - right. exists rest, x.
    destruct (turn_shape w rest x Hq Hf) as (w1 & mid & fin & H & Hmid & Hm & Hfin).
    rewrite H in Hrun. injection Hrun as <- <- <-.
    destruct (staged_views_are_quiet _ _ _ _ Hmid) as [Hp0 Ha0].
    change (pop_obs x rest (proc_q (broker w)) :: mid ++ fin)
      with ([pop_obs x rest (proc_q (broker w))] ++ mid ++ fin).
    rewrite !pops_app, !acks_app, Hp0, Ha0.
    split; [exact Hq|].
    destruct Hfin as [[-> Hp]|[-> Hp]].
    + split; [reflexivity|]. split; [exact Hm|]. right. split; [reflexivity|exact Hp].
    + split; [reflexivity|]. split; [exact Hm|]. left. split; [reflexivity|exact Hp].
Qed.

(** X6. Over any number of turns, whatever the payloads, the store, the
    pipeline and the broker's faults: the main queue only loses entries, from
    the consumer's end and in the order they are dequeued; the processing
    buffer keeps every entry it had and only gains entries at its head; and
    every payload dequeued is either acknowledged or still parked in the
    processing buffer, none lost, none doubled, none put back on the main
    queue. *)
Theorem turns_conserve_jobs n :
  forall w o w' t,
    start_worker n w = (o, w', t) ->
    exists parked,
      main_q (broker w) = main_q (broker w') ++ rev (pops t) /\
      proc_q (broker w') = parked ++ proc_q (broker w) /\
      Permutation (pops t) (acks t ++ parked).
Proof.
  induction n as [|n IH]; intros w o w' t Hrun.
  - injection Hrun as <- <- <-. exists []. cbn. rewrite app_nil_r.
    repeat split. constructor.
  - cbn [start_worker] in Hrun. unfold bind in Hrun.
    destruct (iteration w) as [[o1 w1] t1] eqn:Hturn.
    assert (Hone : exists parked1,
               main_q (broker w) = main_q (broker w1) ++ rev (pops t1) /\
               proc_q (broker w1) = parked1 ++ proc_q (broker w) /\
               Permutation (pops t1) (acks t1 ++ parked1)).
    { destruct (turn_accounts _ _ _ _ Hturn)
        as [(Hp & Ha & Hm & Hq)|(rest & x & Hm & Hp & Hm1 & Hcase)].
      - exists []. rewrite Hp, Ha, Hm, Hq. cbn. rewrite app_nil_r.
        repeat split. constructor.
      - rewrite Hp, Hm, Hm1. cbn [rev app].
        destruct Hcase as [[Ha Hq]|[Ha Hq]]; rewrite Ha, Hq.
        + exists []. repeat split. cbn. constructor. constructor.
        + exists [x]. repeat split. cbn. constructor. constructor. }
    destruct Hone as (parked1 & Hm1 & Hq1 & Hperm1).
    destruct o1 as [[]|e|].
    + destruct (start_worker n w1) as [[o2 w2] t2] eqn:Hrest.
      injection Hrun as <- <- <-.
      destruct (IH _ _ _ _ Hrest) as (parked2 & Hm2 & Hq2 & Hperm2).
      exists (parked2 ++ parked1).
      rewrite pops_app, acks_app, rev_app_distr.
      split; [rewrite Hm1, Hm2, app_assoc; reflexivity|].
      split; [rewrite Hq2, Hq1, app_assoc; reflexivity|].
      rewrite (Permutation_app Hperm1 Hperm2).
      rewrite <- !app_assoc. apply Permutation_app_head.
      rewrite (Permutation_app_comm parked2 parked1).
      rewrite !app_assoc. apply Permutation_app_tail.
      apply Permutation_app_comm.
    + injection Hrun as <- <- <-. exists parked1. auto.
    + injection Hrun as <- <- <-. exists parked1. auto.
Qed.

Lemma keeps_up_iteration : keeps_broker_up iteration.
Proof.
  apply keeps_up_try.
  - apply keeps_up_bind; [apply keeps_up_brpoplpush|]. intros x.
    apply keeps_up_bind.
    { intros w o w' t H Hf. injection H as <- <- <-. exact Hf. }
    intros _. destruct x; [apply keeps_up_ret|].
    unfold staged.
    repeat (apply keeps_up_bind;
            [apply keeps_up_store_side, store_side_lift|intros ?]).
    apply keeps_up_bind;
      [apply keeps_up_store_side, store_side_process_job|intros _].
    apply keeps_up_lrem.
  - intros e. destruct (is_JSONDecodeError e); [|apply keeps_up_sleep].
    apply keeps_up_try; [|intros; apply keeps_up_ret].
    intros w o w' t H Hf.
    destruct (job_json_bytes w) as [b|]; [|injection H as <- <- <-; exact Hf].
    revert w o w' t H Hf.
    change (keeps_broker_up
              (s <- lift (of_option UnicodeDecodeError (utf8_decode b)) ;;
               lrem (utf8_encode s))).
    apply keeps_up_bind; [apply keeps_up_store_side, store_side_lift|].
    intros s. apply keeps_up_lrem.
Qed.

(** X7. With a broker that answers every call, as many turns as the main
    queue has entries take them all, oldest first (from the consumer's end),
    each turn coming back to the head of the loop whatever its payload; the
    queue is then empty and the next turn waits in the dequeue, with nothing
    observed and no sleep. *)
Theorem worker_drains_in_order (l : list bytes) :
  forall w,
    main_q (broker w) = l ->
    redis_faults (broker w) = [] ->
    exists w' t,
      start_worker (List.length l) w = (Returned tt, w', t) /\
      main_q (broker w') = [] /\
      pops t = rev l /\
      exists w'', iteration w' = (Blocked, w'', []).
Proof.
  induction l as [|x l IH] using rev_ind; intros w Hq Hf.
  - exists w, []. split; [reflexivity|]. split; [exact Hq|].
    split; [reflexivity|].
    destruct (brpoplpush_empty w Hq) as (w1 & H); [rewrite Hf; reflexivity|].
    exists w1. apply iteration_dequeue_blocks, H.
  - rewrite length_app, Nat.add_1_r. cbn [List.length start_worker].
    assert (Hf0 : hd false (redis_faults (broker w)) = false)
      by (rewrite Hf; reflexivity).
    destruct (turn_shape w l x Hq Hf0) as (w1 & mid & fin & Hturn & Hmid & Hm1 & Hfin).
    pose proof (keeps_up_iteration _ _ _ _ Hturn Hf) as Hf1.
    destruct (IH w1 Hm1 Hf1) as (w' & t & Hrest & Hm' & Hpops & Hblock).
    rewrite (bind_returned _ _ _ _ _ _ Hturn), Hrest.
    do 2 eexists. split; [reflexivity|]. split; [exact Hm'|].
    split; [|exact Hblock].
    destruct (staged_views_are_quiet _ _ _ _ Hmid) as [Hp0 _].
    change (pop_obs x l (proc_q (broker w)) :: mid ++ fin)
      with ([pop_obs x l (proc_q (broker w))] ++ mid ++ fin).
    rewrite !pops_app, Hp0, Hpops, rev_app_distr.
    destruct Hfin as [[-> _]|[-> _]]; reflexivity.
Qed.

(** X4. An empty payload is staged and then left alone: the test
    [if job_json_bytes:] skips the whole body, so the turn sends no
    acknowledgment, does not sleep and does not touch the store, and the empty
    entry stays at the head of the processing buffer. *)
Theorem empty_payload_stays_staged w rest :
  main_q (broker w) = rest ++ [EmptyString] ->
  hd false (redis_faults (broker w)) = false ->
  exists w',
    iteration w =
      (Returned tt, w', [pop_obs EmptyString rest (proc_q (broker w))]) /\
    main_q (broker w') = rest /\
    proc_q (broker w') = EmptyString :: proc_q (broker w) /\
    store w' = store w /\ clock w' = clock w /\
    job_json_bytes w' = Some EmptyString.
Proof.
  intros Hq Hf.
  destruct (brpoplpush_moves w rest EmptyString Hq Hf)
    as (w1 & Hpop & Hm & Hp & _ & Hs & _ & Hc & _).
  rewrite (iteration_after_dequeue _ _ _ _ Hpop).
  eexists. split; [reflexivity|]. cbn [with_var broker store clock job_json_bytes].
  repeat split; assumption.
Qed.

(** X5. When the dequeue cannot reach the broker, the turn sleeps one second
    and comes back to the head of the loop; both queues and the store are as
    they were, and nothing else is observed. *)
Theorem broker_down_backs_off w fs :
  redis_faults (broker w) = true :: fs ->
  exists w',
    iteration w = (Returned tt, w', [sleep_obs 1 w]) /\
    main_q (broker w') = main_q (broker w) /\
    proc_q (broker w') = proc_q (broker w) /\
    redis_faults (broker w') = fs /\
    store w' = store w /\ clock w' = clock w + 1 /\
    job_json_bytes w' = job_json_bytes w.
Proof.
  intros Hf. unfold iteration, try_except, try_block, brpoplpush, bind, redis_call.
  rewrite Hf. cbn [is_JSONDecodeError]. rewrite sleep_run.
  eexists. split; [reflexivity|].
  cbn [with_clock with_broker broker store clock job_json_bytes main_q proc_q
       redis_faults].
  repeat split.
Qed.

(** X3. A payload that [json.loads] turns into something that is not an
    object, or into an object whose ["data"] is present and not an object,
    and likewise a payload on which [json.loads] raises anything but
    [JSONDecodeError] (it has come to one of the interpreter's limits),
    never reaches [process_job]: the turn raises before that, sends no
    acknowledgment and makes no call to the store, sleeps one second, and
    leaves the payload at the head of the processing buffer. *)
Theorem misshapen_json_is_parked w rest x s :
  main_q (broker w) = rest ++ [x] ->
  utf8_decode x = Some s ->
  (exists v, json_loads s = Ok v /\ envelope_shaped v = false) \/
  (exists e, json_loads s = Raise e /\ is_JSONDecodeError e = false) ->
  hd false (redis_faults (broker w)) = false ->
  exists w',
    iteration w =
      (Returned tt, w',
       [pop_obs x rest (proc_q (broker w));
        {| ev := EvSleep 1; seen_main := rest;
           seen_proc := x :: proc_q (broker w) |}]) /\
    main_q (broker w') = rest /\
    proc_q (broker w') = x :: proc_q (broker w) /\
    store w' = store w /\ clock w' = clock w + 1.
Proof.
  intros Hq Hd Hl Hf1.
  destruct (brpoplpush_moves w rest x Hq Hf1)
    as (w1 & Hpop & Hm1 & Hp1 & _ & Hs1 & _ & Hc1 & _).
  rewrite (iteration_after_dequeue _ _ _ _ Hpop).
  destruct x as [|a x'].
  { rewrite (empty_payload_is_not_json _ Hd) in Hl.
    destruct Hl as [(v & Hl & _)|(e & Hl & He)]; [discriminate|].
    injection Hl as <-. discriminate. }
  cbv iota.
  assert (Hraise : exists e, is_JSONDecodeError e = false /\
            forall w0, staged (String a x') w0 = (Raised e, w0, [])).
  { destruct Hl as [(v & Hl & Hshape)|(e & Hl & He)].
    - exists AttributeError. split; [reflexivity|]. intros w0.
      destruct (is_dict v) eqn:Hv.
      + destruct v as [| | | | | |job| |]; try discriminate Hv.
        cbn [envelope_shaped] in Hshape.
        destruct (dict_get (lit "data") job) as [dv|] eqn:Hg; [|discriminate].
        exact (staged_data_not_dict _ _ _ _ _ Hd Hl Hg Hshape).
      + exact (staged_not_object _ _ _ _ Hd Hl Hv).
    - exists e. split; [exact He|]. intros w0.
      exact (staged_loads_raises _ _ _ _ Hd Hl). }
  destruct Hraise as (e & He & Hraise).
  rewrite Hraise, He. rewrite sleep_run.
  cbn [with_var with_clock broker]. rewrite Hm1, Hp1.
  eexists. split; [reflexivity|].
  cbn [with_var with_clock broker store clock].
  repeat split; try assumption. rewrite Hc1. reflexivity.
Qed.


End Turns.

(** ** One write, and last *)

Lemma writes_last_of_reads {A} (m : M A) : reads m -> writes_last m.
Proof.
  intros Hm w o w' t H. destruct (Hm _ _ _ _ H) as ((Hu & Hi & Hs & Hr) & Ht).
  repeat split; try assumption. left. split; assumption.
Qed.

Lemma writes_last_bind {A B} (m : M A) (k : A -> M B) :
  reads m -> (forall a, writes_last (k a)) -> writes_last (bind m k).
Proof.
  intros Hm Hk w o w' t H. unfold bind in H.
  destruct (m w) as [[o1 w1] t1] eqn:E1.
  destruct (Hm _ _ _ _ E1) as ((Hu & Hi & Hs & Hr) & Ht).
  destruct o1 as [a|e|];
    try (injection H as <- <- <-; repeat split; try assumption;
         left; split; assumption).
  destruct (k a w1) as [[o2 w2] t2] eqn:E2.
  injection H as <- <- <-.
  destruct (Hk _ _ _ _ _ E2) as (Hu2 & Hs2 & Hr2 & Hcase).
  split; [congruence|]. split; [congruence|]. split; [congruence|].
  destruct Hcase as [[Hi2 Ht2]|(Hok & t0 & u & -> & Hup & Ht0)].
  - left. split; [congruence|]. apply Forall_app. split; assumption.
  - right. split; [exact Hok|]. exists (t1 ++ t0), u. rewrite app_assoc.
    split; [reflexivity|]. split; [exact Hup|].
    apply Forall_app. split; assumption.
Qed.

Lemma writes_last_update o f : writes_last (idps_update_one o f).
Proof.
  intros w r w' t H. unfold idps_update_one, bind in H.
  destruct (mongo_call w) as [[o0 w0] t0] eqn:E0.
  destruct (reads_mongo_call _ _ _ _ E0) as ((Hu & Hi & Hs & Hr) & _).
  assert (Ht0 : t0 = []).
  { unfold mongo_call in E0.
    destruct (mongo_faults (store w)) as [|[|] fs]; injection E0 as _ _ <-;
      reflexivity. }
  subst t0.
  destruct o0 as [[]|e|];
    try (injection H as <- <- <-; repeat split; try assumption;
         left; split; [assumption|constructor]).
  cbv zeta in H.
  destruct (update_first o f (idps (store w0))) as [l|];
    injection H as <- <- <-; cbn [with_store store users skills resources app];
    (split; [assumption|]); (split; [assumption|]); (split; [assumption|]);
    right; (split; [discriminate|]); eexists [], _;
    (split; [reflexivity|]); split;
    [reflexivity|constructor|reflexivity|constructor].
Qed.

Lemma writes_last_try {A} (m : M A) (a : A) :
  writes_last m -> writes_last (try_except m (fun _ => ret a)).
Proof.
  intros Hm w o w' t H. unfold try_except in H.
  destruct (m w) as [[o1 w1] t1] eqn:E1.
  destruct (Hm _ _ _ _ E1) as (Hu & Hs & Hr & Hcase).
  destruct o1 as [a1|e|]; cbn in H; injection H as <- <- <-;
    rewrite ?app_nil_r; repeat split; try assumption.
  destruct Hcase as [Hleft|(Hok & _)]; [left; exact Hleft|].
  exfalso. exact (Hok e eq_refl).
Qed.

Lemma reads_utcnow : reads utcnow.
Proof.
  intros w o w' t H. injection H as <- <- <-.
  split; [apply same_docs_refl|constructor].
Qed.

Ltac writes_step :=
  apply writes_last_bind;
  [solve [auto using reads_utcnow with reads]|intros ?].

Section Writes.

Context {E : Externals}.

Lemma writes_last_body job : writes_last (process_job_body job).
Proof.
  unfold process_job_body. do 10 writes_step. cbv zeta.
  match goal with |- writes_last (if ?c then _ else _) => destruct c end.
  - apply writes_last_of_reads, reads_ret.
  - do 13 writes_step. apply writes_last_update.
Qed.

(** X8. Whatever the job, the store and the pipeline do, [process_job]
    comes back having written at most once: users, skills and resources are
    never touched, and either the IDPs are as they were and no update was
    sent, or exactly one update was sent and it is the last thing
    [process_job] did with the store.  A failure anywhere before that point
    leaves no partial result. *)
Theorem process_job_writes_at_most_once job w :
  exists w' t,
    process_job job w = (Returned tt, w', t) /\
    users (store w') = users (store w) /\
    skills (store w') = skills (store w) /\
    resources (store w') = resources (store w) /\
    ((idps (store w') = idps (store w) /\
      Forall (fun ob => is_update (ev ob) = false) t) \/
     (exists t0 u,
        t = t0 ++ [u] /\ is_update (ev u) = true /\
        Forall (fun ob => is_update (ev ob) = false) t0)).
Proof.
  destruct (process_job_returns job w) as (w' & t & H & _).
  exists w', t. split; [exact H|].
  destruct (writes_last_try _ tt (writes_last_body job) _ _ _ _ H)
    as (Hu & Hs & Hr & [Hleft|(_ & Hright)]); repeat split; auto.
Qed.

(** X14. When the body of [process_job] raises, at whatever point and for
    whatever reason (a malformed job, the store or the pipeline failing), no
    update has been sent and every collection is as it was: a result is
    written only by a run that reaches its last line. *)
Theorem failed_job_writes_nothing job w e w' t :
  process_job_body job w = (Raised e, w', t) ->
  same_docs (store w) (store w') /\
  Forall (fun ob => is_update (ev ob) = false) t.
Proof.
  intros H.
  destruct (writes_last_body job _ _ _ _ H)
    as (Hu & Hs & Hr & [[Hi Ht]|(Hok & _)]).
  - repeat split; assumption.
  - exfalso. exact (Hok e eq_refl).
Qed.

(** X9. A job that is not a dict, or whose [userId] is there but is nothing
    [ObjectId] takes (neither an ObjectId nor a string of 24 characters that
    [bytes.fromhex] reads), is given up before the store is asked anything:
    [process_job] comes back with the world untouched and nothing
    observed. *)
Theorem bad_job_data_touches_nothing job w :
  (is_dict job = false \/
   exists d v, job = PDict d /\ dict_get (lit "userId") d = Some v /\
               not_an_id v = true) ->
  process_job job w = (Returned tt, w, []).
Proof.
  intros [Hj|(d & v & -> & Hu & Hv)].
  - destruct job; try discriminate Hj; reflexivity.
  - unfold process_job, try_except, process_job_body.
    rewrite (bind_lift_ok _ _ _ v) by (cbn [py_get]; rewrite Hu; reflexivity).
    rewrite (bind_lift_ok _ _ _ (match dict_get (lit "idpId") d with
                                 | Some x => x
                                 | None => PNone
                                 end)) by reflexivity.
    assert (Hid : exists e, ObjectId v w = (Raised e, w, [])).
    { unfold ObjectId. destruct v; try discriminate Hv; try (eexists; reflexivity).
      cbn [not_an_id] in Hv. destruct (oid_of_str s); [discriminate|].
      eexists. reflexivity. }
    destruct Hid as (e & Hid).
    match goal with
    | |- context [lift (py_print ?l)] => destruct (py_print l) as [[]|e'] eqn:Hp
    end.
    + rewrite (bind_lift_ok _ _ _ tt) by reflexivity.
      rewrite (bind_raised _ _ _ _ _ _ Hid). reflexivity.
    + rewrite (bind_lift_raise _ _ _ e') by reflexivity. reflexivity.
Qed.

(** X10. For a job with two well-formed ids of which one names no record,
    the store answering: [process_job] has by then read both documents and
    the whole of the skills and of the resources, four reads in that order,
    and it stops there, the world as it was. *)
Theorem missing_entity_costs_four_reads jd us is_ w :
  dict_get (lit "userId") jd = Some (PStr us) -> valid_oid us = true ->
  dict_get (lit "idpId") jd = Some (PStr is_) -> valid_oid is_ = true ->
  mongo_faults (store w) = [] ->
  find (id_is (map lower us)) (users (store w)) = None \/
  find (id_is (map lower is_)) (idps (store w)) = None ->
  exists user idp t,
    process_job (PDict jd) w = (Returned tt, w, t) /\
    map ev t = [ EvFindOne Users (map lower us) user;
                 EvFindOne Idps (map lower is_) idp;
                 EvFind Skills; EvFind Resources ] /\
    (user = PNone \/ idp = PNone).
Proof.
  intros Hu Hvu Hi Hvi Hmf Hmiss.
  set (user := match find (id_is (map lower us)) (users (store w)) with
               | Some d => PDict d | None => PNone end).
  set (idp := match find (id_is (map lower is_)) (idps (store w)) with
              | Some d => PDict d | None => PNone end).
  assert (Hnone : user = PNone \/ idp = PNone).
  { subst user idp. destruct Hmiss as [-> | ->]; [left|right]; reflexivity. }
  assert (Hcond : negb (py_truthy user) || negb (py_truthy idp) = true).
  { destruct Hnone as [-> | ->]; [reflexivity|apply orb_true_r]. }
  exists user, idp. eexists.
  split; [|split; [|exact Hnone]].
  - unfold process_job, try_except, process_job_body.
    rewrite (bind_lift_ok _ _ _ (PStr us)) by (cbn [py_get]; rewrite Hu; reflexivity).
    rewrite (bind_lift_ok _ _ _ (PStr is_)) by (cbn [py_get]; rewrite Hi; reflexivity).
    rewrite (bind_lift_ok _ _ _ tt) by (apply print_ids; assumption).
    rewrite (bind_returned _ _ _ _ _ _ (ObjectId_str _ _ Hvu)).
    rewrite (bind_returned _ _ _ _ _ _ (find_one_ok Users _ _ Hmf)).
    cbn [coll]. fold user.
    rewrite (bind_returned _ _ _ _ _ _ (ObjectId_str _ _ Hvi)).
    rewrite (bind_returned _ _ _ _ _ _ (find_one_ok Idps _ _ Hmf)).
    cbn [coll]. fold idp.
    rewrite (bind_returned _ _ _ _ _ _ (find_all_ok Skills _ Hmf)).
    rewrite (bind_returned _ _ _ _ _ _ (find_all_ok Resources _ Hmf)).
    cbn [coll].
    destruct (build_skill_map (skills (store w))) as [m|e] eqn:Hmap.
    + rewrite (bind_lift_ok _ _ _ m) by reflexivity.
      cbv zeta. rewrite Hcond. cbv beta iota zeta. cbn [app]. reflexivity.
    + rewrite (bind_lift_raise _ _ _ e) by reflexivity.
      cbv beta iota zeta. cbn [app]. reflexivity.
  - reflexivity.
Qed.

End Writes.

(** ** Processing a job again *)

Lemma dict_set_same_value k v d :
  dict_get k d = Some v -> dict_set k v d = d.
Proof.
  induction d as [|[k' v'] d IH]; simpl; [discriminate|].
  destruct (str_eqb k k').
  - intros H. injection H as ->. reflexivity.
  - intros H. rewrite (IH H). reflexivity.
Qed.

Lemma result_fields_twice recs now d :
  apply_set (result_fields recs now) (apply_set (result_fields recs now) d)
  = apply_set (result_fields recs now) d.
Proof.
  destruct (result_fields_set recs now d) as (H1 & H2 & H3 & _).
  set (D := apply_set (result_fields recs now) d) in *.
  unfold apply_set at 1. unfold result_fields. cbn [fold_left fst snd].
  rewrite (dict_set_same_value _ _ _ H1), (dict_set_same_value _ _ _ H2).
  apply dict_set_same_value, H3.
Qed.

Lemma result_fields_other recs now d k :
  is_result_key k = false ->
  dict_get k (apply_set (result_fields recs now) d) = dict_get k d.
Proof.
  unfold is_result_key. intros H.
  apply orb_false_iff in H. destruct H as [H H3].
  apply orb_false_iff in H. destruct H as [H1 H2].
  assert (Hne : forall a, str_eqb k a = false -> k <> a).
  { intros a Ha ->. rewrite str_eqb_refl in Ha. discriminate. }
  unfold apply_set, result_fields. cbn [fold_left fst snd].
  rewrite !dict_get_set_other by auto. reflexivity.
Qed.

Lemma update_first_fixed o f l d :
  find (id_is o) l = Some d -> apply_set f d = d ->
  update_first o f l = Some l.
Proof.
  intros Hfind Hfix. induction l as [|d0 l IH]; simpl in Hfind; [discriminate|].
  simpl. destruct (id_is o d0) eqn:H0.
  - injection Hfind as ->. rewrite Hfix. reflexivity.
  - rewrite (IH Hfind). reflexivity.
Qed.

Lemma id_is_unique o o' d : id_is o d = true -> o' <> o -> id_is o' d = false.
Proof.
  unfold id_is. destruct (dict_get (lit "_id") d) as [[]|]; try discriminate.
  intros H Hne. apply str_eqb_eq in H. subst. apply str_eqb_neq.
  intros Heq. apply Hne. symmetry. exact Heq.
Qed.

Lemma update_first_elsewhere o recs now l l' o' :
  update_first o (result_fields recs now) l = Some l' ->
  o' <> o ->
  find (id_is o') l' = find (id_is o') l /\ List.length l' = List.length l.
Proof.
  revert l'. induction l as [|d l IH]; intros l' H Hne; cbn [update_first] in H;
    [discriminate|].
  destruct (id_is o d) eqn:Hd.
  - injection H as <-. split; [|reflexivity]. cbn [find].
    assert (Hsame : id_is o' (apply_set (result_fields recs now) d) = id_is o' d).
    { unfold id_is. destruct (result_fields_set recs now d) as (_ & _ & _ & ->).
      reflexivity. }
    unfold apply_set, result_fields in Hsame. cbn [fold_left fst snd] in Hsame.
    rewrite Hsame, (id_is_unique _ _ _ Hd Hne). reflexivity.
  - destruct (update_first o (result_fields recs now) l) as [r|]; [|discriminate].
    injection H as <-. destruct (IH r eq_refl Hne) as [Hf Hl].
    cbn [find List.length]. rewrite Hf, Hl. split; reflexivity.
Qed.

Lemma update_first_length o f l l' :
  update_first o f l = Some l' -> List.length l' = List.length l.
Proof.
  revert l'. induction l as [|d l IH]; intros l' H; cbn [update_first] in H;
    [discriminate|].
  destruct (id_is o d).
  - injection H as <-. reflexivity.
  - destruct (update_first o f l) as [r|]; [|discriminate].
    injection H as <-. cbn [List.length]. rewrite (IH r eq_refl). reflexivity.
Qed.

Section Again.

Context {E : Externals}.

(** The pipeline is a function of what it is given. *)
Lemma pipeline_output_same w w1 user idp idp1 items items1 :
  skills (store w1) = skills (store w) ->
  resources (store w1) = resources (store w) ->
  goals_of idp1 = goals_of idp ->
  pipeline_output w user idp items ->
  pipeline_output w1 user idp1 items1 ->
  items1 = items.
Proof.
  intros Hs Hr Hg (m & gs & idx & mat & feats & Hm & Hgs & Hidx & Hmat & Hf & Hrank)
         (m1 & gs1 & idx1 & mat1 & feats1 & Hm1 & Hgs1 & Hidx1 & Hmat1 & Hf1 & Hrank1).
  rewrite Hs in *. rewrite Hr in *. rewrite Hg in *.
  assert (m1 = m) by congruence. subst m1.
  assert (gs1 = gs) by congruence. subst gs1.
  assert (idx1 = idx) by congruence. subst idx1.
  assert (mat1 = mat) by congruence. subst mat1.
  assert (feats1 = feats) by congruence. subst feats1.
  congruence.
Qed.

Lemma goals_survive recs now idp :
  goals_of (apply_set (result_fields recs now) idp) = goals_of idp.
Proof.
  unfold goals_of. rewrite result_fields_other by reflexivity. reflexivity.
Qed.

Lemma result_fields_keys recs now d :
  dict_get (lit "suggestedResources") d <> None ->
  dict_get (lit "status") d <> None ->
  dict_get (lit "updatedAt") d <> None ->
  map fst (apply_set (result_fields recs now) d) = map fst d.
Proof.
  intros H1 H2 H3. unfold apply_set, result_fields. cbn [fold_left fst snd].
  rewrite !dict_set_keys; [reflexivity|exact H1| |].
  - rewrite dict_get_set_other by (apply lit_neq; reflexivity). exact H2.
  - rewrite !dict_get_set_other by (apply lit_neq; reflexivity). exact H3.
Qed.

(** Setting the result a second time, at another time, changes [updatedAt]
    and nothing else. *)
Lemma result_fields_again recs now now' d k :
  k <> lit "updatedAt" ->
  dict_get k (apply_set (result_fields recs now')
                        (apply_set (result_fields recs now) d))
  = dict_get k (apply_set (result_fields recs now) d).
Proof.
  intros Hk. set (D := apply_set (result_fields recs now) d).
  destruct (is_result_key k) eqn:Hr; [|apply result_fields_other, Hr].
  destruct (result_fields_set recs now d) as (H1 & H2 & _).
  destruct (result_fields_set recs now' D) as (H1' & H2' & _).
  fold D in H1, H2. unfold is_result_key in Hr.
  apply orb_prop in Hr. destruct Hr as [Hr|Hr].
  - apply orb_prop in Hr. destruct Hr as [Hr|Hr];
      apply str_eqb_eq in Hr; subst k; congruence.
  - apply str_eqb_eq in Hr. contradiction.
Qed.

(** X11. Processing the same job a second time overwrites the result in
    place.  The second run reads the IDP as the first one left it, gets the
    same ranked items, and sends an update with the same list and the same
    status; the time it sets is read from the clock again, so [updatedAt] is
    renewed.  The IDP keeps its fields, in order, each but [updatedAt] with
    the value the first run left; every other IDP, and the users, skills and
    resources, are as the first run left them. *)
Theorem reprocessing_renews_the_time_only (score_ge : pyval -> pyval -> Prop)
  jd us is_ user idp w :
  adapter_contract E score_ge ->
  dict_get (lit "userId") jd = Some (PStr us) -> valid_oid us = true ->
  dict_get (lit "idpId") jd = Some (PStr is_) -> valid_oid is_ = true ->
  find (id_is (map lower us)) (users (store w)) = Some user ->
  find (id_is (map lower is_)) (idps (store w)) = Some idp ->
  mongo_faults (store w) = [] ->
  forallb has_id (skills (store w)) = true ->
  forallb has_id (resources (store w)) = true ->
  goals_of idp <> None ->
  exists recs w1 w2 t1 t2 idp1 idp2,
    process_job (PDict jd) w = (Returned tt, w1, t1) /\
    process_job (PDict jd) w1 = (Returned tt, w2, t2) /\
    (exists r1 r2,
       map ev t1 =
         r1 ++ [EvUpdateOne (map lower is_) (result_fields recs (clock w)) true] /\
       map ev t2 =
         r2 ++ [EvUpdateOne (map lower is_) (result_fields recs (clock w1)) true] /\
       Forall (fun e => is_update e = false) (r1 ++ r2)) /\
    clock w1 = clock w + hd 0 (time_passes w) /\
    find (id_is (map lower is_)) (idps (store w1)) = Some idp1 /\
    find (id_is (map lower is_)) (idps (store w2)) = Some idp2 /\
    map fst idp2 = map fst idp1 /\
    (forall k, k <> lit "updatedAt" -> dict_get k idp2 = dict_get k idp1) /\
    dict_get (lit "updatedAt") idp1 = Some (PDatetime (clock w)) /\
    dict_get (lit "updatedAt") idp2 = Some (PDatetime (clock w1)) /\
    (forall o, o <> map lower is_ ->
       find (id_is o) (idps (store w2)) = find (id_is o) (idps (store w1))) /\
    List.length (idps (store w2)) = List.length (idps (store w1)) /\
    users (store w2) = users (store w1) /\
    skills (store w2) = skills (store w1) /\
    resources (store w2) = resources (store w1).
Proof.
  intros HC Hu Hvu Hi Hvi Hfu Hfi Hmf Hsk Hrs Hgoals.
  destruct (success_run score_ge jd us is_ user idp w
              HC Hu Hvu Hi Hvi Hfu Hfi Hmf Hsk Hrs Hgoals)
    as (items & recs & idps' & Hout & _ & Hrecs & _ & Hupd & Hfind' & Hrun).
  set (w1 := with_store {| users := users (store w); idps := idps';
                           skills := skills (store w);
                           resources := resources (store w);
                           mongo_faults := mongo_faults (store w) |}
               (with_time (clock w + hd 0 (time_passes w))
                          (tl (time_passes w)) w)) in *.
  set (idp1 := apply_set (result_fields recs (clock w)) idp) in *.
  assert (Hgoals' : goals_of idp1 <> None).
  { subst idp1. rewrite goals_survive. exact Hgoals. }
  destruct (success_run score_ge jd us is_ user idp1 w1
              HC Hu Hvu Hi Hvi Hfu Hfind' Hmf Hsk Hrs Hgoals')
    as (items2 & recs2 & idps'' & Hout2 & _ & Hrecs2 & _ & Hupd2 & Hfind2 & Hrun2).
  assert (Hitems : items2 = items).
  { eapply (pipeline_output_same w w1 user idp idp1); try reflexivity;
      [apply goals_survive|exact Hout|exact Hout2]. }
  subst items2.
  assert (recs2 = recs) by congruence. subst recs2.
  change (idps (store w1)) with idps' in Hupd2.
  destruct (result_fields_set recs (clock w) idp) as (Hs1 & Hs2 & Hs3 & _).
  fold idp1 in Hs1, Hs2, Hs3.
  destruct (result_fields_set recs (clock w1) idp1) as (_ & _ & Hs3' & _).
  exists recs, w1. eexists. do 2 eexists.
  exists idp1, (apply_set (result_fields recs (clock w1)) idp1).
  split; [exact Hrun|]. split; [exact Hrun2|].
  split.
  { cbn [map ev].
    exists [ EvFindOne Users (map lower us) (PDict user);
             EvFindOne Idps (map lower is_) (PDict idp);
             EvFind Skills; EvFind Resources ],
           [ EvFindOne Users (map lower us) (PDict user);
             EvFindOne Idps (map lower is_) (PDict idp1);
             EvFind Skills; EvFind Resources ].
    split; [reflexivity|]. split; [reflexivity|]. repeat constructor. }
  split; [reflexivity|]. split; [exact Hfind'|].
  cbn [with_store store idps users skills resources].
  split; [exact Hfind2|].
  split; [apply result_fields_keys; congruence|].
  split; [intros k Hk; apply result_fields_again; exact Hk|].
  split; [exact Hs3|]. split; [exact Hs3'|].
  split.
  { intros o Ho. exact (proj1 (update_first_elsewhere _ _ _ _ _ _ Hupd2 Ho)). }
  split; [exact (update_first_length _ _ _ _ Hupd2)|].
  repeat split.
Qed.

(** X12. The update of a processed job reaches one document only: every
    IDP under another id is found as before, the number of IDPs is the same,
    and the IDP of the job keeps every field but the three that are set
    (its goals and its id among them). *)
Theorem update_reaches_three_fields (score_ge : pyval -> pyval -> Prop)
  jd us is_ user idp w :
  adapter_contract E score_ge ->
  dict_get (lit "userId") jd = Some (PStr us) -> valid_oid us = true ->
  dict_get (lit "idpId") jd = Some (PStr is_) -> valid_oid is_ = true ->
  find (id_is (map lower us)) (users (store w)) = Some user ->
  find (id_is (map lower is_)) (idps (store w)) = Some idp ->
  mongo_faults (store w) = [] ->
  forallb has_id (skills (store w)) = true ->
  forallb has_id (resources (store w)) = true ->
  goals_of idp <> None ->
  exists w' t idp',
    process_job (PDict jd) w = (Returned tt, w', t) /\
    find (id_is (map lower is_)) (idps (store w')) = Some idp' /\
    (forall k, is_result_key k = false -> dict_get k idp' = dict_get k idp) /\
    (forall o, o <> map lower is_ ->
       find (id_is o) (idps (store w')) = find (id_is o) (idps (store w))) /\
    List.length (idps (store w')) = List.length (idps (store w)).
Proof.
  intros HC Hu Hvu Hi Hvi Hfu Hfi Hmf Hsk Hrs Hgoals.
  destruct (success_run score_ge jd us is_ user idp w
              HC Hu Hvu Hi Hvi Hfu Hfi Hmf Hsk Hrs Hgoals)
    as (items & recs & idps' & _ & _ & _ & _ & Hupd & Hfind' & Hrun).
  do 3 eexists. split; [exact Hrun|].
  cbn [with_store store idps].
  split; [exact Hfind'|]. split; [intros k Hk; apply result_fields_other, Hk|].
  split.
  - intros o Ho. exact (proj1 (update_first_elsewhere _ _ _ _ _ _ Hupd Ho)).
  - exact (update_first_length _ _ _ _ Hupd).
Qed.

End Again.

Section Twice.

Context {E : Externals}.

(** X13. Enriching a resource that has been enriched changes nothing more:
    once the [skill] field holds the skill document it is no longer an
    ObjectId and is left alone. *)
Theorem enrichment_is_idempotent all_skills skill_map (r : dict) :
  build_skill_map all_skills = Ok skill_map ->
  enrich_resource skill_map (enrich_resource skill_map r)
  = enrich_resource skill_map r.
Proof.
  intros Hmap.
  assert (H : enrich_resource skill_map r = r \/
              exists sk, enrich_resource skill_map r
                         = dict_set (lit "skill") (PDict sk) r).
  { unfold enrich_resource. destruct (_ && _); [|left; reflexivity].
    destruct (dict_get _ skill_map) as [skv|] eqn:Hk; [|left; reflexivity].
    destruct (skill_map_sound _ _ Hmap _ _ Hk) as (sk & -> & _).
    right. exists sk. reflexivity. }
  destruct H as [H|(sk & H)]; rewrite H; [exact H|].
  unfold enrich_resource. rewrite dict_get_set_same.
  cbn [is_ObjectId]. rewrite andb_false_r. reflexivity.
Qed.

End Twice.

(* ================================================================== *)
(** * Part VI. The further properties at work on the small store *)
(* ================================================================== *)


Lemma undecodable_parked_witness :
  let w := sample_world [not_utf8] [data_null] in
  main_q (broker w) = [] ++ [not_utf8] /\
  utf8_decode not_utf8 = None /\
  hd false (redis_faults (broker w)) = false /\
  exists w',
    iteration (E := sample_externals) w =
      (Returned tt, w',
       [pop_obs not_utf8 [] [data_null];
        {| ev := EvSleep 1; seen_main := [];
           seen_proc := [not_utf8; data_null] |}]) /\
    proc_q (broker w') = [not_utf8; data_null].
Proof.
  intros w. do 3 (split; [reflexivity|]).
  destruct (undecodable_parked (E := sample_externals) w [] not_utf8
              eq_refl eq_refl eq_refl) as (w' & H & _ & Hp).
  exists w'. split; [exact H|exact Hp].
Defined.

Lemma misshapen_json_is_parked_witness :
  let w := sample_world ["[]"%string] [] in
  main_q (broker w) = [] ++ ["[]"%string] /\
  utf8_decode "[]" = Some (lit "[]") /\
  json_loads (E := sample_externals) (lit "[]") = Ok (PList []) /\
  envelope_shaped (PList []) = false /\
  hd false (redis_faults (broker w)) = false /\
  exists w',
    iteration (E := sample_externals) w =
      (Returned tt, w',
       [pop_obs "[]" [] [];
        {| ev := EvSleep 1; seen_main := []; seen_proc := ["[]"%string] |}]) /\
    store w' = store w.
Proof.
  intros w. do 5 (split; [reflexivity|]).
  destruct (misshapen_json_is_parked (E := sample_externals) w [] "[]"
              (lit "[]") eq_refl eq_refl
              (or_introl (ex_intro _ (PList []) (conj eq_refl eq_refl)))
              eq_refl)
    as (w' & H & _ & _ & Hs & _).
  exists w'. split; [exact H|exact Hs].
Defined.


Lemma empty_payload_stays_staged_witness :
  let w := sample_world [good_job; EmptyString] [] in
  main_q (broker w) = [good_job] ++ [EmptyString] /\
  hd false (redis_faults (broker w)) = false /\
  exists w',
    iteration (E := sample_externals) w =
      (Returned tt, w', [pop_obs EmptyString [good_job] []]) /\
    proc_q (broker w') = [EmptyString] /\ clock w' = clock w.
Proof.
  intros w. do 2 (split; [reflexivity|]).
  destruct (empty_payload_stays_staged (E := sample_externals) w [good_job]
              eq_refl eq_refl) as (w' & H & _ & Hp & _ & Hc & _).
  exists w'. repeat split; assumption.
Defined.

Lemma broker_down_backs_off_witness :
  let w := down_world [good_job] [] in
  redis_faults (broker w) = [true] /\
  exists w',
    iteration (E := sample_externals) w = (Returned tt, w', [sleep_obs 1 w]) /\
    main_q (broker w') = [good_job] /\ clock w' = clock w + 1.
Proof.
  intros w. split; [reflexivity|].
  destruct (broker_down_backs_off (E := sample_externals) w [] eq_refl)
    as (w' & H & Hm & _ & _ & _ & Hc & _).
  exists w'. repeat split; assumption.
Defined.

Lemma turns_conserve_jobs_witness :
  let w := sample_world ["not json"; "{}"; "[]"]%string [data_null] in
  exists o w' t,
    start_worker (E := sample_externals) 4 w = (o, w', t) /\
    exists parked,
      main_q (broker w) = main_q (broker w') ++ rev (pops t) /\
      proc_q (broker w') = parked ++ proc_q (broker w) /\
      Permutation (pops t) (acks t ++ parked).
Proof.
  intros w. do 3 eexists. split; [vm_compute; reflexivity|].
  eapply (turns_conserve_jobs (E := sample_externals) 4 w).
  vm_compute; reflexivity.
Defined.

Lemma worker_drains_in_order_witness :
  let l := ["not json"; "{}"; "[]"]%string in
  let w := sample_world l [] in
  main_q (broker w) = l /\
  redis_faults (broker w) = [] /\
  exists w' t,
    start_worker (E := sample_externals) 3 w = (Returned tt, w', t) /\
    main_q (broker w') = [] /\
    pops t = ["[]"; "{}"; "not json"]%string.
Proof.
  intros l w. do 2 (split; [reflexivity|]).
  destruct (worker_drains_in_order (E := sample_externals) l w eq_refl eq_refl)
    as (w' & t & H & Hm & Hp & _).
  exists w', t. repeat split; assumption.
Defined.

Lemma bad_job_data_touches_nothing_witness :
  let w := sample_world [] [] in
  dict_get (lit "userId") bad_id_job = Some (PStr (lit "xyz")) /\
  not_an_id (PStr (lit "xyz")) = true /\
  process_job (E := sample_externals) (PDict bad_id_job) w = (Returned tt, w, []).
Proof.
  intros w. do 2 (split; [reflexivity|]).
  apply (bad_job_data_touches_nothing (E := sample_externals)).
  right. exists bad_id_job, (PStr (lit "xyz")). repeat split.
Defined.

Lemma missing_entity_costs_four_reads_witness :
  let w := sample_world [] [] in
  dict_get (lit "userId") missing_idp_data = Some (PStr u1) /\
  valid_oid u1 = true /\
  dict_get (lit "idpId") missing_idp_data
    = Some (PStr (lit "507f1f77bcf86cd799439099")) /\
  valid_oid (lit "507f1f77bcf86cd799439099") = true /\
  mongo_faults (store w) = [] /\
  find (id_is (map lower (lit "507f1f77bcf86cd799439099"))) (idps (store w))
    = None /\
  exists t,
    process_job (E := sample_externals) (PDict missing_idp_data) w
      = (Returned tt, w, t) /\
    List.length t = 4%nat.
Proof.
  intros w. do 6 (split; [reflexivity|]).
  destruct (missing_entity_costs_four_reads (E := sample_externals)
              missing_idp_data u1 (lit "507f1f77bcf86cd799439099") w
              eq_refl eq_refl eq_refl eq_refl eq_refl (or_intror eq_refl))
    as (user & idp & t & H & Hev & _).
  exists t. split; [exact H|].
  rewrite <- (length_map ev), Hev. reflexivity.
Defined.

Lemma failed_job_writes_nothing_witness :
  let w := sample_world [] [] in
  process_job_body (E := sample_externals) (PDict bad_id_job) w
    = (Raised InvalidId, w, []) /\
  same_docs (store w) (store w).
Proof.
  intros w. split; [reflexivity|].
  exact (proj1 (failed_job_writes_nothing (E := sample_externals)
                  (PDict bad_id_job) w InvalidId w [] eq_refl)).
Defined.

Lemma reprocessing_renews_the_time_only_witness :
  let w := sample_world [] [] in
  adapter_contract sample_externals int_ge /\
  find (id_is (map lower u1)) (users (store w)) = Some sample_user /\
  find (id_is (map lower i1)) (idps (store w)) = Some sample_idp /\
  goals_of sample_idp <> None /\
  exists w1 w2 t1 t2 idp1 idp2,
    process_job (E := sample_externals) (PDict good_job_data) w
      = (Returned tt, w1, t1) /\
    process_job (E := sample_externals) (PDict good_job_data) w1
      = (Returned tt, w2, t2) /\
    find (id_is (map lower i1)) (idps (store w1)) = Some idp1 /\
    find (id_is (map lower i1)) (idps (store w2)) = Some idp2 /\
    dict_get (lit "suggestedResources") idp2
      = dict_get (lit "suggestedResources") idp1 /\
    dict_get (lit "updatedAt") idp1 = Some (PDatetime 1700000000) /\
    dict_get (lit "updatedAt") idp2 = Some (PDatetime 1700000007).
Proof.
  intros w. split; [exact sample_contract|]. do 2 (split; [reflexivity|]).
  assert (Hg : goals_of sample_idp <> None) by (vm_compute; discriminate).
  split; [exact Hg|].
  destruct (reprocessing_renews_the_time_only (E := sample_externals) int_ge
              good_job_data u1 i1 sample_user sample_idp w
              sample_contract eq_refl eq_refl eq_refl eq_refl eq_refl eq_refl
              eq_refl eq_refl eq_refl Hg)
    as (recs & w1 & w2 & t1 & t2 & idp1 & idp2 & H1 & H2 & _ & Hc & Hf1 & Hf2
        & _ & Hk & Ha1 & Ha2 & _).
  exists w1, w2, t1, t2, idp1, idp2.
  split; [exact H1|]. split; [exact H2|]. split; [exact Hf1|].
  split; [exact Hf2|].
  split; [apply Hk; apply lit_neq; reflexivity|].
  split; [exact Ha1|]. rewrite Ha2, Hc. reflexivity.
Defined.

Lemma update_reaches_three_fields_witness :
  let w := sample_world [] [] in
  adapter_contract sample_externals int_ge /\
  find (id_is (map lower u1)) (users (store w)) = Some sample_user /\
  find (id_is (map lower i1)) (idps (store w)) = Some sample_idp /\
  goals_of sample_idp <> None /\
  exists w' t idp',
    process_job (E := sample_externals) (PDict good_job_data) w
      = (Returned tt, w', t) /\
    find (id_is (map lower i1)) (idps (store w')) = Some idp' /\
    dict_get (lit "goals") idp' = dict_get (lit "goals") sample_idp.
Proof.
  intros w. split; [exact sample_contract|]. do 2 (split; [reflexivity|]).
  assert (Hg : goals_of sample_idp <> None) by (vm_compute; discriminate).
  split; [exact Hg|].
  destruct (update_reaches_three_fields (E := sample_externals) int_ge
              good_job_data u1 i1 sample_user sample_idp w
              sample_contract eq_refl eq_refl eq_refl eq_refl eq_refl eq_refl
              eq_refl eq_refl eq_refl Hg)
    as (w' & t & idp' & H & Hf & Hk & _).
  exists w', t, idp'. split; [exact H|]. split; [exact Hf|].
  apply Hk. reflexivity.
Defined.

Lemma enrichment_is_idempotent_witness :
  exists skill_map r,
    build_skill_map (E := sample_externals) (skills sample_store) = Ok skill_map /\
    hd_error (resources sample_store) = Some r /\
    enrich_resource (E := sample_externals) skill_map
      (enrich_resource (E := sample_externals) skill_map r)
    = enrich_resource (E := sample_externals) skill_map r.
Proof.
  do 2 eexists. split; [reflexivity|]. split; [reflexivity|].
  exact (enrichment_is_idempotent (E := sample_externals)
           (skills sample_store) _ _ eq_refl).
Defined.

(** ** The limits of the interpreter, and ids out of the ordinary *)

(** A payload nested deeper than the interpreter goes, and one with an
    integer longer than [int] converts, are not JSON decoding errors: the
    turn does not purge them, it sleeps and leaves them parked. *)
Example limits_park_the_payload :
  (exists s w',
     utf8_decode deep_payload = Some s /\
     json_loads (E := sample_externals) s = Raise RecursionError /\
     iteration (E := sample_externals) (sample_world [deep_payload] []) =
       (Returned tt, w',
        [pop_obs deep_payload [] [];
         {| ev := EvSleep 1; seen_main := []; seen_proc := [deep_payload] |}]) /\
     proc_q (broker w') = [deep_payload]) /\
  (exists s w',
     utf8_decode long_integer_payload = Some s /\
     json_loads (E := sample_externals) s = Raise ValueError /\
     iteration (E := sample_externals) (sample_world [long_integer_payload] []) =
       (Returned tt, w',
        [pop_obs long_integer_payload [] [];
         {| ev := EvSleep 1; seen_main := [];
            seen_proc := [long_integer_payload] |}]) /\
     proc_q (broker w') = [long_integer_payload]).
Proof.
  split; do 2 eexists;
    (split; [vm_compute; reflexivity|]);
    (split; [vm_compute; reflexivity|]);
    (split; [vm_compute; reflexivity|]);
    vm_compute; reflexivity.
Qed.

(** Within the limits the same shapes decode: 994 brackets opened and
    closed, and an integer of 4300 digits. *)
Example limits_are_inclusive :
  (exists v,
     json_loads (E := sample_externals)
       (repeat (ch "[") 994 ++ repeat (ch "]") 994) = Ok v) /\
  (exists z,
     json_loads (E := sample_externals) (repeat (ch "1") 4300) = Ok (PInt z)) /\
  json_loads (E := sample_externals)
    (repeat (ch "[") 995 ++ repeat (ch "]") 995) = Raise RecursionError /\
  json_loads (E := sample_externals) (repeat (ch "[") 10)
    = Raise JSONDecodeError.
Proof.
  split; [eexists; vm_compute; reflexivity|].
  split; [eexists; vm_compute; reflexivity|].
  split; vm_compute; reflexivity.
Qed.

(** [ObjectId] takes a string of 24 characters that [bytes.fromhex] reads,
    whitespace between the bytes included: the job goes on to its four
    reads.  It refuses whitespace inside a byte, and any other length. *)
Example spaced_id_is_taken :
  valid_oid spaced_id = false /\
  oid_of_str spaced_id = Some (lit "507f1f77bcf86cd7994390") /\
  not_an_id (PStr spaced_id) = false /\
  oid_of_str (lit "5 07f1f77bcf86cd79943901") = None /\
  oid_of_str (lit "507f1f77bcf86cd7994390") = None /\
  exists w' t,
    process_job (E := sample_externals)
      (PDict [(lit "userId", PStr spaced_id); (lit "idpId", PStr i1)])
      (sample_world [] []) = (Returned tt, w', t) /\
    map ev t = [ EvFindOne Users (lit "507f1f77bcf86cd7994390") PNone;
                 EvFindOne Idps i1 (PDict sample_idp);
                 EvFind Skills; EvFind Resources ].
Proof.
  do 5 (split; [reflexivity|]). do 2 eexists. split; reflexivity.
Qed.

(** An id that is a lone surrogate stops [process_job] at its first line of
    logging, before the store is asked anything. *)
Example unprintable_id_touches_nothing :
  let w := sample_world [] [] in
  process_job (E := sample_externals)
    (PDict [(lit "userId", PStr u1); (lit "idpId", PStr [0xD800])]) w
  = (Returned tt, w, []) /\
  process_job_body (E := sample_externals)
    (PDict [(lit "userId", PStr u1); (lit "idpId", PStr [0xD800])]) w
  = (Raised UnicodeEncodeError, w, []).
Proof. split; reflexivity. Qed.
